(** * youtube_data_extractor: a shallow embedding of [app.py]

    The development follows the layout of the program:

    - [PyStr]: Python [str] values and the string methods the program calls;
    - [Codecs]: the [utf-8], [latin-1] and [unicode_escape] codecs;
    - [clean_description]: the text normalizer;
    - [Urllib] and [get_video_id_from_url]: the identifier parser;
    - [get_youtube_tags]: the tag extractor;
    - [get_youtube_info_method1] .. [3]: the extraction strategies;
    - [get_youtube_info]: the orchestrator.

    A Python [str] is a sequence of code points, so strings are lists of [N].
    Exceptions are values of [result]; a [try]/[except] is [try_except]. *)

From Stdlib Require Import NArith String Ascii Lia.
From stdpp Require Import base list gmap.

Local Open Scope N_scope.

(** ** Python strings *)

Module PyStr.

(** A [str]: the code points, in order.  [len] is [length]. *)
Definition pystr := list N.

(** A literal of the program, written as a Rocq string (ASCII only). *)
Definition py (s : string) : pystr :=
  (fun a => N_of_ascii a) <$> list_ascii_of_string s.

Definition NL : N := 10.
Definition BACKSLASH : N := 92.

(** [str.isspace] on one character: the white space of the Unicode
    database (bidirectional type WS, B or S, or category Zs). *)
Definition isspace (c : N) : bool :=
  ((9 <=? c) && (c <=? 13)) || ((28 <=? c) && (c <=? 32))
  || (c =? 133) || (c =? 160) || (c =? 5760)
  || ((8192 <=? c) && (c <=? 8202))
  || (c =? 8232) || (c =? 8233) || (c =? 8239) || (c =? 8287)
  || (c =? 12288).

Fixpoint lstrip (s : pystr) : pystr :=
  match s with
  | [] => []
  | c :: s' => if isspace c then lstrip s' else s
  end.

Definition rstrip (s : pystr) : pystr := rev (lstrip (rev s)).

(** [s.strip()] *)
Definition strip (s : pystr) : pystr := rstrip (lstrip s).

(** [s.startswith(p)] *)
Fixpoint startswith (p s : pystr) : bool :=
  match p, s with
  | [], _ => true
  | _ :: _, [] => false
  | a :: p', b :: s' => (a =? b) && startswith p' s'
  end.

(** [sub in s] *)
Fixpoint contains (sub s : pystr) : bool :=
  startswith sub s ||
  match s with
  | [] => false
  | _ :: s' => contains sub s'
  end.

(** [c in s] for one character. *)
Definition has_char (c : N) (s : pystr) : bool := existsb (N.eqb c) s.

(** [s == t] *)
Definition str_eqb (s t : pystr) : bool := bool_decide (s = t).

(** [s.split(sep)] for a non-empty separator: the pieces between the
    occurrences of [sep], found left to right without overlap.  [skip]
    counts the characters of a found separator still to be passed and
    [cur] holds the current piece, reversed. *)
Fixpoint split_go (sep s : pystr) (skip : nat) (cur : pystr) : list pystr :=
  match s with
  | [] => [rev cur]
  | c :: s' =>
      match skip with
      | S k => split_go sep s' k cur
      | O =>
          if startswith sep s
          then rev cur :: split_go sep s' (Nat.pred (length sep)) []
          else split_go sep s' O (c :: cur)
      end
  end.

Definition split (sep s : pystr) : list pystr := split_go sep s O [].

(** [sep.join(l)] *)
Fixpoint join (sep : pystr) (l : list pystr) : pystr :=
  match l with
  | [] => []
  | [x] => x
  | x :: l' => x ++ sep ++ join sep l'
  end.

(** [s.replace(old, new)] for a non-empty [old]. *)
Fixpoint replace_go (old new s : pystr) (skip : nat) : pystr :=
  match s with
  | [] => []
  | c :: s' =>
      match skip with
      | S k => replace_go old new s' k
      | O =>
          if startswith old s
          then new ++ replace_go old new s' (Nat.pred (length old))
          else c :: replace_go old new s' O
      end
  end.

Definition replace (old new s : pystr) : pystr := replace_go old new s O.

(** [s.partition(sep)] for one character: the text before the first
    [sep], whether [sep] was found, and the text after it. *)
Fixpoint partition (sep : N) (s : pystr) : pystr * bool * pystr :=
  match s with
  | [] => ([], false, [])
  | c :: s' =>
      if c =? sep then ([], true, s')
      else let '(a, found, b) := partition sep s' in (c :: a, found, b)
  end.

(** [s.rpartition(sep)[2]]: the text after the last [sep], or all of [s]. *)
Fixpoint after_last (sep : N) (s : pystr) : pystr :=
  match s with
  | [] => []
  | c :: s' =>
      if has_char sep s' then after_last sep s'
      else if c =? sep then s' else s
  end.

(** [s[:n]] and [s[n:]] are stdpp's [take] and [drop]. *)

(** [c.isascii()] *)
Definition isascii (c : N) : bool := c <? 128.

Definition is_upper_ascii (c : N) : bool := (65 <=? c) && (c <=? 90).
Definition is_lower_ascii (c : N) : bool := (97 <=? c) && (c <=? 122).
Definition is_digit (c : N) : bool := (48 <=? c) && (c <=? 57).

End PyStr.

Export PyStr.

(** ** Exceptions *)

(** The exception classes that occur in the program.  All of them derive
    from [Exception]. *)
Inductive exn : Type :=
  | UnicodeDecodeError
  | UnicodeEncodeError
  | AttributeError
  | ValueError
  | IndexError
  | RequestException
  | HTTPError
  | JSONDecodeError
  | PlainException (msg : pystr).

Inductive result (A : Type) : Type :=
  | Ok (a : A)
  | Raise (e : exn).

Arguments Ok {A} a.
Arguments Raise {A} e.

Global Instance result_ret : MRet result := fun _ a => Ok a.
Global Instance result_bind : MBind result := fun _ _ k m =>
  match m with
  | Ok a => k a
  | Raise e => Raise e
  end.
Global Instance result_fmap : FMap result := fun _ _ f m =>
  match m with
  | Ok a => Ok (f a)
  | Raise e => Raise e
  end.

(** [try: body / except (classes): handler]: the handler runs when the body
    raises an exception that [catches] accepts. *)
Definition try_except {A} (body : result A) (catches : exn -> bool)
    (handler : exn -> result A) : result A :=
  match body with
  | Ok a => Ok a
  | Raise e => if catches e then handler e else Raise e
  end.

Definition is_UnicodeDecodeError (e : exn) : bool :=
  match e with UnicodeDecodeError => true | _ => false end.
Definition is_UnicodeEncodeError (e : exn) : bool :=
  match e with UnicodeEncodeError => true | _ => false end.
Definition is_AttributeError (e : exn) : bool :=
  match e with AttributeError => true | _ => false end.
(** [UnicodeError] is the base class of the two codec errors. *)
Definition is_UnicodeError (e : exn) : bool :=
  is_UnicodeDecodeError e || is_UnicodeEncodeError e.
(** [except Exception] and a bare [except:] *)
Definition any_Exception (e : exn) : bool := true.

(** ** The Python runtime

    What the program takes from the interpreter and its libraries and this
    development does not define: tables of the Unicode database, the text of
    library exceptions, and library checks that rest on those tables. *)
Class PyRuntime : Type := {
  (** [unicodedata.lookup]: the code point of a character name, for the
      [\N{name}] escape. *)
  unicodedata_lookup : list N -> option N;
  (** [str(e)] *)
  exn_text : exn -> pystr;
  (** The lower-case mapping of the non-ASCII character at an index of a
      string ([str.lower] looks at the context for the final sigma). *)
  unicode_lower : pystr -> nat -> pystr;
  (** [urllib.parse._checknetloc] on a non-ASCII network location: [false]
      when the NFKC-normalized form holds one of [/?#@:]. *)
  netloc_nfkc_ok : pystr -> bool;
  (** [urllib.parse._check_bracketed_host]: the text between brackets is an
      IPv6 or IPvFuture address. *)
  bracketed_host_ok : pystr -> bool;
  (** [bytes.decode('utf-8', 'replace')] *)
  utf8_decode_replace : list N -> pystr;
  (** [re.search(pattern, text, flags)]: group 1 of the leftmost match, if
      there is one; the flag says whether [re.DOTALL] is set. *)
  re_search : pystr -> bool -> pystr -> option pystr;
  (** [unicodedata.lookup] yields characters. *)
  unicodedata_lookup_range :
    forall name c, unicodedata_lookup name = Some c -> c <= 0x10FFFF
}.

(** ** Codecs *)

Module Codecs.

(** The surrogates have no encoding. *)
Definition is_surrogate (c : N) : bool := (0xD800 <=? c) && (c <=? 0xDFFF).

(** One code point as UTF-8, the bit fields written with division and
    remainder. *)
Definition utf8_char (c : N) : list N :=
  if c <? 0x80 then [c]
  else if c <? 0x800 then [0xC0 + c / 64; 0x80 + c mod 64]
  else if c <? 0x10000 then
    [0xE0 + c / 4096; 0x80 + (c / 64) mod 64; 0x80 + c mod 64]
  else
    [0xF0 + c / 262144; 0x80 + (c / 4096) mod 64;
     0x80 + (c / 64) mod 64; 0x80 + c mod 64].

(** [s.encode('utf-8')]: raises [UnicodeEncodeError] at a surrogate. *)
Fixpoint utf8_encode (s : pystr) : result (list N) :=
  match s with
  | [] => Ok []
  | c :: s' =>
      if is_surrogate c then Raise UnicodeEncodeError
      else (fun bs => utf8_char c ++ bs) <$> utf8_encode s'
  end.

(** [s.encode('utf-8', errors='ignore')]: surrogates are left out. *)
Fixpoint utf8_encode_ignore (s : pystr) : list N :=
  match s with
  | [] => []
  | c :: s' =>
      if is_surrogate c then utf8_encode_ignore s'
      else utf8_char c ++ utf8_encode_ignore s'
  end.

(** [s.encode('utf-8', errors='replace')]: a surrogate becomes [?]. *)
Fixpoint utf8_encode_replace (s : pystr) : list N :=
  match s with
  | [] => []
  | c :: s' =>
      (if is_surrogate c then [63] else utf8_char c)
        ++ utf8_encode_replace s'
  end.

Definition is_cont (b : N) : bool := (0x80 <=? b) && (b <=? 0xBF).
Definition cont (b : N) : N := b - 0x80.

(** [b.decode('utf-8')]: strict, so a truncated or overlong sequence, a
    stray continuation byte, an encoded surrogate or a value above
    U+10FFFF raises [UnicodeDecodeError]. *)
Fixpoint utf8_decode (b : list N) : result pystr :=
  match b with
  | [] => Ok []
  | b1 :: r1 =>
      if b1 <? 0x80 then cons b1 <$> utf8_decode r1
      else if (0xC2 <=? b1) && (b1 <=? 0xDF) then
        match r1 with
        | b2 :: r2 =>
            if is_cont b2
            then cons (64 * (b1 - 0xC0) + cont b2) <$> utf8_decode r2
            else Raise UnicodeDecodeError
        | [] => Raise UnicodeDecodeError
        end
      else if (0xE0 <=? b1) && (b1 <=? 0xEF) then
        match r1 with
        | b2 :: b3 :: r3 =>
            let v := 4096 * (b1 - 0xE0) + 64 * cont b2 + cont b3 in
            if is_cont b2 && is_cont b3 && (0x800 <=? v) && negb (is_surrogate v)
            then cons v <$> utf8_decode r3
            else Raise UnicodeDecodeError
        | _ => Raise UnicodeDecodeError
        end
      else if (0xF0 <=? b1) && (b1 <=? 0xF4) then
        match r1 with
        | b2 :: b3 :: b4 :: r4 =>
            let v := 262144 * (b1 - 0xF0) + 4096 * cont b2
                     + 64 * cont b3 + cont b4 in
            if is_cont b2 && is_cont b3 && is_cont b4
               && (0x10000 <=? v) && (v <=? 0x10FFFF)
            then cons v <$> utf8_decode r4
            else Raise UnicodeDecodeError
        | _ => Raise UnicodeDecodeError
        end
      else Raise UnicodeDecodeError
  end.

(** [s.encode('latin-1')]: every code point must fit in a byte. *)
Fixpoint latin1_encode (s : pystr) : result (list N) :=
  match s with
  | [] => Ok []
  | c :: s' =>
      if c <=? 255 then cons c <$> latin1_encode s'
      else Raise UnicodeEncodeError
  end.

Definition is_octal (c : N) : bool := (48 <=? c) && (c <=? 55).

Definition hex_digit (c : N) : option N :=
  if (48 <=? c) && (c <=? 57) then Some (c - 48)
  else if (97 <=? c) && (c <=? 102) then Some (c - 87)
  else if (65 <=? c) && (c <=? 70) then Some (c - 55)
  else None.

Fixpoint hex_value (acc : N) (ds : list N) : option N :=
  match ds with
  | [] => Some acc
  | d :: ds' =>
      match hex_digit d with
      | Some v => hex_value (16 * acc + v) ds'
      | None => None
      end
  end.

(** The body of a [\x], [\u] or [\U] escape: the digits [ds] give the
    character, followed by the decoding [rest] of what follows. *)
Definition hex_escape (ds : list N) (rest : result pystr) : result pystr :=
  match hex_value 0 ds with
  | Some v => if v <=? 0x10FFFF then cons v <$> rest else Raise UnicodeDecodeError
  | None => Raise UnicodeDecodeError
  end.

(** The [unicode_escape] decoder on bytes, with strict error handling: a
    byte that is not a backslash stands for the code point of its value
    (Latin-1); a backslash starts an escape as in a Python string
    literal; an unknown escape keeps the backslash and the character. *)
Fixpoint unicode_escape_bytes {RT : PyRuntime} (b : list N) : result pystr :=
  match b with
  | [] => Ok []
  | c :: r =>
      if negb (c =? 92) then cons c <$> unicode_escape_bytes r
      else
        match r with
        | [] => Raise UnicodeDecodeError
        | e :: r1 =>
            if e =? 10 then unicode_escape_bytes r1
            else if e =? 92 then cons 92 <$> unicode_escape_bytes r1
            else if e =? 39 then cons 39 <$> unicode_escape_bytes r1
            else if e =? 34 then cons 34 <$> unicode_escape_bytes r1
            else if e =? 98 then cons 8 <$> unicode_escape_bytes r1
            else if e =? 102 then cons 12 <$> unicode_escape_bytes r1
            else if e =? 116 then cons 9 <$> unicode_escape_bytes r1
            else if e =? 110 then cons 10 <$> unicode_escape_bytes r1
            else if e =? 114 then cons 13 <$> unicode_escape_bytes r1
            else if e =? 118 then cons 11 <$> unicode_escape_bytes r1
            else if e =? 97 then cons 7 <$> unicode_escape_bytes r1
            else if is_octal e then
              match r1 with
              | d2 :: r2 =>
                  if is_octal d2 then
                    match r2 with
                    | d3 :: r3 =>
                        if is_octal d3
                        then cons (64 * (e - 48) + 8 * (d2 - 48) + (d3 - 48))
                               <$> unicode_escape_bytes r3
                        else cons (8 * (e - 48) + (d2 - 48))
                               <$> unicode_escape_bytes r2
                    | [] => cons (8 * (e - 48) + (d2 - 48))
                              <$> unicode_escape_bytes r2
                    end
                  else cons (e - 48) <$> unicode_escape_bytes r1
              | [] => cons (e - 48) <$> unicode_escape_bytes r1
              end
            else if e =? 120 then
              match r1 with
              | h1 :: h2 :: r' => hex_escape [h1; h2] (unicode_escape_bytes r')
              | _ => Raise UnicodeDecodeError
              end
            else if e =? 117 then
              match r1 with
              | h1 :: h2 :: h3 :: h4 :: r' =>
                  hex_escape [h1; h2; h3; h4] (unicode_escape_bytes r')
              | _ => Raise UnicodeDecodeError
              end
            else if e =? 85 then
              match r1 with
              | h1 :: h2 :: h3 :: h4 :: h5 :: h6 :: h7 :: h8 :: r' =>
                  hex_escape [h1; h2; h3; h4; h5; h6; h7; h8]
                    (unicode_escape_bytes r')
              | _ => Raise UnicodeDecodeError
              end
            else if e =? 78 then
              match r1 with
              | brace :: r2 =>
                  if negb (brace =? 123) then Raise UnicodeDecodeError
                  else
                  (fix scan (l name : list N) {struct l} : result pystr :=
                     match l with
                     | [] => Raise UnicodeDecodeError
                     | ch :: l' =>
                         if ch =? 125 then
                           match name with
                           | [] => Raise UnicodeDecodeError
                           | _ :: _ =>
                               match unicodedata_lookup (rev name) with
                               | Some v => cons v <$> unicode_escape_bytes l'
                               | None => Raise UnicodeDecodeError
                               end
                           end
                         else scan l' (ch :: name)
                     end) r2 []
              | [] => Raise UnicodeDecodeError
              end
            else cons 92 <$> (cons e <$> unicode_escape_bytes r1)
        end
  end.

(** [codecs.decode(s, 'unicode_escape')] on a [str]: the text is taken as
    its UTF-8 bytes, which are then decoded. *)
Definition unicode_escape_decode {RT : PyRuntime} (s : pystr) : result pystr :=
  b ← utf8_encode s; unicode_escape_bytes b.

End Codecs.

(** ** The text normalizer *)

Section Normalizer.
Context {RT : PyRuntime}.
Import Codecs.

(** [re.sub(r'\n{3,}', '\n\n', s)]: every maximal run of three or more
    newlines becomes two, so a run keeps its first two newlines; [run]
    counts the newlines just passed. *)
Fixpoint sub_newlines_go (s : pystr) (run : nat) : pystr :=
  match s with
  | [] => []
  | c :: s' =>
      if c =? NL then
        if (run <? 2)%nat then c :: sub_newlines_go s' (S run)
        else sub_newlines_go s' (S run)
      else c :: sub_newlines_go s' O
  end.

Definition sub_newlines (s : pystr) : pystr := sub_newlines_go s O.

(** The body of the outer [try] of [clean_description]. *)
Definition clean_description_body (raw_description : pystr) : result pystr :=
  let description := raw_description in
  (* Handle JSON-escaped unicode sequences first *)
  description ←
    try_except (unicode_escape_decode description)
      (fun e => is_UnicodeDecodeError e || is_UnicodeEncodeError e)
      (fun _ => Ok description);
  (* Handle common escape sequences *)
  let description := replace [92; 110] [10] description in
  let description := replace [92; 114] [13] description in
  let description := replace [92; 116] [9] description in
  let description := replace [92; 34] [34] description in
  let description := replace [92; 39] [39] description in
  let description := replace [92; 92] [92] description in
  (* Try to fix garbled Unicode characters *)
  description ←
    try_except
      (if has_char 240 description || existsb (fun c => 255 <? c) description
       then b ← latin1_encode description; utf8_decode b
       else Ok description)
      (fun e => is_UnicodeDecodeError e || is_UnicodeEncodeError e
                || is_AttributeError e)
      (fun _ =>
         try_except (utf8_decode (utf8_encode_ignore description))
           (fun e => is_UnicodeDecodeError e || is_UnicodeEncodeError e)
           (fun _ => Ok (List.filter (fun c => c <? 128) description)));
  (* Clean up whitespace while preserving intentional formatting *)
  let lines := split [NL] description in
  let cleaned_lines := strip <$> lines in
  let description := join [NL] cleaned_lines in
  (* Remove excessive consecutive newlines (more than 2) *)
  let description := sub_newlines description in
  (* Final cleanup - ensure it's valid UTF-8 *)
  description ←
    try_except (b ← utf8_encode description; utf8_decode b)
      is_UnicodeError
      (fun _ => utf8_decode (utf8_encode_replace description));
  (* Trim if too long *)
  let description :=
    if (2000 <? length description)%nat
    then take 2000 description ++ py "..."
    else description in
  Ok (strip description).

(** [clean_description]: the outer handler turns any exception of the
    body into a diagnostic text. *)
Definition clean_description (raw_description : pystr) : pystr :=
  match clean_description_body raw_description with
  | Ok description => description
  | Raise e => py "Error cleaning description: " ++ exn_text e
  end.

End Normalizer.

(** ** [urllib.parse] *)

Module Urllib.
Section Urllib.
Context {RT : PyRuntime}.

(** [s.lower()]: ASCII letters are mapped here, other characters by the
    runtime's Unicode tables. *)
Definition lower (s : pystr) : pystr :=
  concat (imap (fun i c =>
                  if isascii c
                  then [if is_upper_ascii c then c + 32 else c]
                  else unicode_lower s i) s).

(** [url.lstrip(_WHATWG_C0_CONTROL_OR_SPACE)] *)
Fixpoint lstrip_c0 (s : pystr) : pystr :=
  match s with
  | [] => []
  | c :: s' => if c <=? 32 then lstrip_c0 s' else s
  end.

(** The characters of [_UNSAFE_URL_BYTES_TO_REMOVE] are taken out. *)
Definition remove_unsafe (s : pystr) : pystr :=
  List.filter (fun c => negb ((c =? 9) || (c =? 13) || (c =? 10))) s.

(** [c in scheme_chars] *)
Definition is_scheme_char (c : N) : bool :=
  is_lower_ascii c || is_upper_ascii c || is_digit c
  || (c =? 43) || (c =? 45) || (c =? 46).

(** [s.split(sep, 1)] when [sep] occurs in [s] *)
Definition split_once (sep : N) (s : pystr) : pystr * pystr :=
  let '(a, _, b) := partition sep s in (a, b).

(** The scheme, when the text before the first colon is one. *)
Definition split_scheme (url : pystr) : pystr * pystr :=
  let '(before, found, after) := partition 58 url in
  match before with
  | c0 :: _ =>
      if found && (is_lower_ascii c0 || is_upper_ascii c0)
         && forallb is_scheme_char before
      then (lower before, after)
      else ([], url)
  | [] => ([], url)
  end.

(** [_splitnetloc(url, 2)]: the network location ends at the first of
    [/], [?] and [#]. *)
Fixpoint splitnetloc_go (s : pystr) : pystr * pystr :=
  match s with
  | [] => ([], [])
  | c :: s' =>
      if (c =? 47) || (c =? 63) || (c =? 35) then ([], s)
      else let '(a, b) := splitnetloc_go s' in (c :: a, b)
  end.

Definition splitnetloc (url : pystr) : pystr * pystr :=
  splitnetloc_go (drop 2 url).

(** [_check_bracketed_netloc] *)
Definition check_bracketed_netloc (netloc : pystr) : result unit :=
  let hostname_and_port := after_last 64 netloc in
  let '(before_bracket, have_open_br, bracketed) :=
    partition 91 hostname_and_port in
  hostname ←
    (if have_open_br then
       if negb (str_eqb before_bracket []) then Raise ValueError
       else
         let '(hostname, _, port) := partition 93 bracketed in
         if negb (str_eqb port []) && negb (startswith [58] port)
         then Raise ValueError
         else Ok hostname
     else
       let '(hostname, _, _) := partition 58 hostname_and_port in
       Ok hostname);
  if bracketed_host_ok hostname then Ok tt else Raise ValueError.

(** [_checknetloc] *)
Definition checknetloc (netloc : pystr) : result unit :=
  if str_eqb netloc [] || forallb isascii netloc then Ok tt
  else if netloc_nfkc_ok netloc then Ok tt
  else Raise ValueError.

Record SplitResult := {
  sr_scheme : pystr;
  sr_netloc : pystr;
  sr_path : pystr;
  sr_query : pystr;
  sr_fragment : pystr
}.

(** [urlsplit(url)] *)
Definition urlsplit (url : pystr) : result SplitResult :=
  let url := lstrip_c0 url in
  let url := remove_unsafe url in
  let '(scheme, url) := split_scheme url in
  '(netloc, url) ←
    (if str_eqb (take 2 url) [47; 47] then
       let '(netloc, url) := splitnetloc url in
       if (has_char 91 netloc && negb (has_char 93 netloc))
          || (has_char 93 netloc && negb (has_char 91 netloc))
       then Raise ValueError
       else
         _ ← (if has_char 91 netloc && has_char 93 netloc
              then check_bracketed_netloc netloc else Ok tt);
         Ok (netloc, url)
     else Ok ([], url));
  let '(url, fragment) :=
    if has_char 35 url then split_once 35 url else (url, []) in
  let '(url, query) :=
    if has_char 63 url then split_once 63 url else (url, []) in
  _ ← checknetloc netloc;
  Ok {| sr_scheme := scheme; sr_netloc := netloc; sr_path := url;
        sr_query := query; sr_fragment := fragment |}.

(** [scheme in uses_params] *)
Definition uses_params (scheme : pystr) : bool :=
  bool_decide (scheme ∈ py <$>
    [""; "ftp"; "hdl"; "prospero"; "http"; "imap"; "https"; "shttp";
     "rtsp"; "rtspu"; "sip"; "sips"; "mms"; "sftp"; "tel"]%string).

(** [_splitparams(url)[0]]: the path without the parameters of its last
    segment. *)
Definition splitparams_path (url : pystr) : pystr :=
  if has_char 47 url then
    let last_segment := after_last 47 url in
    let before := take (length url - length last_segment) url in
    if has_char 59 last_segment
    then before ++ fst (split_once 59 last_segment)
    else url
  else fst (split_once 59 url).

(** What [get_video_id_from_url] reads of a [ParseResult]. *)
Record ParseResult := {
  netloc : pystr;
  path : pystr;
  query : pystr
}.

(** [urlparse(url)] *)
Definition urlparse (url : pystr) : result ParseResult :=
  sr ← urlsplit url;
  let url := sr_path sr in
  let url :=
    if uses_params (sr_scheme sr) && has_char 59 url
    then splitparams_path url else url in
  Ok {| netloc := sr_netloc sr; path := url; query := sr_query sr |}.

(** The [hostname] property; [None] is Python's [None]. *)
Definition hostname (parsed : ParseResult) : option pystr :=
  let hostinfo := after_last 64 (netloc parsed) in
  let '(_, have_open_br, bracketed) := partition 91 hostinfo in
  let hostname :=
    if have_open_br then (partition 93 bracketed).1.1
    else (partition 58 hostinfo).1.1 in
  if str_eqb hostname [] then None
  else
    let '(hostname, percent, zone) := partition 37 hostname in
    Some (lower hostname ++ (if percent then [37] else []) ++ zone).

(** [unquote_to_bytes] on ASCII text. *)
Fixpoint unquote_to_bytes (s : list N) : list N :=
  match s with
  | [] => []
  | c :: r =>
      if c =? 37 then
        match r with
        | h1 :: h2 :: r' =>
            match Codecs.hex_digit h1, Codecs.hex_digit h2 with
            | Some a, Some b => (16 * a + b) :: unquote_to_bytes r'
            | _, _ => c :: unquote_to_bytes r
            end
        | _ => c :: unquote_to_bytes r
        end
      else c :: unquote_to_bytes r
  end.

(** The loop of [unquote]: every maximal run of ASCII characters is
    percent-decoded to bytes and those are decoded as UTF-8; [run] is the
    current run, reversed. *)
Definition unquote_run (run : pystr) : pystr :=
  match run with
  | [] => []
  | _ :: _ => utf8_decode_replace (unquote_to_bytes (rev run))
  end.

Fixpoint unquote_go (s run : pystr) : pystr :=
  match s with
  | [] => unquote_run run
  | c :: s' =>
      if isascii c then unquote_go s' (c :: run)
      else unquote_run run ++ c :: unquote_go s' []
  end.

(** [unquote(s)] *)
Definition unquote (s : pystr) : pystr :=
  if negb (has_char 37 s) then s else unquote_go s [].

(** [parse_qsl(qs)] with the default arguments: blank values are left
    out and a field without [=] is skipped. *)
Definition parse_qsl (qs : pystr) : list (pystr * pystr) :=
  let query_args := if str_eqb qs [] then [] else split [38] qs in
  omap (fun name_value =>
          if str_eqb name_value [] then None
          else
            let '(name, has_eq, value) := partition 61 name_value in
            if has_eq && negb (str_eqb value [])
            then Some (unquote (replace [43] [32] name),
                       unquote (replace [43] [32] value))
            else None) query_args.

(** [parse_qs(qs)]: the values of every name, in order. *)
Definition parse_qs (qs : pystr) : gmap pystr (list pystr) :=
  foldl (fun parsed_result '(name, value) =>
           match parsed_result !! name with
           | Some values => <[name := values ++ [value]]> parsed_result
           | None => <[name := [value]]> parsed_result
           end) ∅ (parse_qsl qs).

End Urllib.
End Urllib.

(** ** The identifier parser *)

Section VideoId.
Context {RT : PyRuntime}.
Import Urllib.

(** [l[i]] *)
Definition index {A} (l : list A) (i : nat) : result A :=
  match l !! i with
  | Some x => Ok x
  | None => Raise IndexError
  end.

(** The last step of the parser, [if video_id: ...]: an identifier that
    is neither [None] nor empty is cut at its first [&] and then at its
    first [?]. *)
Definition clean_video_id (video_id : option pystr) : result (option pystr) :=
  match video_id with
  | Some (c :: id) =>
      a ← index (split (py "&") (c :: id)) 0;
      b ← index (split (py "?") a) 0;
      Ok (Some b)
  | _ => Ok video_id
  end.

(** The body of the [try] of [get_video_id_from_url]; [None] is Python's
    [None]. *)
Definition get_video_id_from_url_body (video_url : pystr)
    : result (option pystr) :=
  parsed ← urlparse video_url;
  video_id ←
    (if bool_decide (hostname parsed ∈ [Some (py "youtu.be")]) then
       Ok (Some (drop 1 (path parsed)))
     else if bool_decide (hostname parsed ∈
                [Some (py "www.youtube.com"); Some (py "youtube.com")]) then
       if contains (py "/watch") (path parsed) then
         let qs := parse_qs (query parsed) in
         match qs !! py "v" with
         | Some values => v ← index values 0; Ok (Some v)
         | None => Ok None
         end
       else if contains (py "/embed/") (path parsed) then
         a ← index (split (py "/embed/") (path parsed)) 1;
         b ← index (split (py "?") a) 0;
         Ok (Some b)
       else if contains (py "/v/") (path parsed) then
         a ← index (split (py "/v/") (path parsed)) 1;
         b ← index (split (py "?") a) 0;
         Ok (Some b)
       else Ok None
     else Ok None);
  (* Clean video ID (remove any extra parameters) *)
  clean_video_id video_id.

Definition get_video_id_from_url (video_url : pystr) : option pystr :=
  match get_video_id_from_url_body video_url with
  | Ok video_id => video_id
  | Raise _ => None
  end.

End VideoId.

(** ** Fetching pages: state and exceptions

    A computation that talks to the network takes the state of the world
    and leaves a new one, also when it raises. *)

Definition io (World A : Type) : Type := World -> result A * World.

Section IO.
Context {World : Type}.

Definition io_ret {A} (a : A) : io World A := fun w => (Ok a, w).

Definition io_raise {A} (e : exn) : io World A := fun w => (Raise e, w).

Definition io_bind {A B} (m : io World A) (k : A -> io World B) : io World B :=
  fun w =>
    match m w with
    | (Ok a, w') => k a w'
    | (Raise e, w') => (Raise e, w')
    end.

(** A pure step that may raise. *)
Definition io_lift {A} (r : result A) : io World A := fun w => (r, w).

(** [try: body / except (classes): handler] *)
Definition io_try {A} (body : io World A) (catches : exn -> bool)
    (handler : exn -> io World A) : io World A :=
  fun w =>
    match body w with
    | (Ok a, w') => (Ok a, w')
    | (Raise e, w') => if catches e then handler e w' else (Raise e, w')
    end.

End IO.

Global Instance io_mret {World} : MRet (io World) := fun _ a => io_ret a.
Global Instance io_mbind {World} : MBind (io World) := fun _ _ k m => io_bind m k.

(** An HTTP response: the status, the decoded body, and what
    [response.json()] followed by [data.get('title', ...)] gives: it raises
    when the body is not a JSON object, and is [None] when the object has
    no title; the title of the oEmbed endpoint is a JSON string. *)
Record response := {
  status_code : N;
  text : pystr;
  json_title : result (option pystr)
}.

Class Network (World : Type) : Type := {
  (** [requests.get(url, headers=headers, timeout=...)] *)
  requests_get : pystr -> list (string * string) -> io World response;
  (** [time.sleep(random.uniform(a, b))], the bounds in tenths of a second *)
  sleep_uniform : N -> N -> World -> World
}.

Section Http.
Context {World : Type} {NET : Network World}.

Definition sleep (a b : N) : io World unit :=
  fun w => (Ok tt, sleep_uniform a b w).

(** [response.raise_for_status()] *)
Definition raise_for_status (r : response) : io World unit :=
  if (400 <=? status_code r) && (status_code r <? 600)
  then io_raise HTTPError else io_ret tt.

End Http.

(** ** The tag extractor *)

Section Tags.
Context {World : Type} {NET : Network World}.

Definition DQUOTE : N := 34.

(** The lazy group and the closing bracket of a tag pattern: the shortest
    run of characters other than a newline that a [']'] follows. *)
Fixpoint array_body (s : pystr) : option pystr :=
  match s with
  | [] => None
  | c :: s' =>
      if c =? 93 then Some []
      else if c =? NL then None
      else cons c <$> array_body s'
  end.

(** A match of the pattern [KEY:\s*\[(.*?)\]] at the start of [s], where
    [KEY] is [key] in double quotes; white space is [str.isspace]. *)
Definition match_tag_array (key s : pystr) : option pystr :=
  let prefix := [DQUOTE] ++ key ++ [DQUOTE; 58] in
  if startswith prefix s then
    match lstrip (drop (length prefix) s) with
    | 91 :: body => array_body body
    | _ => None
    end
  else None.

(** [re.search] of that pattern: group 1 of the leftmost match. *)
Fixpoint search_tag_array (key s : pystr) : option pystr :=
  match match_tag_array key s with
  | Some g => Some g
  | None =>
      match s with
      | [] => None
      | _ :: s' => search_tag_array key s'
      end
  end.

(** [re.findall] of the pattern for one quoted string: the texts between
    the first and second double quote, the third and fourth, and so on;
    [cur] is the text since an opening quote, reversed. *)
Fixpoint findall_quoted (s : pystr) (cur : option pystr) : list pystr :=
  match s with
  | [] => []
  | c :: s' =>
      match cur with
      | None =>
          if c =? DQUOTE then findall_quoted s' (Some [])
          else findall_quoted s' None
      | Some acc =>
          if c =? DQUOTE then rev acc :: findall_quoted s' None
          else findall_quoted s' (Some (c :: acc))
      end
  end.

Definition tag_patterns : list pystr :=
  [py "keywords"; py "tags"; py "hashtags"].

(** The first loop: the tags of every pattern that matches. *)
Fixpoint collect_tags (patterns : list pystr) (text : pystr) : list pystr :=
  match patterns with
  | [] => []
  | pattern :: patterns' =>
      match search_tag_array pattern text with
      | Some keywords_str =>
          findall_quoted keywords_str None ++ collect_tags patterns' text
      | None => collect_tags patterns' text
      end
  end.

(** The second loop: remove duplicates while preserving order. *)
Fixpoint unique_loop (all_tags : list pystr) (seen : gset pystr)
    (unique_tags : list pystr) : list pystr :=
  match all_tags with
  | [] => unique_tags
  | tag :: all_tags' =>
      if bool_decide (tag ∉ seen) && (0 <? length (strip tag))%nat
      then unique_loop all_tags' ({[tag]} ∪ seen) (unique_tags ++ [strip tag])
      else unique_loop all_tags' seen unique_tags
  end.

(** What [get_youtube_tags] makes of the text of the page. *)
Definition tags_of_page (page : pystr) : list pystr :=
  let all_tags := collect_tags tag_patterns page in
  let unique_tags := unique_loop all_tags ∅ [] in
  take 20 unique_tags.

Definition tags_headers : list (string * string) :=
  [("User-Agent",
    "Mozilla/5.0 (Windows NT 10.0; Win64; x64) AppleWebKit/537.36 (KHTML, like Gecko) Chrome/120.0.0.0 Safari/537.36")]%string.

Definition get_youtube_tags_body (video_url : pystr) : io World (list pystr) :=
  _ ← sleep 5 15;
  response ← requests_get video_url tags_headers;
  _ ← raise_for_status response;
  mret (tags_of_page (text response)).

Definition get_youtube_tags (video_url : pystr) (w : World)
    : list pystr * World :=
  match get_youtube_tags_body video_url w with
  | (Ok tags, w') => (tags, w')
  | (Raise _, w') => ([], w')
  end.

End Tags.

(** ** The extraction strategies *)

(** The dictionary with the keys ['title'] and ['description']. *)
Record info := {
  title : pystr;
  description : pystr
}.

Definition Title_not_found : pystr := py "Title not found".
Definition Description_not_found : pystr := py "Description not found".
Definition Error : pystr := py "Error".

Section Strategies.
Context {World : Type} {NET : Network World} {RT : PyRuntime}.

(** A double quote, as a one-character string. *)
Definition Q : pystr := [DQUOTE].

(** The tail of the patterns for a JSON string: its text, with escaped
    characters, up to a double quote that no backslash precedes. *)
Definition json_string_tail : pystr :=
  py "((?:[^" ++ Q ++ py "\\]|\\.)*)(?<!\\)" ++ Q.

Definition og_pattern (property : string) : pystr :=
  py "<meta property=" ++ Q ++ py property ++ Q ++ py " content="
     ++ Q ++ py "([^" ++ Q ++ py "]*)" ++ Q.

Definition shortDescription_pattern : pystr :=
  Q ++ py "shortDescription" ++ Q ++ py ":" ++ Q ++ json_string_tail.

Definition method1_title_patterns : list pystr :=
  [ Q ++ py "videoDetails" ++ Q ++ py ":\s*{[^}]*?" ++ Q ++ py "title" ++ Q
      ++ py ":" ++ Q ++ json_string_tail;
    py "<title[^>]*>([^<]+?)\s*-\s*YouTube</title>";
    og_pattern "og:title";
    Q ++ py "title" ++ Q ++ py ":" ++ Q ++ py "((?:[^" ++ Q
      ++ py "\\]|\\.)*?)(?<!\\)" ++ Q ++ py "[^}]*?" ++ Q
      ++ py "lengthSeconds" ++ Q ].

Definition method1_desc_patterns : list pystr :=
  [ Q ++ py "videoDetails" ++ Q ++ py ":\s*{[^}]*?" ++ shortDescription_pattern;
    shortDescription_pattern;
    og_pattern "og:description";
    Q ++ py "description" ++ Q ++ py ":\s*{" ++ Q ++ py "simpleText" ++ Q
      ++ py ":" ++ Q ++ json_string_tail ++ py "}" ].

Definition title_tag_pattern : pystr := py "<title[^>]*>([^<]+)</title>".

Definition quoted_field_pattern (field : string) : pystr :=
  Q ++ py field ++ Q ++ py ":" ++ Q ++ py "([^" ++ Q ++ py "]*)" ++ Q.

Definition method2_title_patterns : list pystr :=
  [ title_tag_pattern; quoted_field_pattern "title"; og_pattern "og:title" ].

Definition method2_desc_patterns : list pystr :=
  [ og_pattern "og:description";
    quoted_field_pattern "description";
    py "<meta name=" ++ Q ++ py "description" ++ Q ++ py " content="
      ++ Q ++ py "([^" ++ Q ++ py "]*)" ++ Q ].

(** The loop over the patterns of one field: the field is set from every
    pattern that matches, and the loop ends at the first one whose
    cleaned text is not blank.  [prepare] is what is done to the matched
    text before it is cleaned; [value] is the field so far. *)
Fixpoint pattern_loop (prepare : pystr -> pystr) (dotall : bool)
    (content : pystr) (patterns : list pystr) (value : pystr) : pystr :=
  match patterns with
  | [] => value
  | pattern :: patterns' =>
      match re_search pattern dotall content with
      | Some group1 =>
          let value := clean_description (prepare group1) in
          if (0 <? length (strip value))%nat then value
          else pattern_loop prepare dotall content patterns' value
      | None => pattern_loop prepare dotall content patterns' value
      end
  end.

Definition method1_headers : list (string * string) :=
  [("User-Agent",
    "Mozilla/5.0 (Windows NT 10.0; Win64; x64) AppleWebKit/537.36 (KHTML, like Gecko) Chrome/120.0.0.0 Safari/537.36");
   ("Accept", "text/html,application/xhtml+xml,application/xml;q=0.9,*/*;q=0.8");
   ("Accept-Language", "en-US,en;q=0.5");
   ("Accept-Encoding", "gzip, deflate");
   ("Connection", "keep-alive");
   ("DNT", "1")]%string.

(** Method 1: standard web scraping with enhanced patterns. *)
Definition get_youtube_info_method1 (url : pystr) : io World info :=
  _ ← sleep 5 20;
  response ← requests_get url method1_headers;
  _ ← raise_for_status response;
  let content := text response in
  (* Check for blocking *)
  if contains (py "unusual traffic") (Urllib.lower content)
     || (length content <? 1000)%nat
  then io_raise (PlainException (py "Request appears to be blocked"))
  else
    let title :=
      pattern_loop id true content method1_title_patterns Title_not_found in
    let description :=
      pattern_loop id true content method1_desc_patterns
        Description_not_found in
    mret {| title := title; description := description |}.

Definition strip_youtube_suffix (raw_title : pystr) : pystr :=
  replace (py " - YouTube") [] raw_title.

Definition method2_headers : list (string * string) :=
  [("User-Agent",
    "Mozilla/5.0 (iPhone; CPU iPhone OS 16_0 like Mac OS X) AppleWebKit/605.1.15 (KHTML, like Gecko) Version/16.0 Mobile/15E148 Safari/604.1")]%string.

(** Method 2: the mobile site. *)
Definition get_youtube_info_method2 (url : pystr) : io World info :=
  _ ← sleep 5 20;
  let mobile_url := replace (py "www.youtube.com") (py "m.youtube.com") url in
  response ← requests_get mobile_url method2_headers;
  _ ← raise_for_status response;
  let content := text response in
  let title :=
    pattern_loop strip_youtube_suffix false content method2_title_patterns
      Title_not_found in
  let description :=
    pattern_loop id false content method2_desc_patterns
      Description_not_found in
  mret {| title := title; description := description |}.

Definition method3_headers : list (string * string) :=
  [("User-Agent", "Mozilla/5.0 (compatible; YTInfoExtractor/1.0)")]%string.

Definition simple_headers : list (string * string) :=
  [("User-Agent", "curl/7.68.0")]%string.

(** The inner [try] of method 3, the oEmbed endpoint: [Some] is the
    dictionary it returns, [None] is falling out of the [if]. *)
Definition method3_oembed (url : pystr) : io World (option info) :=
  let oembed_url :=
    py "https://www.youtube.com/oembed?url=" ++ url ++ py "&format=json" in
  response ← requests_get oembed_url method3_headers;
  if status_code response =? 200 then
    data_title ← io_lift (json_title response);
    let title := default Title_not_found data_title in
    (* oEmbed doesn't provide description, so get it from main page *)
    main_response ← requests_get url method3_headers;
    let description :=
      match re_search shortDescription_pattern false (text main_response) with
      | Some group1 => clean_description group1
      | None => Description_not_found
      end in
    mret (Some {| title := title; description := description |})
  else mret None.

(** The fallback of method 3: a simple extraction with minimal headers. *)
Definition method3_simple (url : pystr) : io World info :=
  response ← requests_get url simple_headers;
  let content := text response in
  let title :=
    match re_search title_tag_pattern false content with
    | Some group1 => clean_description (strip_youtube_suffix group1)
    | None => Title_not_found
    end in
  let description :=
    match re_search (og_pattern "og:description") false content with
    | Some group1 => clean_description group1
    | None => Description_not_found
    end in
  mret {| title := title; description := description |}.

(** Method 3: an alternative approach using different endpoints. *)
Definition get_youtube_info_method3 (url : pystr) : io World info :=
  io_try
    (let video_id := get_video_id_from_url url in
     match video_id with
     | Some (_ :: _) =>
         _ ← sleep 5 20;
         returned ← io_try (method3_oembed url) any_Exception
                      (fun _ => mret None);
         match returned with
         | Some result => mret result
         | None => method3_simple url
         end
     | _ => io_raise (PlainException (py "Could not extract video ID"))
     end)
    any_Exception
    (fun _ => mret {| title := Title_not_found;
                      description := Description_not_found |}).

End Strategies.

(** ** The orchestrator *)

Section Orchestrator.
Context {World : Type}.

(** [result['title'] not in ['Title not found', 'Error']] *)
Definition title_found (result : info) : bool :=
  bool_decide (title result ∉ [Title_not_found; Error]).

(** [result['description'] not in ['Description not found', 'Error']] *)
Definition description_found (result : info) : bool :=
  bool_decide (description result ∉ [Description_not_found; Error]).

(** The inner loop, over [methods[i+1:]]: keep trying for a description;
    [result] is the partial success. *)
Fixpoint keep_trying (result : info) (methods : list (io World info))
    : io World info :=
  match methods with
  | [] => mret result
  | method2 :: methods' =>
      found ←
        io_try
          (result2 ← method2;
           if description_found result2
           then mret (Some {| title := title result;
                              description := description result2 |})
           else mret None)
          any_Exception
          (fun _ => mret None);
      match found with
      | Some merged => mret merged
      | None => keep_trying result methods'
      end
  end.

Definition All_methods_failed : info :=
  {| title := py "All extraction methods failed";
     description := py "Could not extract video information" |}.

(** The outer loop; [Some] is a [return] in the body of the [try],
    [None] is going on with the next method. *)
Fixpoint try_methods (methods : list (io World info)) : io World info :=
  match methods with
  | [] =>
      (* If all methods fail, return error *)
      mret All_methods_failed
  | method :: methods' =>
      returned ←
        io_try
          (result ← method;
           if title_found result && description_found result
           then mret (Some result)
           else if title_found result
           then merged ← keep_trying result methods'; mret (Some merged)
           else mret None)
          any_Exception
          (fun _ => mret None);
      match returned with
      | Some result => mret result
      | None => try_methods methods'
      end
  end.

End Orchestrator.

Section GetYoutubeInfo.
Context {World : Type} {NET : Network World} {RT : PyRuntime}.

(** The orchestrator over a list of methods: the handler of the outer
    [try] reports an exception of the loop in both fields. *)
Definition get_youtube_info_of (methods : list (io World info)) (w : World)
    : info * World :=
  match try_methods methods w with
  | (Ok result, w') => (result, w')
  | (Raise e, w') =>
      ({| title := py "Error: " ++ exn_text e;
          description := py "Error: " ++ exn_text e |}, w')
  end.

(** [get_youtube_info(url)]: try multiple approaches in order. *)
Definition get_youtube_info (url : pystr) (w : World) : info * World :=
  get_youtube_info_of
    [ get_youtube_info_method1 url;
      get_youtube_info_method2 url;
      get_youtube_info_method3 url ] w.

End GetYoutubeInfo.

(** ** Vocabulary of the properties *)

Section Outcomes.
Context {World : Type}.

(** The invocation raised. *)
Definition raised (o : result info) : bool :=
  match o with Raise _ => true | Ok _ => false end.

(** The invocation gave no usable title: it raised, or its title is one of
    the sentinels. *)
Definition no_title (o : result info) : bool :=
  match o with Raise _ => true | Ok r => negb (title_found r) end.

(** The invocation gave no usable description. *)
Definition no_description (o : result info) : bool :=
  match o with Raise _ => true | Ok r => negb (description_found r) end.

(** The methods of [methods] are invoked in turn from the world [w] and
    every invocation has an outcome that [skip] accepts: the world they
    leave. *)
Fixpoint passes (skip : result info -> bool) (methods : list (io World info))
    (w : World) : option World :=
  match methods with
  | [] => Some w
  | method :: methods' =>
      let '(o, w') := method w in
      if skip o then passes skip methods' w' else None
  end.

(** A method that also writes its index to a log of invocations, kept
    next to the world. *)
Definition logged {A} (i : nat) (method : io World A)
    : io (World * list nat) A :=
  fun '(w, log) => let '(o, w') := method w in (o, (w', log ++ [i])).

(** The methods of a list, logged under their indices from [start] on. *)
Fixpoint log_calls {A} (start : nat) (methods : list (io World A))
    : list (io (World * list nat) A) :=
  match methods with
  | [] => []
  | method :: methods' => logged start method :: log_calls (S start) methods'
  end.

End Outcomes.

(** ** A small runtime and network, for examples

    The runtime knows no character names, leaves non-ASCII characters as
    they are when lowering, accepts every network location, decodes bytes
    as Latin-1 and finds no pattern; the examples that use it search only
    the empty text.  The world of the network is the list of the URLs
    requested so far. *)

Definition example_exn_text (e : exn) : pystr :=
  match e with
  | PlainException msg => msg
  | UnicodeDecodeError => py "UnicodeDecodeError"
  | UnicodeEncodeError => py "UnicodeEncodeError"
  | AttributeError => py "AttributeError"
  | ValueError => py "ValueError"
  | IndexError => py "IndexError"
  | RequestException => py "RequestException"
  | HTTPError => py "HTTPError"
  | JSONDecodeError => py "JSONDecodeError"
  end.

Definition example_runtime : PyRuntime.
Proof.
  refine {| unicodedata_lookup := fun _ => None;
            exn_text := example_exn_text;
            unicode_lower := fun s i => match s !! i with Some c => [c] | None => [] end;
            netloc_nfkc_ok := fun _ => true;
            bracketed_host_ok := fun _ => true;
            utf8_decode_replace := fun b => b;
            re_search := fun _ _ _ => None |}.
  intros name c Hc; discriminate Hc.
Defined.

(** A method with a fixed outcome, which counts its invocation. *)
Definition fixed_method (o : result info) : io nat info :=
  fun w => (o, S w).

(** A network that serves [pages]: the world is the list of the URLs
    requested so far, and waiting leaves it as it is. *)
Definition example_network (pages : pystr -> result response)
    : Network (list pystr) :=
  {| requests_get := fun url _ w => (pages url, w ++ [url]);
     sleep_uniform := fun _ _ w => w |}.

(** A page whose keywords hold a tag twice, once after a space. *)
Definition page_with_spaced_tag : pystr :=
  [DQUOTE] ++ py "keywords" ++ [DQUOTE] ++ py ":["
    ++ [DQUOTE] ++ py "music" ++ [DQUOTE] ++ py ","
    ++ [DQUOTE] ++ py " music" ++ [DQUOTE] ++ py "]".

(** A text with the corrupted lead character and a truncated escape. *)
Definition garbled_text : pystr := [240] ++ py "caf\x".

(** The pages of a site whose oEmbed endpoint answers with a title that
    begins with a space, and whose other pages are empty. *)
Definition spaced_title_pages (url : pystr) : result response :=
  if contains (py "/oembed?") url
  then Ok {| status_code := 200; text := [];
             json_title := Ok (Some (py " Spaced title")) |}
  else Ok {| status_code := 200; text := [];
             json_title := Raise JSONDecodeError |}.

(** An already-clean text of 2500 characters: fifty lines of forty-nine
    letters. *)
Definition long_clean_text : pystr :=
  join [NL] (replicate 50 (replicate 49 97)).

(** A decoded text with an emoji and an accented letter, and one with the
    accented letter only. *)
Definition emoji_text : pystr := [0x1F600] ++ py " caf" ++ [233].
Definition accent_text : pystr := py "caf" ++ [233].

(** A text of escapes, blank lines and stray white space. *)
Definition untidy_text : pystr :=
  py "  first\n\n\n\n\n second \t\\n\\n\\n\\nthird  ".

(** A text of spaces, tabs and newlines. *)
Definition blank_text : pystr := py "   " ++ [NL; 9; NL; NL; NL; 32].

(** A page whose keywords and tags share a tag, all of them trimmed. *)
Definition page_with_plain_tags : pystr :=
  [DQUOTE] ++ py "keywords" ++ [DQUOTE] ++ py ": ["
    ++ [DQUOTE] ++ py "music" ++ [DQUOTE] ++ py ","
    ++ [DQUOTE] ++ py "live" ++ [DQUOTE] ++ py ","
    ++ [DQUOTE] ++ py "music" ++ [DQUOTE] ++ py "],"
    ++ [DQUOTE] ++ py "tags" ++ [DQUOTE] ++ py ":["
    ++ [DQUOTE] ++ py "live" ++ [DQUOTE] ++ py ","
    ++ [DQUOTE] ++ py "rock" ++ [DQUOTE] ++ py "]".

(** A site that answers every request with the status 404 and that page. *)
Definition missing_pages (url : pystr) : result response :=
  Ok {| status_code := 404; text := page_with_plain_tags;
        json_title := Raise JSONDecodeError |}.

(** A runtime like the one above whose search finds the whole text, for
    every pattern. *)
Definition whole_text_runtime : PyRuntime.
Proof.
  refine {| unicodedata_lookup := fun _ => None;
            exn_text := example_exn_text;
            unicode_lower := fun s i => match s !! i with Some c => [c] | None => [] end;
            netloc_nfkc_ok := fun _ => true;
            bracketed_host_ok := fun _ => true;
            utf8_decode_replace := fun b => b;
            re_search := fun _ _ content => Some content |}.
  intros name c Hc; discriminate Hc.
Defined.

(** A URL without a video identifier. *)
Definition other_site_url : pystr := py "https://example.com/video".

(** ** Vocabulary of the identifier parser *)

(** The text of [s] before the first occurrence of [sep]. *)
Fixpoint before_first (sep s : pystr) : pystr :=
  match s with
  | [] => []
  | c :: s' => if startswith sep s then [] else c :: before_first sep s'
  end.

(** The text of [s] after the first occurrence of [sep]. *)
Fixpoint after_first (sep s : pystr) : pystr :=
  match s with
  | [] => []
  | _ :: s' => if startswith sep s then drop (length sep) s else after_first sep s'
  end.

(** The segment after a marker: what follows its first occurrence, up to
    its next one. *)
Definition segment_after (marker s : pystr) : pystr :=
  before_first marker (after_first marker s).

(** The text of [s] before its first character that [stop] accepts. *)
Fixpoint before_any (stop : N -> bool) (s : pystr) : pystr :=
  match s with
  | [] => []
  | c :: s' => if stop c then [] else c :: before_any stop s'
  end.

Definition is_separator (c : N) : bool := (c =? 38) || (c =? 63).

(** An identifier without what follows a literal [&] or [?]. *)
Definition strip_after_separators (id : pystr) : pystr :=
  before_any is_separator id.

(** A text without its trailing query string. *)
Definition strip_query (s : pystr) : pystr :=
  before_any (fun c => c =? 63) s.

(** The hosts of the identifier parser. *)
Definition short_link_host (host : option pystr) : Prop :=
  host = Some (py "youtu.be").

Definition canonical_host (host : option pystr) : Prop :=
  host = Some (py "www.youtube.com") \/ host = Some (py "youtube.com").

(** ** Vocabulary of the normalizer *)

(** A Python [str] holds code points, and those end at U+10FFFF. *)
Definition is_code_point (c : N) : Prop := c <= 0x10FFFF.

Definition valid_str (s : pystr) : Prop := Forall is_code_point s.

(** A text that neither begins nor ends with white space. *)
Definition trimmed (s : pystr) : bool :=
  match s with
  | [] => true
  | c :: _ => negb (isspace c) && negb (isspace (List.last s 0))
  end.

(** Already-clean ASCII text: ASCII characters only, no backslash (so no
    escape sequence), every line and the text as a whole trimmed, and no
    three newlines in a row. *)
Definition already_clean (s : pystr) : bool :=
  forallb isascii s
  && negb (has_char BACKSLASH s)
  && forallb trimmed (split [NL] s)
  && trimmed s
  && negb (contains [NL; NL; NL] s).

(** A text that does not begin with white space. *)
Definition head_not_space (u : pystr) : Prop :=
  match u with [] => True | c :: _ => isspace c = false end.

(** The trimming of a long text: [description[:2000] + "..."]. *)
Definition truncated (s : pystr) : pystr :=
  if (2000 <? length s)%nat then take 2000 s ++ py "..." else s.

(** What a decoder gives: a string of code points, or its own error. *)
Definition decoded (r : result pystr) : Prop :=
  match r with
  | Ok s => valid_str s
  | Raise e => e = UnicodeDecodeError
  end.


(** ** Vocabulary of the strategies *)

Section StrategyVocabulary.
Context {World : Type} {NET : Network World} {RT : PyRuntime}.

(** [v] is the normalizer applied to the text that one of [patterns]
    matched in [content], after [prepare]. *)
Definition matched_in (prepare : pystr -> pystr) (dotall : bool)
    (patterns : list pystr) (content v : pystr) : Prop :=
  exists pattern group1,
    pattern ∈ patterns
    /\ re_search pattern dotall content = Some group1
    /\ v = clean_description (prepare group1).

(** The fields of a result of method 1, by the page that it fetched
    after its pause: each is its sentinel, or the normalizer applied to
    the text that one of its patterns matched in that page. *)
Definition method1_outcome (url : pystr) (w w' : World) (r : info) : Prop :=
  exists response,
    requests_get url method1_headers (sleep_uniform 5 20 w)
    = (Ok response, w')
    /\ (title r = Title_not_found
        \/ matched_in id true method1_title_patterns (text response)
             (title r))
    /\ (description r = Description_not_found
        \/ matched_in id true method1_desc_patterns (text response)
             (description r)).

(** The same for method 2 and the page of the mobile site; for each of
    its three title patterns the matched text loses [" - YouTube"]
    before it is normalized. *)
Definition method2_outcome (url : pystr) (w w' : World) (r : info) : Prop :=
  exists response,
    requests_get (replace (py "www.youtube.com") (py "m.youtube.com") url)
      method2_headers (sleep_uniform 5 20 w)
    = (Ok response, w')
    /\ (title r = Title_not_found
        \/ matched_in strip_youtube_suffix false method2_title_patterns
             (text response) (title r))
    /\ (description r = Description_not_found
        \/ matched_in id false method2_desc_patterns (text response)
             (description r)).

(** The primary path of method 3: the oEmbed endpoint answers the
    request made after the pause with the status 200 and a JSON object;
    the title is the title field of that object as the parser gave it,
    unchanged, or its sentinel when the object has none; the description
    is taken from the page fetched next. *)
Definition method3_primary (url : pystr) (w w' : World) (r : info) : Prop :=
  exists response w1 data_title main_response,
    requests_get
      (py "https://www.youtube.com/oembed?url=" ++ url ++ py "&format=json")
      method3_headers (sleep_uniform 5 20 w)
    = (Ok response, w1)
    /\ status_code response = 200
    /\ json_title response = Ok data_title
    /\ requests_get url method3_headers w1 = (Ok main_response, w')
    /\ title r = default Title_not_found data_title
    /\ (description r = Description_not_found
        \/ matched_in id false [shortDescription_pattern]
             (text main_response) (description r)).

(** The fallback of method 3: the oEmbed attempt gave no result, and
    the fields are taken from the page fetched after it. *)
Definition method3_fallback (url : pystr) (w w' : World) (r : info) : Prop :=
  let attempt := method3_oembed url (sleep_uniform 5 20 w) in
  (forall result, attempt.1 <> Ok (Some result))
  /\ exists response,
       requests_get url simple_headers attempt.2 = (Ok response, w')
       /\ (title r = Title_not_found
           \/ matched_in strip_youtube_suffix false [title_tag_pattern]
                (text response) (title r))
       /\ (description r = Description_not_found
           \/ matched_in id false [og_pattern "og:description"]
                (text response) (description r)).

(** The fields of a result of method 3: both sentinels, or those of its
    primary path, or those of its fallback. *)
Definition method3_outcome (url : pystr) (w w' : World) (r : info) : Prop :=
  (title r = Title_not_found /\ description r = Description_not_found)
  \/ method3_primary url w w' r
  \/ method3_fallback url w w' r.

End StrategyVocabulary.

(** ** Vocabulary of further properties *)

(** The white-space steps of the normalizer, after the escapes and the
    repair: every line stripped, runs of newlines shortened, the text
    trimmed to 2000 characters and stripped. *)
Definition lay_out (s : pystr) : pystr :=
  strip (truncated (sub_newlines (join [NL] (strip <$> split [NL] s)))).

(** The UTF-8 bytes of a text. *)
Definition utf8_bytes (s : pystr) : list N :=
  concat (Codecs.utf8_char <$> s).

(** A text made of ASCII white space only. *)
Definition blank (s : pystr) : Prop :=
  Forall (fun c => isspace c = true /\ isascii c = true) s.

(** A code point that is not a surrogate: what a decoded text holds. *)
Definition is_scalar (c : N) : Prop :=
  is_code_point c /\ Codecs.is_surrogate c = false.

(** A character whose UTF-8 form begins with the byte 0xF0, the code of
    the letter eth that the repair looks for: U+10000 to U+3FFFF. *)
Definition has_f0_lead (c : N) : bool := (0x10000 <=? c) && (c <? 0x40000).

(** What [errors='replace'] makes of a character when encoding. *)
Definition replace_surrogate (c : N) : N :=
  if Codecs.is_surrogate c then 63 else c.

(** The characters of a video identifier: letters, digits, [-] and [_]. *)
Definition is_id_char (c : N) : bool :=
  is_lower_ascii c || is_upper_ascii c || is_digit c || (c =? 45) || (c =? 95).

(** A video identifier: at least one character, all of that alphabet. *)
Definition is_video_id (id : pystr) : Prop :=
  id <> [] /\ forallb is_id_char id = true.

(** The elements of a list at their first occurrence. *)
Fixpoint dedup_first (l : list pystr) : list pystr :=
  match l with
  | [] => []
  | x :: l' => x :: List.filter (fun y => negb (str_eqb y x)) (dedup_first l')
  end.

(** The test of the second loop of [get_youtube_tags]: the tag was not
    seen before and is not blank. *)
Definition keeps (seen : gset pystr) (tag : pystr) : bool :=
  bool_decide (tag ∉ seen) && (0 <? length (strip tag))%nat.

(** The test of the second loop alone: the tag is not blank. *)
Definition not_blank (tag : pystr) : bool := (0 <? length (strip tag))%nat.

(** A character that a tag can hold: the array ends at the first closing
    bracket and holds no newline, and a tag ends at the next double quote. *)
Definition tag_char (c : N) : Prop := c <> 34 /\ c <> 93 /\ c <> NL.

(** ** Vocabulary of the strategies and of the orchestrator *)

Section PatternVocabulary.
Context {RT : PyRuntime}.

(** The cleaned texts of the patterns that match, in the order of the
    patterns. *)
Definition cleaned_matches (prepare : pystr -> pystr) (dotall : bool)
    (content : pystr) (patterns : list pystr) : list pystr :=
  omap (fun pattern =>
          (fun group1 => clean_description (prepare group1))
            <$> re_search pattern dotall content)
       patterns.

(** A page that method 1 refuses: an error status, the words of the
    blocking notice in any case, or fewer than 1000 characters. *)
Definition refused (r : response) : Prop :=
  (400 <= status_code r /\ status_code r < 600)
  \/ contains (py "unusual traffic") (Urllib.lower (text r)) = true
  \/ (length (text r) < 1000)%nat.

End PatternVocabulary.

(** The first text that is not blank; without one the last text, and
    without any text the default. *)
Definition first_usable (cleaned : list pystr) (value : pystr) : pystr :=
  match List.find not_blank cleaned with
  | Some v => v
  | None => List.last cleaned value
  end.

(** The pair of method 3 when it fails. *)
Definition nothing_found : info :=
  {| title := Title_not_found; description := Description_not_found |}.

(** ** The endpoints

    An endpoint is modelled from the value that [data.get('url')] gives,
    or from the identifier in the path, to the reply that the view
    returns.  The posted body is taken to be a JSON object whose [url] is
    a string, is [null] or is missing; reading it can raise.  Writing to
    the console, the [HEAD] requests and the temporary file belong to the
    world and can raise as well. *)

Module Api.

(** The dictionary of a successful extraction. *)
Record extraction := {
  title : pystr;
  description : pystr;
  tags : list pystr;
  thumbnail : option pystr;
  video_id : option pystr
}.

End Api.

(** What a view returns: [jsonify({'error': error}), status], [jsonify]
    of a result with the status 200, or the content of a response sent
    as a JPEG attachment under a name. *)
Inductive reply :=
| JsonError (error : pystr) (status : N)
| JsonResult (result : Api.extraction)
| Attachment (source : response) (download_name : pystr).

Class Server (World : Type) : Type := {
  (** [requests.head(url, timeout=5).status_code] *)
  requests_head : pystr -> io World N;
  (** [print(line)] *)
  print_line : pystr -> io World unit;
  (** The temporary file is created, the content of the response is
      written to it, it is closed, and [send_file] builds the reply. *)
  save_and_send : response -> pystr -> io World unit
}.

Section Endpoints.
Context {World : Type} {NET : Network World} {RT : PyRuntime}
  {SRV : Server World}.

(** A call of a function that does not raise. *)
Definition io_call {A} (f : World -> A * World) : io World A :=
  fun w => let '(a, w') := f w in (Ok a, w').

Definition thumbnail_urls_of (video_id : pystr) : list pystr :=
  [ py "https://img.youtube.com/vi/" ++ video_id ++ py "/maxresdefault.jpg";
    py "https://img.youtube.com/vi/" ++ video_id ++ py "/hqdefault.jpg";
    py "https://img.youtube.com/vi/" ++ video_id ++ py "/mqdefault.jpg";
    py "https://img.youtube.com/vi/" ++ video_id ++ py "/default.jpg" ].

(** Find working thumbnail URL: the loop leaves at the first answer with
    the status 200, and goes on after an exception. *)
Fixpoint find_thumbnail (thumbnail_urls : list pystr)
    : io World (option pystr) :=
  match thumbnail_urls with
  | [] => mret None
  | url :: thumbnail_urls' =>
      working ←
        io_try (A := bool)
          (status ← requests_head url; mret (status =? 200))
          any_Exception
          (fun _ => mret false);
      if working : bool then mret (Some url)
      else find_thumbnail thumbnail_urls'
  end.

(** [extract_video_info()], from what [data.get('url')] gives. *)
Definition extract_video_info (posted : result (option pystr))
    : io World reply :=
  io_try
    (video_url ← io_lift posted;
     match video_url with
     | None | Some [] => mret (JsonError (py "No URL provided") 400)
     | Some video_url =>
         if negb (contains (py "youtube.com") video_url
                  || contains (py "youtu.be") video_url)
         then mret (JsonError (py "Invalid YouTube URL") 400)
         else
           _ ← print_line (py "Extracting info for URL: " ++ video_url);
           (* Get video information *)
           info ← io_call (get_youtube_info video_url);
           tags ← io_call (get_youtube_tags video_url);
           (* Get video ID for thumbnail *)
           let video_id := get_video_id_from_url video_url in
           (* Build thumbnail URLs *)
           let thumbnail_urls :=
             match video_id with
             | Some (c :: id) => thumbnail_urls_of (c :: id)
             | _ => []
             end in
           thumbnail_url ← find_thumbnail thumbnail_urls;
           _ ← print_line (py "Extraction completed. Title: "
                             ++ take 50 (title info) ++ py "...");
           mret (JsonResult {| Api.title := title info;
                               Api.description := description info;
                               Api.tags := tags;
                               Api.thumbnail := thumbnail_url;
                               Api.video_id := video_id |})
     end)
    any_Exception
    (fun e =>
       _ ← print_line (py "API Error: " ++ exn_text e);
       mret (JsonError (exn_text e) 500)).

(** The loop of [download_thumbnail]: [Some] is the [return] in the body
    of the [try]; the request is made without headers of its own. *)
Fixpoint download_loop (video_id : pystr) (thumbnail_urls : list pystr)
    : io World (option reply) :=
  match thumbnail_urls with
  | [] => mret None
  | thumbnail_url :: thumbnail_urls' =>
      returned ←
        io_try
          (response ← requests_get thumbnail_url [];
           if status_code response =? 200 then
             let download_name := video_id ++ py "_thumbnail.jpg" in
             _ ← save_and_send response download_name;
             mret (Some (Attachment response download_name))
           else mret None)
          any_Exception
          (fun e =>
             _ ← print_line (py "Error downloading thumbnail from "
                               ++ thumbnail_url ++ py ": " ++ exn_text e);
             mret None);
      match returned with
      | Some sent => mret (Some sent)
      | None => download_loop video_id thumbnail_urls'
      end
  end.

(** [download_thumbnail(video_id)] *)
Definition download_thumbnail (video_id : pystr) : io World reply :=
  io_try
    (returned ← download_loop video_id (thumbnail_urls_of video_id);
     match returned with
     | Some sent => mret sent
     | None => mret (JsonError (py "Thumbnail not found") 404)
     end)
    any_Exception
    (fun e => mret (JsonError (exn_text e) 500)).

End Endpoints.

(** ** Vocabulary of the endpoints *)

Section EndpointVocabulary.
Context {World : Type} {NET : Network World} {SRV : Server World}.

(** The check of the posted URL: a string that is not empty and that
    holds one of the two host names somewhere. *)
Definition accepted (video_url : option pystr) : bool :=
  match video_url with
  | Some (c :: s) =>
      contains (py "youtube.com") (c :: s) || contains (py "youtu.be") (c :: s)
  | _ => false
  end.

(** The [HEAD] requests for [urls] are made in turn from the world [w]
    and none of them is answered with the status 200: the world they
    leave. *)
Fixpoint heads_refused (urls : list pystr) (w : World) : option World :=
  match urls with
  | [] => Some w
  | url :: urls' =>
      match requests_head url w with
      | (Ok status, w') =>
          if status =? 200 then None else heads_refused urls' w'
      | (Raise _, w') => heads_refused urls' w'
      end
  end.

(** The requests for [urls] are made in turn and each is answered, with
    a status other than 200: the world they leave. *)
Fixpoint gets_refused (urls : list pystr) (w : World) : option World :=
  match urls with
  | [] => Some w
  | url :: urls' =>
      match requests_get url [] w with
      | (Ok response, w') =>
          if status_code response =? 200 then None
          else gets_refused urls' w'
      | (Raise _, _) => None
      end
  end.


End EndpointVocabulary.

(** ** A small server, for examples

    Its world is that of the example network: the list of the URLs
    requested so far.  A [HEAD] request is answered with the status 200
    for the thumbnail of high quality and with 404 for every other URL;
    the console and the temporary files work. *)

Definition example_server : Server (list pystr) :=
  {| requests_head := fun url w =>
       (Ok (if contains (py "/hqdefault.jpg") url then 200 else 404),
        w ++ [url]);
     print_line := fun _ w => (Ok tt, w);
     save_and_send := fun _ _ w => (Ok tt, w) |}.

(** A site that has the thumbnail of high quality only. *)
Definition thumbnail_pages (url : pystr) : result response :=
  Ok {| status_code := if contains (py "/hqdefault.jpg") url then 200 else 404;
        text := [];
        json_title := Raise JSONDecodeError |}.


(** * Properties *)

(** ** The orchestrator *)

Section OrchestratorFacts.
Context {World : Type}.
Implicit Types (w : World) (r : info) (m : io World info)
  (ms pre post : list (io World info)).

(** One turn of the inner loop. *)
Lemma keep_trying_cons r m ms w :
  keep_trying r (m :: ms) w =
  match m w with
  | (Ok r2, w') =>
      if description_found r2
      then (Ok {| title := title r; description := description r2 |}, w')
      else keep_trying r ms w'
  | (Raise _, w') => keep_trying r ms w'
  end.
Proof.
  cbn -[description_found].
  unfold io_bind, io_try, mbind, io_mbind, io_bind, mret, io_mret, io_ret.
  destruct (m w) as [[r2|e] w']; [|reflexivity].
  destruct (description_found r2); reflexivity.
Qed.

(** The loops absorb every exception of a method. *)
Lemma keep_trying_returns r ms w :
  exists r' w', keep_trying r ms w = (Ok r', w').
Proof.
  revert w; induction ms as [|m ms IH]; intros w.
  - eexists _, _; reflexivity.
  - rewrite keep_trying_cons.
    destruct (m w) as [[r2|e] w']; [destruct (description_found r2)|]; eauto.
Qed.

(** One turn of the outer loop. *)
Lemma try_methods_cons m ms w :
  try_methods (m :: ms) w =
  match m w with
  | (Ok r, w') =>
      if title_found r && description_found r then (Ok r, w')
      else if title_found r then keep_trying r ms w'
      else try_methods ms w'
  | (Raise _, w') => try_methods ms w'
  end.
Proof.
  cbn -[title_found description_found].
  unfold io_bind, io_try, mbind, io_mbind, io_bind, mret, io_mret, io_ret.
  destruct (m w) as [[r|e] w']; [|reflexivity].
  destruct (title_found r); destruct (description_found r); cbn; try reflexivity.
  destruct (keep_trying_returns r ms w') as (r' & w'' & ->); reflexivity.
Qed.

Lemma try_methods_returns ms w :
  exists r' w', try_methods ms w = (Ok r', w').
Proof.
  revert w; induction ms as [|m ms IH]; intros w.
  - eexists _, _; reflexivity.
  - rewrite try_methods_cons.
    destruct (m w) as [[r|e] w']; [|eauto].
    destruct (title_found r); destruct (description_found r); cbn;
      eauto using keep_trying_returns.
Qed.

Lemma passes_weaken (skip skip' : result info -> bool) ms w w' :
  (forall o, skip o = true -> skip' o = true) ->
  passes skip ms w = Some w' -> passes skip' ms w = Some w'.
Proof.
  intros Hsub; revert w; induction ms as [|m ms IH]; intros w; cbn; [done|].
  destruct (m w) as [o w1]. destruct (skip o) eqn:Ho; [|done].
  rewrite (Hsub _ Ho). apply IH.
Qed.

Lemma raised_no_title o : raised o = true -> no_title o = true.
Proof. by destruct o. Qed.

Lemma raised_no_description o : raised o = true -> no_description o = true.
Proof. by destruct o. Qed.

Lemma passes_app skip pre post w w1 w2 :
  passes skip pre w = Some w1 -> passes skip post w1 = Some w2 ->
  passes skip (pre ++ post) w = Some w2.
Proof.
  revert w; induction pre as [|m pre IH]; intros w; cbn.
  - by intros [= ->].
  - destruct (m w) as [o w']. destruct (skip o); [apply IH|done].
Qed.

(** Methods without a usable title are passed over by the outer loop. *)
Lemma try_methods_skip pre ms w w1 :
  passes no_title pre w = Some w1 ->
  try_methods (pre ++ ms) w = try_methods ms w1.
Proof.
  revert w; induction pre as [|m pre IH]; intros w; cbn [passes app].
  - by intros [= ->].
  - rewrite try_methods_cons. destruct (m w) as [[r|e] w']; cbn [no_title].
    + destruct (title_found r); cbn; [done|apply IH].
    + apply IH.
Qed.

(** Methods without a usable description are passed over by the inner
    loop. *)
Lemma keep_trying_skip r mid ms w w1 :
  passes no_description mid w = Some w1 ->
  keep_trying r (mid ++ ms) w = keep_trying r ms w1.
Proof.
  revert w; induction mid as [|m mid IH]; intros w; cbn [passes app].
  - by intros [= ->].
  - rewrite keep_trying_cons. destruct (m w) as [[r2|e] w']; cbn [no_description].
    + destruct (description_found r2); cbn; [done|apply IH].
    + apply IH.
Qed.

Lemma keep_trying_exhausted r ms w w1 :
  passes no_description ms w = Some w1 -> keep_trying r ms w = (Ok r, w1).
Proof.
  intros Hp. rewrite <- (app_nil_r ms). by rewrite (keep_trying_skip _ _ _ _ _ Hp).
Qed.

Lemma try_methods_exhausted ms w w1 :
  passes no_title ms w = Some w1 ->
  try_methods ms w = (Ok All_methods_failed, w1).
Proof.
  intros Hp. rewrite <- (app_nil_r ms). by rewrite (try_methods_skip _ _ _ _ Hp).
Qed.

(** The log of a run that passes over its methods. *)
Lemma log_calls_app {A} k (a b : list (io World A)) :
  log_calls k (a ++ b) = log_calls k a ++ log_calls (k + length a) b.
Proof.
  revert k; induction a as [|m a IH]; intros k; cbn.
  - by rewrite Nat.add_0_r.
  - rewrite IH. by rewrite Nat.add_succ_r.
Qed.

Lemma passes_logged skip ms k w w1 (log : list nat) :
  passes skip ms w = Some w1 ->
  passes skip (log_calls k ms) (w, log) = Some (w1, log ++ seq k (length ms)).
Proof.
  revert k w log; induction ms as [|m ms IH]; intros k w log; cbn.
  - intros [= ->]. by rewrite app_nil_r.
  - destruct (m w) as [o w']. destruct (skip o); [|done].
    intros Hp. rewrite (IH _ _ _ Hp). by rewrite <- app_assoc.
Qed.

Lemma logged_run {A} i (m : io World A) w (log : list nat) o w' :
  m w = (o, w') -> logged i m (w, log) = (o, (w', log ++ [i])).
Proof. intros Hm. unfold logged. by rewrite Hm. Qed.

End OrchestratorFacts.

Section OrchestratorClaims.
Context {World : Type} {RT : PyRuntime}.
Implicit Types (w : World) (r : info) (m : io World info)
  (ms pre post : list (io World info)).

Lemma get_youtube_info_of_try ms w r w' :
  try_methods ms w = (Ok r, w') -> get_youtube_info_of ms w = (r, w').
Proof. intros Ht. unfold get_youtube_info_of. by rewrite Ht. Qed.

Lemma try_methods_full_success pre m post w w1 w2 r :
  passes no_title pre w = Some w1 ->
  m w1 = (Ok r, w2) ->
  title_found r = true -> description_found r = true ->
  try_methods (pre ++ m :: post) w = (Ok r, w2).
Proof.
  intros Hpre Hm Ht Hd.
  rewrite (try_methods_skip _ _ _ _ Hpre), try_methods_cons, Hm, Ht, Hd.
  reflexivity.
Qed.

Lemma try_methods_title_only pre m post w w1 w2 r :
  passes no_title pre w = Some w1 ->
  m w1 = (Ok r, w2) ->
  title_found r = true -> description_found r = false ->
  try_methods (pre ++ m :: post) w = keep_trying r post w2.
Proof.
  intros Hpre Hm Ht Hd.
  rewrite (try_methods_skip _ _ _ _ Hpre), try_methods_cons, Hm, Ht, Hd.
  reflexivity.
Qed.

Lemma keep_trying_found r mid m2 rest w w3 w4 r2 :
  passes no_description mid w = Some w3 ->
  m2 w3 = (Ok r2, w4) ->
  description_found r2 = true ->
  keep_trying r (mid ++ m2 :: rest) w
  = (Ok {| title := title r; description := description r2 |}, w4).
Proof.
  intros Hmid Hm2 Hd.
  by rewrite (keep_trying_skip _ _ _ _ _ Hmid), keep_trying_cons, Hm2, Hd.
Qed.

Lemma keep_trying_title r ms w r' w' :
  keep_trying r ms w = (Ok r', w') -> title r' = title r.
Proof.
  revert w; induction ms as [|m ms IH]; intros w.
  - by intros [= <- _].
  - rewrite keep_trying_cons. destruct (m w) as [[r2|e] w1]; [|apply IH].
    destruct (description_found r2); [by intros [= <- _]|apply IH].
Qed.

Lemma try_methods_title ms w r w' :
  try_methods ms w = (Ok r, w') ->
  r = All_methods_failed \/ title_found r = true.
Proof.
  revert w; induction ms as [|m ms IH]; intros w.
  - intros [= <- _]. by left.
  - rewrite try_methods_cons. destruct (m w) as [[r1|e] w1]; [|apply IH].
    destruct (title_found r1) eqn:Ht; cbn [andb]; [|apply IH].
    destruct (description_found r1).
    + intros [= <- _]. by right.
    + intros Hk. right. unfold title_found in *.
      by rewrite (keep_trying_title _ _ _ _ _ Hk).
Qed.

(** The title of a result is that of the first method with a usable
    title, unless every method was passed over. *)
Lemma try_methods_title_source ms w r w' :
  try_methods ms w = (Ok r, w') ->
  (r = All_methods_failed /\ passes no_title ms w = Some w')
  \/ exists pre m post w0 w1 r0,
       ms = pre ++ m :: post
       /\ passes no_title pre w = Some w0
       /\ m w0 = (Ok r0, w1)
       /\ title_found r0 = true
       /\ title r = title r0.
Proof.
  revert w; induction ms as [|m ms IH]; intros w.
  - intros [= <- <-]. by left.
  - rewrite try_methods_cons. cbn [passes].
    destruct (m w) as [[r1|e] w1] eqn:Hm; cbn [no_title].
    + destruct (title_found r1) eqn:Ht; cbn [andb negb].
      * intros Hrun. right. exists [], m, ms, w, w1, r1.
        repeat (split; [done|]).
        destruct (description_found r1).
        -- by injection Hrun as <- _.
        -- by apply keep_trying_title in Hrun.
      * intros Hrun. destruct (IH _ Hrun) as [Hfail|Hfound]; [by left|].
        destruct Hfound as (pre & m0 & post & w0 & w2 & r0 & -> & Hpre & Hrest).
        right. exists (m :: pre), m0, post, w0, w2, r0.
        split; [done|]. split; [|done]. cbn [passes no_title].
        by rewrite Hm; cbn [no_title]; rewrite Ht.
    + intros Hrun. destruct (IH _ Hrun) as [Hfail|Hfound]; [by left|].
      destruct Hfound as (pre & m0 & post & w0 & w2 & r0 & -> & Hpre & Hrest).
      right. exists (m :: pre), m0, post, w0, w2, r0.
      split; [done|]. split; [|done]. cbn [passes]. by rewrite Hm.
Qed.

End OrchestratorClaims.

(** C1. When every method before [m] raises and [m], the first one whose
    invocation succeeds, returns a result with a usable title and a usable
    description, [get_youtube_info] returns that result as it is, in the
    world [m] left; logging the invocations shows that the methods up to
    [m] ran once each, in order, and that none after [m] ran. *)
Theorem C1_full_success_short_circuit {RT : PyRuntime} {World : Type}
    (pre post : list (io World info)) (m : io World info)
    (w w1 w2 : World) (r : info) :
  passes raised pre w = Some w1 ->
  m w1 = (Ok r, w2) ->
  title_found r = true ->
  description_found r = true ->
  get_youtube_info_of (pre ++ m :: post) w = (r, w2)
  /\ get_youtube_info_of (log_calls 0 (pre ++ m :: post)) (w, [])
     = (r, (w2, seq 0 (S (length pre)))).
Proof.
  intros Hpre Hm Ht Hd.
  pose proof (passes_weaken _ _ _ _ _ raised_no_title Hpre) as Hpre'.
  split.
  - apply get_youtube_info_of_try. eapply try_methods_full_success; eauto.
  - apply get_youtube_info_of_try. rewrite log_calls_app. cbn [log_calls].
    eapply try_methods_full_success; eauto.
    + apply (passes_logged _ _ 0 _ _ [] Hpre').
    + cbn [app Nat.add]. rewrite (logged_run _ _ _ _ _ _ Hm).
      by rewrite seq_S.
Qed.

Lemma C1_witness :
  get_youtube_info_of (RT := example_runtime)
    ([fixed_method (Raise HTTPError)]
       ++ fixed_method (Ok {| title := py "A song"; description := py "About it" |})
       :: [fixed_method (Ok {| title := py "Other"; description := py "Other" |})])
    0%nat
  = ({| title := py "A song"; description := py "About it" |}, 2%nat).
Proof.
  apply (C1_full_success_short_circuit (RT := example_runtime)
           [fixed_method (Raise HTTPError)] _ _ 0%nat 1%nat 2%nat);
    reflexivity.
Defined.

(** C2. When the outer loop reaches [m] (no method before it gave a usable
    title) and [m] returns a usable title with a sentinel description, the
    methods after [m] are scanned in order for a usable description: the
    result is the title of [m] with the description of the first method
    [m2] that has one, and no method after [m2] runs; when no later method
    has one, the result is that of [m], sentinel description included.  In
    particular, title only from the first method, a failure of the second
    and description only from the third give the first title with the
    third description. *)
Theorem C2_title_then_description {RT : PyRuntime} {World : Type} :
  (forall (pre post : list (io World info)) (m : io World info)
          (w w1 w2 : World) (r : info),
      passes no_title pre w = Some w1 ->
      m w1 = (Ok r, w2) ->
      title_found r = true ->
      description_found r = false ->
      (forall mid m2 rest w3 w4 r2,
          post = mid ++ m2 :: rest ->
          passes no_description mid w2 = Some w3 ->
          m2 w3 = (Ok r2, w4) ->
          description_found r2 = true ->
          get_youtube_info_of (pre ++ m :: post) w
          = ({| title := title r; description := description r2 |}, w4)
          /\ get_youtube_info_of (log_calls 0 (pre ++ m :: post)) (w, [])
             = ({| title := title r; description := description r2 |},
                (w4, seq 0 (length pre + 1 + length mid + 1))))
      /\ (forall w3,
             passes no_description post w2 = Some w3 ->
             get_youtube_info_of (pre ++ m :: post) w = (r, w3)))
  /\ (forall (m1 m2 m3 : io World info) (w w1 w2 w3 : World) (r1 r3 : info) e,
         m1 w = (Ok r1, w1) ->
         title_found r1 = true -> description_found r1 = false ->
         m2 w1 = (Raise e, w2) ->
         m3 w2 = (Ok r3, w3) ->
         title_found r3 = false -> description_found r3 = true ->
         get_youtube_info_of [m1; m2; m3] w
         = ({| title := title r1; description := description r3 |}, w3)).
Proof.
  split.
  - intros pre post m w w1 w2 r Hpre Hm Ht Hd. split.
    + intros mid m2 rest w3 w4 r2 -> Hmid Hm2 Hd2. split.
      * apply get_youtube_info_of_try.
        rewrite (try_methods_title_only _ _ _ _ _ _ _ Hpre Hm Ht Hd).
        eapply keep_trying_found; eauto.
      * apply get_youtube_info_of_try.
        rewrite log_calls_app. cbn [log_calls].
        rewrite (try_methods_title_only _ _ _ _ _ _ r
                   (passes_logged _ _ 0 _ _ [] Hpre)
                   (logged_run _ _ _ _ _ _ Hm) Ht Hd).
        rewrite log_calls_app. cbn [log_calls].
        rewrite (keep_trying_found r _ _ _ _ _ _ r2
                   (passes_logged _ _ _ _ _ _ Hmid)
                   (logged_run _ _ _ _ _ _ Hm2) Hd2).
        do 3 f_equal. rewrite !seq_app. cbn [app seq Nat.add].
        repeat f_equal; lia.
    + intros w3 Hpost. apply get_youtube_info_of_try.
      rewrite (try_methods_title_only _ _ _ _ _ _ _ Hpre Hm Ht Hd).
      by apply keep_trying_exhausted.
  - intros m1 m2 m3 w w1 w2 w3 r1 r3 e Hm1 Ht1 Hd1 Hm2 Hm3 _ Hd3.
    apply get_youtube_info_of_try.
    change [m1; m2; m3] with ([] ++ m1 :: [m2; m3]).
    rewrite (try_methods_title_only [] m1 [m2; m3] w w w1 r1 eq_refl Hm1 Ht1 Hd1).
    apply (keep_trying_found r1 [m2] m3 [] w1 w2 w3 r3); [|done..].
    cbn. by rewrite Hm2.
Qed.

Lemma C2_witness :
  get_youtube_info_of (RT := example_runtime)
    [ fixed_method (Ok {| title := py "A song"; description := Description_not_found |});
      fixed_method (Raise RequestException);
      fixed_method (Ok {| title := Title_not_found; description := py "About it" |}) ]
    0%nat
  = ({| title := py "A song"; description := py "About it" |}, 3%nat).
Proof.
  apply (proj2 (C2_title_then_description (RT := example_runtime))
           _ _ _ 0%nat 1%nat 2%nat 3%nat
           {| title := py "A song"; description := Description_not_found |}
           {| title := Title_not_found; description := py "About it" |}
           RequestException);
    reflexivity.
Defined.

(** C3. [get_youtube_info] never raises: the loop over the methods absorbs
    every exception and returns, for any methods and so for the three of
    the program, and the handler of the outer [try] is never taken.  When
    every method raises or gives no usable title, the result is the fixed
    pair ['All extraction methods failed'] and
    ['Could not extract video information']. *)
Theorem C3_never_raises_and_failure_pair {RT : PyRuntime} {World : Type}
    {NET : Network World} :
  (forall (methods : list (io World info)) (w : World),
      exists r w', try_methods methods w = (Ok r, w')
                   /\ get_youtube_info_of methods w = (r, w'))
  /\ (forall (methods : list (io World info)) (w w1 : World),
         passes no_title methods w = Some w1 ->
         get_youtube_info_of methods w
         = ({| title := py "All extraction methods failed";
               description := py "Could not extract video information" |}, w1))
  /\ (forall (url : pystr) (w w1 : World),
         passes no_title
           [get_youtube_info_method1 url; get_youtube_info_method2 url;
            get_youtube_info_method3 url] w = Some w1 ->
         get_youtube_info url w
         = ({| title := py "All extraction methods failed";
               description := py "Could not extract video information" |}, w1)).
Proof.
  split; [|split].
  - intros methods w.
    destruct (try_methods_returns methods w) as (r & w' & Hr).
    exists r, w'. split; [done|]. by apply get_youtube_info_of_try.
  - intros methods w w1 Hp. apply get_youtube_info_of_try.
    by apply try_methods_exhausted.
  - intros url w w1 Hp. apply get_youtube_info_of_try.
    by apply try_methods_exhausted.
Qed.

Lemma C3_witness :
  get_youtube_info_of (RT := example_runtime)
    [ fixed_method (Raise HTTPError);
      fixed_method (Ok {| title := Title_not_found; description := py "About it" |});
      fixed_method (Ok {| title := Error; description := Error |}) ]
    0%nat
  = ({| title := py "All extraction methods failed";
        description := py "Could not extract video information" |}, 3%nat).
Proof.
  apply (proj1 (proj2 (C3_never_raises_and_failure_pair
                         (RT := example_runtime)
                         (NET := {| requests_get := fun _ _ => io_raise RequestException;
                                   sleep_uniform := fun _ _ w => w |}))));
    reflexivity.
Defined.

(** C10, as the code has it.  A returned description other than
    ['Could not extract video information'] comes with a title that is
    neither ['Title not found'] nor ['Error'].  The returned title is that
    of the first method with a usable title, unless every method was
    passed over and the result is the failure pair: so it is
    ['All extraction methods failed'] only in the failure pair, or when
    that method itself returned this text.  A method that gives a
    description under a sentinel title is passed over like a failed one,
    and its description is not used, as long as no method has given a
    usable title; after a method has given a usable title without a usable
    description, the description of such a method is taken. *)
Theorem C10_description_comes_with_title {RT : PyRuntime} {World : Type} :
  (forall (methods : list (io World info)) (w : World),
      description (get_youtube_info_of methods w).1
        <> py "Could not extract video information" ->
      title (get_youtube_info_of methods w).1 <> py "Title not found"
      /\ title (get_youtube_info_of methods w).1 <> py "Error")
  /\ (forall (methods : list (io World info)) (w : World),
         ((get_youtube_info_of methods w).1 = All_methods_failed
          /\ passes no_title methods w = Some (get_youtube_info_of methods w).2)
         \/ exists pre m post w0 w1 r0,
              methods = pre ++ m :: post
              /\ passes no_title pre w = Some w0
              /\ m w0 = (Ok r0, w1)
              /\ title_found r0 = true
              /\ title (get_youtube_info_of methods w).1 = title r0)
  /\ (forall (pre methods : list (io World info)) (w w1 : World),
         passes no_title pre w = Some w1 ->
         get_youtube_info_of (pre ++ methods) w
         = get_youtube_info_of methods w1)
  /\ (forall (pre mid rest : list (io World info)) (m m2 : io World info)
             (w w1 w2 w3 w4 : World) (r r2 : info),
         passes no_title pre w = Some w1 ->
         m w1 = (Ok r, w2) ->
         title_found r = true ->
         description_found r = false ->
         passes no_description mid w2 = Some w3 ->
         m2 w3 = (Ok r2, w4) ->
         title_found r2 = false ->
         description_found r2 = true ->
         get_youtube_info_of (pre ++ m :: mid ++ m2 :: rest) w
         = ({| title := title r; description := description r2 |}, w4)).
Proof.
  split; [|split; [|split]].
  - intros methods w.
    destruct (try_methods_returns methods w) as (r & w' & Hr).
    rewrite (get_youtube_info_of_try _ _ _ _ Hr). cbn [fst].
    destruct (try_methods_title _ _ _ _ Hr) as [->|Ht]; [done|].
    intros _. unfold title_found in Ht. apply bool_decide_eq_true in Ht.
    split; intros Heq; apply Ht; rewrite Heq.
    + apply list_elem_of_here.
    + apply list_elem_of_further, list_elem_of_here.
  - intros methods w.
    destruct (try_methods_returns methods w) as (r & w' & Hr).
    rewrite (get_youtube_info_of_try _ _ _ _ Hr). cbn [fst snd].
    exact (try_methods_title_source _ _ _ _ Hr).
  - intros pre methods w w1 Hpre. unfold get_youtube_info_of.
    by rewrite (try_methods_skip _ _ _ _ Hpre).
  - intros pre mid rest m m2 w w1 w2 w3 w4 r r2 Hpre Hm Ht Hd Hmid Hm2 _ Hd2.
    apply get_youtube_info_of_try.
    rewrite (try_methods_title_only _ _ _ _ _ _ _ Hpre Hm Ht Hd).
    eapply keep_trying_found; eauto.
Qed.

Lemma C10_witness :
  title (get_youtube_info_of (RT := example_runtime)
           [fixed_method (Ok {| title := py "A song"; description := py "About it" |})]
           0%nat).1 <> py "Title not found"
  /\ title (get_youtube_info_of (RT := example_runtime)
              [fixed_method (Ok {| title := py "A song"; description := py "About it" |})]
              0%nat).1 <> py "Error".
Proof.
  apply (proj1 (C10_description_comes_with_title (RT := example_runtime))).
  vm_compute. discriminate.
Defined.

(** C10, as stated, fails twice.  When a method returns the text
    ['All extraction methods failed'] as the title of a video, the result
    has a usable description and that title.  And the description of a
    method that gives only a description is not always discarded: after a
    method that gave only a title, it is the description of the result. *)
Lemma C10_counterexample :
  ~ (forall (methods : list (io nat info)) (w : nat),
        let r := (get_youtube_info_of (RT := example_runtime) methods w).1 in
        description r <> py "Description not found" ->
        description r <> py "Could not extract video information" ->
        title r <> py "Title not found"
        /\ title r <> py "All extraction methods failed")
  /\ get_youtube_info_of (RT := example_runtime)
       [ fixed_method (Ok {| title := py "A song";
                             description := Description_not_found |});
         fixed_method (Ok {| title := Title_not_found;
                             description := py "About it" |}) ]
       0%nat
     = ({| title := py "A song"; description := py "About it" |}, 2%nat).
Proof.
  split.
  - intros Hclaim.
    destruct (Hclaim
                [fixed_method (Ok {| title := py "All extraction methods failed";
                                     description := py "About it" |})] 0%nat)
      as [_ Hne].
    + vm_compute. discriminate.
    + vm_compute. discriminate.
    + apply Hne. reflexivity.
  - vm_compute. reflexivity.
Qed.

(** ** The identifier parser *)

Section SplitFacts.
Implicit Types (s sep cur : pystr).

Lemma split_go_skip sep s k cur :
  (k <= length s)%nat -> split_go sep s k cur = split_go sep (drop k s) O cur.
Proof.
  revert k; induction s as [|c s IH]; intros k Hk.
  - destruct k; [done|cbn in Hk; lia].
  - destruct k as [|k]; [done|]. cbn [split_go drop]. apply IH. cbn in Hk; lia.
Qed.

Lemma startswith_length p s : startswith p s = true -> (length p <= length s)%nat.
Proof.
  revert s; induction p as [|a p IH]; intros [|b s]; cbn; try lia; try done.
  intros [_ Hp]%andb_prop. specialize (IH _ Hp). lia.
Qed.

Lemma contains_cons sep c s :
  startswith sep (c :: s) = false -> contains sep (c :: s) = contains sep s.
Proof. intros Hs. cbn [contains]. by rewrite Hs. Qed.

Lemma split_go_spec sep s cur :
  sep <> [] ->
  split_go sep s O cur =
  (rev cur ++ before_first sep s)
    :: (if contains sep s then split sep (after_first sep s) else []).
Proof.
  intros Hsep; revert cur; induction s as [|c s IH]; intros cur.
  - destruct sep; [done|]. cbn. by rewrite app_nil_r.
  - cbn [split_go before_first after_first].
    destruct (startswith sep (c :: s)) eqn:Hs.
    + assert (contains sep (c :: s) = true) as ->
        by (cbn [contains]; by rewrite Hs).
      rewrite app_nil_r. f_equal.
      rewrite split_go_skip.
      * destruct sep; [done|]. reflexivity.
      * apply startswith_length in Hs. destruct sep; [done|]. cbn in *; lia.
    + rewrite (contains_cons _ _ _ Hs), IH. cbn [rev].
      by rewrite <- app_assoc.
Qed.

Lemma split_spec sep s :
  sep <> [] ->
  split sep s =
  before_first sep s
    :: (if contains sep s then split sep (after_first sep s) else []).
Proof. intros Hsep. unfold split at 1. by rewrite split_go_spec. Qed.

Lemma index_split_0 sep s :
  sep <> [] -> index (split sep s) 0 = Ok (before_first sep s).
Proof. intros Hsep. by rewrite split_spec. Qed.

Lemma index_split_1 sep s :
  sep <> [] -> contains sep s = true ->
  index (split sep s) 1 = Ok (segment_after sep s).
Proof.
  intros Hsep Hc. rewrite split_spec, Hc by done.
  unfold index. cbn [lookup list_lookup]. by rewrite split_spec.
Qed.

Lemma before_first_char c s :
  before_first [c] s = before_any (fun x => x =? c) s.
Proof.
  induction s as [|a s IH]; [done|]. cbn.
  rewrite N.eqb_sym, andb_true_r. destruct (a =? c); [done|]. by rewrite IH.
Qed.

Lemma before_any_twice s :
  before_any (fun x => x =? 63) (before_any (fun x => x =? 38) s)
  = strip_after_separators s.
Proof.
  unfold strip_after_separators, is_separator.
  induction s as [|a s IH]; [done|]. cbn.
  destruct (a =? 38); [done|]. cbn. destruct (a =? 63); [done|]. by rewrite IH.
Qed.

Lemma before_any_stops stop s :
  existsb stop (before_any stop s) = false.
Proof.
  induction s as [|a s IH]; [done|]. cbn.
  destruct (stop a) eqn:Ha; [done|]. cbn. by rewrite Ha.
Qed.

Lemma strip_after_separators_clean s :
  has_char 38 (strip_after_separators s) = false
  /\ has_char 63 (strip_after_separators s) = false.
Proof.
  pose proof (before_any_stops is_separator s) as Hno.
  unfold strip_after_separators, has_char.
  induction (before_any is_separator s) as [|a l IH]; [done|].
  cbn in Hno. apply orb_false_elim in Hno as [Ha Hl].
  unfold is_separator in Ha. apply orb_false_elim in Ha as [Ha1 Ha2].
  destruct (IH Hl) as [IH1 IH2]. cbn [existsb].
  rewrite (N.eqb_sym 38), (N.eqb_sym 63), Ha1, Ha2. by split.
Qed.

(** The cleaning step of the parser, on an identifier that is not empty. *)
Lemma clean_nonempty_id c id :
  (a ← index (split (py "&") (c :: id)) 0;
   b ← index (split (py "?") a) 0;
   Ok (Some b))
  = Ok (Some (strip_after_separators (c :: id))).
Proof.
  rewrite index_split_0 by done. cbn [mbind result_bind].
  rewrite index_split_0 by done. cbn [mbind result_bind].
  do 2 f_equal. change (py "&") with [38]. change (py "?") with [63].
  by rewrite !before_first_char, before_any_twice.
Qed.

End SplitFacts.

Section VideoIdFacts.
Context {RT : PyRuntime}.
Import Urllib.

Lemma result_bind_ok {A B} (a : A) (k : A -> result B) : Ok a ≫= k = k a.
Proof. reflexivity. Qed.

Lemma finish_video_id (video_id : option pystr) :
  clean_video_id video_id = Ok (strip_after_separators <$> video_id).
Proof.
  destruct video_id as [[|c id]|]; [done| |done]. apply clean_nonempty_id.
Qed.

Lemma short_link_not_canonical host :
  short_link_host host -> ~ canonical_host host.
Proof. intros -> [Hc|Hc]; vm_compute in Hc; discriminate. Qed.

Lemma short_link_test (parsed : ParseResult) :
  bool_decide (hostname parsed ∈ [Some (py "youtu.be")])
  = bool_decide (short_link_host (hostname parsed)).
Proof.
  apply bool_decide_ext. unfold short_link_host.
  rewrite list_elem_of_singleton. done.
Qed.

Lemma canonical_test (parsed : ParseResult) :
  bool_decide (hostname parsed ∈
     [Some (py "www.youtube.com"); Some (py "youtube.com")])
  = bool_decide (canonical_host (hostname parsed)).
Proof.
  apply bool_decide_ext. unfold canonical_host.
  rewrite elem_of_cons, list_elem_of_singleton. done.
Qed.

(** The parser in one equation: the identifier that the shape of the URL
    selects, cleaned, and [None] when the URL does not parse. *)
Lemma get_video_id_from_url_unfold url :
  get_video_id_from_url url =
  match urlparse url with
  | Raise _ => None
  | Ok parsed =>
      strip_after_separators <$>
      (if bool_decide (short_link_host (hostname parsed)) then
         Some (drop 1 (path parsed))
       else if bool_decide (canonical_host (hostname parsed)) then
         if contains (py "/watch") (path parsed) then
           parse_qs (query parsed) !! py "v" ≫= head
         else if contains (py "/embed/") (path parsed) then
           Some (strip_query (segment_after (py "/embed/") (path parsed)))
         else if contains (py "/v/") (path parsed) then
           Some (strip_query (segment_after (py "/v/") (path parsed)))
         else None
       else None)
  end.
Proof.
  unfold get_video_id_from_url, get_video_id_from_url_body.
  destruct (urlparse url) as [parsed|e]; [|done]. rewrite result_bind_ok.
  rewrite short_link_test, canonical_test.
  destruct (bool_decide (short_link_host (hostname parsed))).
  { by rewrite result_bind_ok, finish_video_id. }
  destruct (bool_decide (canonical_host (hostname parsed)));
    [|by rewrite result_bind_ok, finish_video_id].
  destruct (contains (py "/watch") (path parsed)).
  { destruct (parse_qs (query parsed) !! py "v") as [[|v values]|].
    - done.
    - unfold index at 1. cbn [lookup list_lookup].
      by rewrite !result_bind_ok, finish_video_id.
    - by rewrite result_bind_ok, finish_video_id. }
  destruct (contains (py "/embed/") (path parsed)) eqn:Hembed.
  { rewrite index_split_1, result_bind_ok by done.
    rewrite index_split_0, !result_bind_ok by done.
    rewrite finish_video_id. change (py "?") with [63].
    by rewrite before_first_char. }
  destruct (contains (py "/v/") (path parsed)) eqn:Hv.
  { rewrite index_split_1, result_bind_ok by done.
    rewrite index_split_0, !result_bind_ok by done.
    rewrite finish_video_id. change (py "?") with [63].
    by rewrite before_first_char. }
  by rewrite result_bind_ok, finish_video_id.
Qed.

End VideoIdFacts.

(** [get_video_id_from_url] by the shape of the URL: a URL that does not
    parse gives [None]; the short-link host gives the path after its
    leading slash; a canonical host gives, for a path with [/watch], the
    first value of the query parameter [v] ([None] when there is none), for
    a path without [/watch] and with [/embed/] or [/v/], the segment after
    the marker without a trailing query, and [None] otherwise; any other
    host gives [None]; and what follows a literal [&] or [?] in the
    identifier is cut off.  The two examples of the specification hold in
    every runtime. *)
Lemma get_video_id_from_url_by_shape {RT : PyRuntime} :
  (forall url e,
      Urllib.urlparse url = Raise e -> get_video_id_from_url url = None)
  /\ (forall url parsed,
         Urllib.urlparse url = Ok parsed ->
         let host := Urllib.hostname parsed in
         let path := Urllib.path parsed in
         (short_link_host host ->
          get_video_id_from_url url
          = Some (strip_after_separators (drop 1 path)))
         /\ (canonical_host host ->
             contains (py "/watch") path = true ->
             get_video_id_from_url url
             = strip_after_separators <$>
               (Urllib.parse_qs (Urllib.query parsed) !! py "v" ≫= head))
         /\ (canonical_host host ->
             contains (py "/watch") path = false ->
             contains (py "/embed/") path = true ->
             get_video_id_from_url url
             = Some (strip_after_separators
                       (strip_query (segment_after (py "/embed/") path))))
         /\ (canonical_host host ->
             contains (py "/watch") path = false ->
             contains (py "/embed/") path = false ->
             contains (py "/v/") path = true ->
             get_video_id_from_url url
             = Some (strip_after_separators
                       (strip_query (segment_after (py "/v/") path))))
         /\ (canonical_host host ->
             contains (py "/watch") path = false ->
             contains (py "/embed/") path = false ->
             contains (py "/v/") path = false ->
             get_video_id_from_url url = None)
         /\ (~ short_link_host host -> ~ canonical_host host ->
             get_video_id_from_url url = None))
  /\ get_video_id_from_url (py "https://www.youtube.com/watch?v=xyz789&t=30")
     = Some (py "xyz789")
  /\ get_video_id_from_url (py "https://example.com/video") = None.
Proof.
  split; [|split; [|split]].
  - intros url e Hparse. by rewrite get_video_id_from_url_unfold, Hparse.
  - intros url parsed Hparse host path.
    rewrite get_video_id_from_url_unfold, Hparse. subst host path.
    repeat split.
    + intros Hs. by rewrite (bool_decide_eq_true_2 _ Hs).
    + intros Hc Hw.
      rewrite bool_decide_eq_false_2
        by (intros Hs; exact (short_link_not_canonical _ Hs Hc)).
      by rewrite (bool_decide_eq_true_2 _ Hc), Hw.
    + intros Hc Hw He.
      rewrite bool_decide_eq_false_2
        by (intros Hs; exact (short_link_not_canonical _ Hs Hc)).
      by rewrite (bool_decide_eq_true_2 _ Hc), Hw, He.
    + intros Hc Hw He Hv.
      rewrite bool_decide_eq_false_2
        by (intros Hs; exact (short_link_not_canonical _ Hs Hc)).
      by rewrite (bool_decide_eq_true_2 _ Hc), Hw, He, Hv.
    + intros Hc Hw He Hv.
      rewrite bool_decide_eq_false_2
        by (intros Hs; exact (short_link_not_canonical _ Hs Hc)).
      by rewrite (bool_decide_eq_true_2 _ Hc), Hw, He, Hv.
    + intros Hs Hc.
      by rewrite (bool_decide_eq_false_2 _ Hs), (bool_decide_eq_false_2 _ Hc).
  - vm_compute. reflexivity.
  - vm_compute. reflexivity.
Qed.

(** The embed URL of the specification, by that lemma. *)
Example get_video_id_from_url_embed :
  get_video_id_from_url (RT := example_runtime)
    (py "https://www.youtube.com/embed/qq111?x=1")
  = Some (strip_after_separators
            (strip_query (segment_after (py "/embed/") (py "/embed/qq111")))).
Proof.
  destruct (proj1 (proj2 (get_video_id_from_url_by_shape (RT := example_runtime)))
              (py "https://www.youtube.com/embed/qq111?x=1")
              {| Urllib.netloc := py "www.youtube.com";
                 Urllib.path := py "/embed/qq111";
                 Urllib.query := py "x=1" |} eq_refl)
    as (_ & _ & Hembed & _).
  apply Hembed.
  - left. reflexivity.
  - reflexivity.
  - reflexivity.
Qed.

(** C7 fails on the code for an embed URL whose identifier begins with
    [watch].  The URL parses, its host is a canonical one, its path holds
    [/embed/] and the segment after that marker is the identifier; yet
    [get_video_id_from_url] returns [None], in every runtime: the path
    also holds [/watch], the test for that comes first, and the query has
    no parameter [v].  The same happens after [/v/]. *)
Theorem C7_embed_identifier_is_lost {RT : PyRuntime} :
  (exists parsed,
      Urllib.urlparse (py "https://www.youtube.com/embed/watchAB_9-z")
      = Ok parsed
      /\ canonical_host (Urllib.hostname parsed)
      /\ contains (py "/embed/") (Urllib.path parsed) = true
      /\ strip_after_separators
           (strip_query (segment_after (py "/embed/") (Urllib.path parsed)))
         = py "watchAB_9-z")
  /\ get_video_id_from_url (py "https://www.youtube.com/embed/watchAB_9-z")
     = None
  /\ get_video_id_from_url (py "https://www.youtube.com/v/watchAB_9-z")
     = None.
Proof.
  split; [|split].
  - exists {| Urllib.netloc := py "www.youtube.com";
              Urllib.path := py "/embed/watchAB_9-z";
              Urllib.query := [] |}.
    split; [vm_compute; reflexivity|].
    split; [left; vm_compute; reflexivity|].
    split; vm_compute; reflexivity.
  - vm_compute. reflexivity.
  - vm_compute. reflexivity.
Qed.

(** C8, as the code has it.  A value that [get_video_id_from_url] returns
    holds neither [&] nor [?]. *)
Theorem C8_identifier_has_no_separator {RT : PyRuntime} (url v : pystr) :
  get_video_id_from_url url = Some v ->
  has_char 38 v = false /\ has_char 63 v = false.
Proof.
  rewrite get_video_id_from_url_unfold.
  destruct (Urllib.urlparse url) as [parsed|e]; [|done].
  match goal with |- _ <$> ?x = _ -> _ => destruct x as [id|] end; [|done].
  intros [= <-]. apply strip_after_separators_clean.
Qed.

Lemma C8_witness :
  has_char 38 (py "xyz789") = false /\ has_char 63 (py "xyz789") = false.
Proof.
  apply (C8_identifier_has_no_separator (RT := example_runtime)
           (py "https://www.youtube.com/watch?v=xyz789&t=30")).
  vm_compute. reflexivity.
Defined.

(** C8, as stated, fails on a short link without an identifier: the value
    returned is the empty string, not [None]. *)
Lemma C8_counterexample :
  exists v,
    get_video_id_from_url (RT := example_runtime) (py "https://youtu.be/")
    = Some v
    /\ ~ (v <> [] /\ has_char 38 v = false /\ has_char 63 v = false).
Proof.
  exists []. split.
  - vm_compute. reflexivity.
  - intros [Hne _]. by apply Hne.
Qed.

(** ** The tag extractor *)

(** C9, at the input where the code departs from it.  On a page whose
    keywords are ["music"] and [" music"], the two tags differ as they are
    matched, so both pass the test against [seen]; both are stripped as
    they are appended, and the list returned holds ["music"] twice. *)
Theorem C9_stripped_tag_twice :
  collect_tags tag_patterns page_with_spaced_tag = [py "music"; py " music"]
  /\ tags_of_page page_with_spaced_tag = [py "music"; py "music"]
  /\ ~ NoDup (tags_of_page page_with_spaced_tag)
  /\ get_youtube_tags
       (NET := example_network
                 (fun _ => Ok {| status_code := 200;
                                 text := page_with_spaced_tag;
                                 json_title := Raise JSONDecodeError |}))
       (py "https://youtu.be/abc123") []
     = ([py "music"; py "music"], [py "https://youtu.be/abc123"]).
Proof.
  assert (tags_of_page page_with_spaced_tag = [py "music"; py "music"]) as Htags
    by (vm_compute; reflexivity).
  split; [|split; [|split]].
  - vm_compute. reflexivity.
  - exact Htags.
  - rewrite Htags. intros Hnd. apply NoDup_cons in Hnd as [Hnotin _].
    apply Hnotin, list_elem_of_here.
  - vm_compute. reflexivity.
Qed.

(** ** The normalizer *)

Section StringFacts.
Implicit Types (s old new sep cur : pystr) (P : N -> Prop).

Lemma length_lstrip s : (length (lstrip s) <= length s)%nat.
Proof.
  induction s as [|c s IH]; cbn; [lia|]. destruct (isspace c); cbn; lia.
Qed.

Lemma length_strip s : (length (strip s) <= length s)%nat.
Proof.
  unfold strip, rstrip. rewrite length_rev.
  etransitivity; [apply length_lstrip|]. rewrite length_rev. apply length_lstrip.
Qed.

Lemma Forall_lstrip P s : Forall P s -> Forall P (lstrip s).
Proof.
  induction 1 as [|c s Hc Hs IH]; cbn; [constructor|].
  destruct (isspace c); [done|by constructor].
Qed.

Lemma Forall_strip P s : Forall P s -> Forall P (strip s).
Proof.
  intros Hs. unfold strip, rstrip.
  apply Forall_rev, Forall_lstrip, Forall_rev, Forall_lstrip, Hs.
Qed.

Lemma Forall_replace_go P old new s k :
  Forall P new -> Forall P s -> Forall P (replace_go old new s k).
Proof.
  intros Hnew Hs; revert k; induction Hs as [|c s Hc Hs IH]; intros k; cbn;
    [constructor|].
  destruct k; [|done].
  destruct (startswith old (c :: s)); [apply Forall_app; by split|by constructor].
Qed.

Lemma Forall_replace P old new s :
  Forall P new -> Forall P s -> Forall P (replace old new s).
Proof. apply Forall_replace_go. Qed.

Lemma Forall_split_go P sep s k cur :
  Forall P s -> Forall P cur -> Forall (Forall P) (split_go sep s k cur).
Proof.
  intros Hs; revert k cur; induction Hs as [|c s Hc Hs IH]; intros k cur Hcur;
    cbn.
  - constructor; [by apply Forall_rev|constructor].
  - destruct k; [|by apply IH].
    destruct (startswith sep (c :: s)).
    + constructor; [by apply Forall_rev|]. apply IH. constructor.
    + apply IH. by constructor.
Qed.

Lemma Forall_join P sep (l : list pystr) :
  Forall P sep -> Forall (Forall P) l -> Forall P (join sep l).
Proof.
  intros Hsep; induction 1 as [|x l Hx Hl IH]; cbn; [constructor|].
  destruct l; [done|]. apply Forall_app; split; [done|].
  apply Forall_app; by split.
Qed.

Lemma Forall_sub_newlines_go P s run :
  Forall P s -> Forall P (sub_newlines_go s run).
Proof.
  intros Hs; revert run; induction Hs as [|c s Hc Hs IH]; intros run;
    cbn [sub_newlines_go]; [constructor|].
  repeat case_match; try constructor; auto.
Qed.

(** Splitting at a character and joining with it gives the text back. *)
Lemma split_go_nonempty sep s k cur : split_go sep s k cur <> [].
Proof.
  revert k cur; induction s as [|c s IH]; intros k cur; cbn; [done|].
  destruct k; [|apply IH]. destruct (startswith sep (c :: s)); [done|apply IH].
Qed.

Lemma join_cons sep x (l : list pystr) :
  l <> [] -> join sep (x :: l) = x ++ sep ++ join sep l.
Proof. by destruct l. Qed.

Lemma join_split_go c s cur :
  join [c] (split_go [c] s O cur) = rev cur ++ s.
Proof.
  revert cur; induction s as [|a s IH]; intros cur; cbn [split_go].
  - cbn [join]. by rewrite app_nil_r.
  - cbn [startswith]. rewrite andb_true_r.
    destruct (c =? a) eqn:Heq.
    + apply N.eqb_eq in Heq as <-. cbn [length Nat.pred].
      rewrite join_cons by apply split_go_nonempty. by rewrite IH.
    + rewrite IH. cbn [rev]. by rewrite <- app_assoc.
Qed.

Lemma join_split c s : join [c] (split [c] s) = s.
Proof. apply join_split_go. Qed.

Lemma lstrip_fixed s :
  match s with [] => True | c :: _ => isspace c = false end -> lstrip s = s.
Proof. destruct s as [|c s]; [done|]. cbn. by intros ->. Qed.

Lemma last_rev_head (s : pystr) c d : List.last (c :: s) d = hd d (rev (c :: s)).
Proof.
  rewrite <- (rev_involutive (c :: s)) at 1.
  destruct (rev (c :: s)) as [|x l] eqn:Hr.
  - apply (f_equal (@length N)) in Hr. rewrite length_rev in Hr. done.
  - cbn [rev hd]. apply List.last_last.
Qed.

Lemma strip_trimmed s : trimmed s = true -> strip s = s.
Proof.
  destruct s as [|c s]; [done|]. unfold trimmed.
  intros [Hc Hl]%andb_prop. apply negb_true_iff in Hc, Hl.
  unfold strip, rstrip. rewrite (lstrip_fixed (c :: s)) by done.
  rewrite last_rev_head in Hl.
  rewrite lstrip_fixed; [apply rev_involutive|].
  by destruct (rev (c :: s)).
Qed.

Lemma strip_lines_trimmed (lines : list pystr) :
  forallb trimmed lines = true -> strip <$> lines = lines.
Proof.
  induction lines as [|l lines IH]; [done|]. cbn.
  intros [Hl Hls]%andb_prop. by rewrite (strip_trimmed _ Hl), IH.
Qed.

(** The head of a stripped text is not white space. *)
Lemma lstrip_head s :
  match lstrip s with [] => True | c :: _ => isspace c = false end.
Proof.
  induction s as [|c s IH]; [done|]. cbn. by destruct (isspace c) eqn:Hc.
Qed.

Lemma strip_head s c t : strip s = c :: t -> isspace c = false.
Proof.
  unfold strip, rstrip. intros Hs.
  pose proof (lstrip_head s) as Hh.
  destruct (lstrip s) as [|a l] eqn:Hl; [done|].
  assert (exists l', rev (lstrip (rev (a :: l))) = a :: l') as [l' Hl'].
  { clear Hs.
    assert (forall (u : pystr) v, lstrip (u ++ [a]) = v ->
                   exists l', rev v = a :: l') as Haux.
    { induction u as [|x u IHu]; intros v; cbn.
      - rewrite Hh. intros <-. by exists [].
      - destruct (isspace x); [apply IHu|].
        intros <-. cbn [rev]. rewrite rev_unit. by eexists. }
    cbn [rev]. exact (Haux (rev l) _ eq_refl). }
  rewrite Hl' in Hs. by injection Hs as <- _.
Qed.

End StringFacts.

(** Tactics for tests on numbers and for quotients by a constant. *)
Ltac bools :=
  repeat match goal with
    | H : _ && _ = true |- _ => apply andb_prop in H as [? ?]
    | H : negb _ = true |- _ => apply negb_true_iff in H
    | H : (_ <=? _) = true |- _ => apply N.leb_le in H
    | H : (_ <? _) = true |- _ => apply N.ltb_lt in H
    | H : (_ <=? _) = false |- _ => apply N.leb_gt in H
    | H : (_ <? _) = false |- _ => apply N.ltb_ge in H
    | H : (_ =? _) = true |- _ => apply N.eqb_eq in H
    | H : (_ =? _) = false |- _ => apply N.eqb_neq in H
    end.

Ltac shorter := cbn [length] in *; lia.

Ltac divmod a b :=
  let q := fresh "q" in
  let r := fresh "r" in
  pose proof (N.div_mod' a b);
  pose proof (N.mod_lt a b ltac:(discriminate));
  set (q := a / b) in *; set (r := a mod b) in *; clearbody q r.

Ltac decide_tests :=
  repeat match goal with
    | |- context [?a <? ?b] =>
        first [ rewrite (proj2 (N.ltb_lt a b)) by lia
              | rewrite (proj2 (N.ltb_ge a b)) by lia ]
    | |- context [?a <=? ?b] =>
        first [ rewrite (proj2 (N.leb_le a b)) by lia
              | rewrite (proj2 (N.leb_gt a b)) by lia ]
    end.

Section CodecFacts.
Context {RT : PyRuntime}.
Import Codecs.

Lemma decoded_cons c (r : result pystr) :
  is_code_point c -> decoded r -> decoded (cons c <$> r).
Proof. intros Hc. destruct r as [s|e]; cbn; [by constructor|done]. Qed.

Lemma decoded_hex ds (r : result pystr) : decoded r -> decoded (hex_escape ds r).
Proof.
  intros Hr. unfold hex_escape. destruct (hex_value 0 ds) as [v|]; [|done].
  destruct (v <=? 0x10FFFF) eqn:Hv; [|done].
  apply decoded_cons; [|done]. by apply N.leb_le.
Qed.

(** The UTF-8 decoder gives code points and raises only its own error. *)
Lemma utf8_decode_decoded_aux n :
  forall b, (length b < n)%nat -> decoded (utf8_decode b).
Proof.
  induction n as [|n IH]; [lia|]. intros b Hlen.
  destruct b as [|b1 r1]; [constructor|]. cbn [utf8_decode].
  destruct (b1 <? 0x80) eqn:H1.
  { bools. apply decoded_cons; [unfold is_code_point; lia|apply IH; shorter]. }
  destruct ((0xC2 <=? b1) && (b1 <=? 0xDF)) eqn:H2.
  { destruct r1 as [|b2 r2]; [done|]. unfold is_cont, cont.
    destruct ((0x80 <=? b2) && (b2 <=? 0xBF)) eqn:Hc; [|done]. bools.
    apply decoded_cons; [unfold is_code_point; lia|apply IH; shorter]. }
  destruct ((0xE0 <=? b1) && (b1 <=? 0xEF)) eqn:H3.
  { destruct r1 as [|b2 [|b3 r3]]; [done..|]. unfold is_cont, cont.
    match goal with |- decoded (if ?c then _ else _) => destruct c eqn:Hc end;
      [|done].
    bools. apply decoded_cons; [unfold is_code_point; lia|apply IH; shorter]. }
  destruct ((0xF0 <=? b1) && (b1 <=? 0xF4)) eqn:H4; [|done].
  destruct r1 as [|b2 [|b3 [|b4 r4]]]; [done..|]. unfold is_cont, cont.
  match goal with |- decoded (if ?c then _ else _) => destruct c eqn:Hc end;
    [|done].
  bools. apply decoded_cons; [done|apply IH; shorter].
Qed.

Lemma utf8_decode_decoded b : decoded (utf8_decode b).
Proof. apply (utf8_decode_decoded_aux (S (length b))). lia. Qed.

(** A code point goes through UTF-8 and back. *)
Lemma utf8_decode_char c bs :
  is_code_point c -> is_surrogate c = false ->
  utf8_decode (utf8_char c ++ bs) = cons c <$> utf8_decode bs.
Proof.
  unfold is_code_point, is_surrogate, utf8_char. intros Hc Hs.
  destruct (c <? 0x80) eqn:H1; bools.
  { cbn [app utf8_decode]. by decide_tests. }
  destruct (c <? 0x800) eqn:H2; bools.
  { cbn [app utf8_decode]. unfold is_cont, cont.
    divmod c 64. decide_tests. cbn [andb].
    do 2 f_equal. lia. }
  destruct (c <? 0x10000) eqn:H3; bools.
  { assert (c < 0xD800 \/ 0xDFFF < c) as Hnot.
    { destruct (0xD800 <=? c) eqn:Ha; destruct (c <=? 0xDFFF) eqn:Hb;
        try discriminate; bools; lia. }
    clear Hs. cbn [app utf8_decode]. unfold is_cont, cont, is_surrogate.
    replace (c / 4096) with (c / 64 / 64)
      by (rewrite N.Div0.div_div; reflexivity).
    divmod c 64. divmod q 64.
    replace (4096 * (224 + q0 - 224) + 64 * (128 + r0 - 128) + (128 + r - 128))
      with c by lia.
    decide_tests. cbn [andb].
    destruct Hnot; decide_tests; cbn [andb negb]; reflexivity. }
  clear Hs. cbn [app utf8_decode]. unfold is_cont, cont.
  replace (c / 262144) with (c / 64 / 64 / 64)
    by (rewrite !N.Div0.div_div; reflexivity).
  replace (c / 4096) with (c / 64 / 64)
    by (rewrite N.Div0.div_div; reflexivity).
  divmod c 64. divmod q 64. divmod q0 64.
  replace (262144 * (240 + q1 - 240) + 4096 * (128 + r1 - 128)
           + 64 * (128 + r0 - 128) + (128 + r - 128)) with c by lia.
  decide_tests. cbn [andb]. reflexivity.
Qed.

(** Encoding with [errors='replace'] and decoding never fails. *)
Lemma utf8_decode_encode_replace s :
  valid_str s ->
  utf8_decode (utf8_encode_replace s)
  = Ok ((fun c => if is_surrogate c then 63 else c) <$> s).
Proof.
  induction 1 as [|c s Hc Hs IH]; [done|]. cbn [utf8_encode_replace fmap list_fmap].
  destruct (is_surrogate c) eqn:Hsur.
  - cbn [app utf8_decode]. change (63 <? 128) with true. cbn match. by rewrite IH.
  - rewrite utf8_decode_char, IH by done. reflexivity.
Qed.

(** The encoders raise only [UnicodeEncodeError]. *)
Lemma utf8_encode_raises s e : utf8_encode s = Raise e -> e = UnicodeEncodeError.
Proof.
  induction s as [|c s IH]; [done|]. cbn [utf8_encode].
  destruct (is_surrogate c); [by intros [= <-]|].
  destruct (utf8_encode s); [done|]. cbn. intros [= <-]. by apply IH.
Qed.

Lemma latin1_encode_raises s e : latin1_encode s = Raise e -> e = UnicodeEncodeError.
Proof.
  induction s as [|c s IH]; [done|]. cbn [latin1_encode].
  destruct (c <=? 255); [|by intros [= <-]].
  destruct (latin1_encode s); [done|]. cbn. intros [= <-]. by apply IH.
Qed.

Lemma utf8_encode_bytes s b :
  valid_str s -> utf8_encode s = Ok b -> valid_str b.
Proof.
  intros Hs; revert b; induction Hs as [|c s Hc Hs IH]; intros b; cbn [utf8_encode].
  - intros [= <-]. constructor.
  - destruct (is_surrogate c); [done|].
    destruct (utf8_encode s) as [bs|]; [|done]. cbn. intros [= <-].
    apply Forall_app; split; [|by apply IH].
    unfold is_code_point in *. unfold utf8_char.
    repeat case_match; bools; repeat constructor; unfold is_code_point;
      try lia.
    all: try (divmod c 64; lia).
    all: try (replace (c / 4096) with (c / 64 / 64)
                by (rewrite N.Div0.div_div; reflexivity);
              divmod c 64; divmod q 64; lia).
    all: replace (c / 262144) with (c / 64 / 64 / 64)
           by (rewrite !N.Div0.div_div; reflexivity);
         try replace (c / 4096) with (c / 64 / 64)
           by (rewrite N.Div0.div_div; reflexivity);
         divmod c 64; divmod q 64; divmod q0 64; lia.
Qed.

End CodecFacts.

Section EscapeFacts.
Context {RT : PyRuntime}.
Import Codecs.

Ltac escape_step IH :=
  match goal with
  | |- decoded (Raise _) => reflexivity
  | |- decoded (cons _ <$> _) => apply decoded_cons
  | |- decoded (hex_escape _ _) => apply decoded_hex
  | |- decoded (unicode_escape_bytes _) => apply IH
  | |- decoded (if ?t then _ else _) => destruct t eqn:?
  | |- decoded (match ?l with [] => _ | _ :: _ => _ end) => destruct l
  | H : valid_str (_ :: _) |- _ => apply Forall_cons in H as [? ?]
  | H : Forall _ (_ :: _) |- _ => apply Forall_cons in H as [? ?]
  end.

(** The [unicode_escape] decoder gives code points and raises only
    [UnicodeDecodeError]. *)
Lemma unicode_escape_bytes_decoded_aux n :
  forall b, (length b < n)%nat -> valid_str b ->
            decoded (unicode_escape_bytes b).
Proof.
  induction n as [|n IH]; [lia|]. intros b Hlen Hv.
  destruct b as [|c r]; [constructor|]. cbn [unicode_escape_bytes].
  repeat escape_step IH.
  all: try assumption.
  all: try (constructor; assumption).
  all: try shorter.
  all: try (unfold is_code_point; lia).
  all: try (unfold is_octal in *; bools; unfold is_code_point; lia).
  (* the name of a character, up to the closing brace *)
  match goal with
  | |- decoded (?scan ?r2 []) =>
      assert (forall l name, (length l <= length r2)%nat -> valid_str l ->
                             decoded (scan l name)) as Hscan;
      [|apply Hscan; [lia|assumption]]
  end.
  induction l as [|ch l IHl]; intros name Hl Hvl; [reflexivity|].
  apply Forall_cons in Hvl as [Hch Hvl].
  destruct (ch =? 125) eqn:Hbrace.
  - destruct name as [|x name]; [reflexivity|].
    destruct (unicodedata_lookup (rev (x :: name))) as [v|] eqn:Hlook;
      [|reflexivity].
    apply decoded_cons.
    + exact (unicodedata_lookup_range _ _ Hlook).
    + apply IH; [shorter|assumption].
  - apply IHl; [shorter|assumption].
Qed.

Lemma unicode_escape_decode_decoded s :
  valid_str s ->
  match unicode_escape_decode s with
  | Ok d => valid_str d
  | Raise e => e = UnicodeDecodeError \/ e = UnicodeEncodeError
  end.
Proof.
  intros Hs. unfold unicode_escape_decode.
  destruct (utf8_encode s) as [b|e] eqn:Hb; cbn.
  - pose proof (unicode_escape_bytes_decoded_aux (S (length b)) b
                  ltac:(lia) (utf8_encode_bytes _ _ Hs Hb)) as Hd.
    destruct (unicode_escape_bytes b); [done|by left].
  - right. by apply utf8_encode_raises in Hb.
Qed.

End EscapeFacts.

Section BodyFacts.
Context {RT : PyRuntime}.
Import Codecs.

Lemma valid_filter (f : N -> bool) s : valid_str s -> valid_str (List.filter f s).
Proof.
  induction 1 as [|c s Hc Hs IH]; cbn; [constructor|].
  destruct (f c); [by constructor|done].
Qed.

(** The first step: the escapes are decoded, or the text is kept. *)
Lemma decode_step (s : pystr) :
  valid_str s ->
  exists d,
    try_except (unicode_escape_decode s)
      (fun e => is_UnicodeDecodeError e || is_UnicodeEncodeError e)
      (fun _ => Ok s) = Ok d
    /\ valid_str d.
Proof.
  intros Hs. pose proof (unicode_escape_decode_decoded s Hs) as Hd.
  destruct (unicode_escape_decode s) as [d|e]; cbn.
  - by exists d.
  - exists s. by destruct Hd as [-> | ->].
Qed.

(** The repair of a text decoded one layer too early always ends. *)
Lemma repair_step (s : pystr) :
  valid_str s ->
  exists d,
    try_except
      (if has_char 240 s || existsb (fun c => 255 <? c) s
       then b ← latin1_encode s; utf8_decode b
       else Ok s)
      (fun e => is_UnicodeDecodeError e || is_UnicodeEncodeError e
                || is_AttributeError e)
      (fun _ =>
         try_except (utf8_decode (utf8_encode_ignore s))
           (fun e => is_UnicodeDecodeError e || is_UnicodeEncodeError e)
           (fun _ => Ok (List.filter (fun c => c <? 128) s))) = Ok d
    /\ valid_str d.
Proof.
  intros Hs.
  assert (exists d,
             try_except (utf8_decode (utf8_encode_ignore s))
               (fun e => is_UnicodeDecodeError e || is_UnicodeEncodeError e)
               (fun _ => Ok (List.filter (fun c => c <? 128) s)) = Ok d
             /\ valid_str d) as (d2 & Hd2 & Hv2).
  { pose proof (utf8_decode_decoded (utf8_encode_ignore s)) as Hd.
    destruct (utf8_decode (utf8_encode_ignore s)) as [d|e]; cbn.
    - by exists d.
    - cbn in Hd. subst e. cbn. eexists; split; [done|by apply valid_filter]. }
  destruct (has_char 240 s || existsb (fun c => 255 <? c) s); [|by exists s].
  destruct (latin1_encode s) as [b|e] eqn:Hb.
  - cbn [mbind result_bind].
    pose proof (utf8_decode_decoded b) as Hd.
    destruct (utf8_decode b) as [d|e]; cbn.
    + by exists d.
    + cbn in Hd. subst e. cbn. by exists d2.
  - apply latin1_encode_raises in Hb as ->. cbn. by exists d2.
Qed.

(** The last pass through UTF-8 always ends. *)
Lemma reencode_step (s : pystr) :
  valid_str s ->
  exists d,
    try_except (b ← utf8_encode s; utf8_decode b) is_UnicodeError
      (fun _ => utf8_decode (utf8_encode_replace s)) = Ok d.
Proof.
  intros Hs.
  destruct (utf8_encode s) as [b|e] eqn:Hb.
  - cbn [mbind result_bind].
    pose proof (utf8_decode_decoded b) as Hd.
    destruct (utf8_decode b) as [d|e]; cbn.
    + by exists d.
    + cbn in Hd. subst e. cbn. rewrite utf8_decode_encode_replace by done.
      by eexists.
  - apply utf8_encode_raises in Hb as ->. cbn.
    rewrite utf8_decode_encode_replace by done. by eexists.
Qed.

Lemma length_truncated (s : pystr) :
  (length (if (2000 <? length s)%nat then take 2000 s ++ py "..." else s)
   <= 2003)%nat.
Proof.
  destruct (2000 <? length s)%nat eqn:Hlen.
  - rewrite length_app, length_take. change (length (py "...")) with 3%nat. lia.
  - apply Nat.ltb_ge in Hlen. lia.
Qed.

(** The body of [clean_description] returns, with at most 2003
    characters. *)
Lemma clean_description_body_returns (raw : pystr) :
  valid_str raw ->
  exists d, clean_description_body raw = Ok d /\ (length d <= 2003)%nat.
Proof.
  intros Hraw. unfold clean_description_body.
  destruct (decode_step raw Hraw) as (d1 & -> & Hd1). rewrite result_bind_ok.
  set (d2 := replace [92; 92] [92] _).
  assert (valid_str d2) as Hd2.
  { subst d2. repeat apply Forall_replace; try done;
      repeat constructor; unfold is_code_point; lia. }
  destruct (repair_step d2 Hd2) as (d3 & -> & Hd3). rewrite result_bind_ok.
  set (d5 := sub_newlines _).
  assert (valid_str d5) as Hd5.
  { subst d5. apply Forall_sub_newlines_go, Forall_join.
    - repeat constructor. unfold is_code_point, NL. lia.
    - apply Forall_fmap. eapply Forall_impl.
      + apply (Forall_split_go is_code_point); [done|constructor].
      + intros l Hl. by apply Forall_strip. }
  destruct (reencode_step d5 Hd5) as (d6 & ->).
  rewrite result_bind_ok. eexists; split; [reflexivity|].
  etransitivity; [apply length_strip|apply length_truncated].
Qed.

End BodyFacts.

Section CleanFacts.
Context {RT : PyRuntime}.
Import Codecs.

Lemma utf8_encode_ascii s : forallb isascii s = true -> utf8_encode s = Ok s.
Proof.
  induction s as [|c s IH]; [done|]. cbn [forallb utf8_encode].
  intros [Hc Hs]%andb_prop. unfold isascii in Hc. bools.
  unfold is_surrogate, utf8_char. rewrite IH by done.
  by decide_tests.
Qed.

Lemma utf8_decode_ascii s : forallb isascii s = true -> utf8_decode s = Ok s.
Proof.
  induction s as [|c s IH]; [done|]. cbn [forallb utf8_decode].
  intros [Hc Hs]%andb_prop. unfold isascii in Hc. rewrite Hc, IH by done.
  reflexivity.
Qed.

Lemma unicode_escape_bytes_plain s :
  has_char BACKSLASH s = false -> unicode_escape_bytes s = Ok s.
Proof.
  unfold has_char, BACKSLASH.
  induction s as [|c s IH]; [done|]. cbn [existsb unicode_escape_bytes].
  intros [Hc Hs]%orb_false_elim. rewrite N.eqb_sym in Hc.
  rewrite Hc, IH by done. reflexivity.
Qed.

Lemma replace_go_absent old new s :
  has_char BACKSLASH s = false ->
  replace_go (BACKSLASH :: old) new s O = s.
Proof.
  unfold has_char.
  induction s as [|c s IH]; [done|]. cbn [existsb replace_go startswith].
  intros [Hc Hs]%orb_false_elim. rewrite Hc, IH by done. reflexivity.
Qed.

Lemma replace_absent old new s :
  has_char BACKSLASH s = false -> replace (BACKSLASH :: old) new s = s.
Proof. apply replace_go_absent. Qed.

Lemma ascii_not_garbled s :
  forallb isascii s = true ->
  has_char 240 s || existsb (fun c => 255 <? c) s = false.
Proof.
  unfold has_char.
  induction s as [|c s IH]; [done|]. cbn [forallb existsb].
  intros [Hc Hs]%andb_prop. unfold isascii in Hc. bools.
  destruct (orb_false_elim _ _ (IH Hs)) as [-> ->].
  rewrite !orb_false_r. apply orb_false_intro; [apply N.eqb_neq|apply N.ltb_ge]; lia.
Qed.

Lemma contains_tail sub c s : contains sub (c :: s) = false ->
  startswith sub (c :: s) = false /\ contains sub s = false.
Proof. cbn [contains]. apply orb_false_elim. Qed.

(** A text without three newlines in a row has no run to shorten. *)
Lemma sub_newlines_go_fixed s run :
  (run <= 2)%nat ->
  startswith (repeat NL (3 - run)) s = false ->
  contains [NL; NL; NL] s = false ->
  sub_newlines_go s run = s.
Proof.
  revert run; induction s as [|c s IH]; intros run Hrun Hstart Hno; [done|].
  apply contains_tail in Hno as [Htriple Hno].
  cbn [sub_newlines_go]. destruct (c =? NL) eqn:Hc.
  - apply N.eqb_eq in Hc as ->.
    destruct run as [|[|[|run]]]; [| | |lia].
    + cbn [Nat.ltb Nat.leb]. f_equal. apply IH; [lia| |done].
      cbn [repeat Nat.sub startswith] in *. by rewrite N.eqb_refl in Hstart.
    + cbn [Nat.ltb Nat.leb]. f_equal. apply IH; [lia| |done].
      cbn [repeat Nat.sub startswith] in *. by rewrite N.eqb_refl in Hstart.
    + cbn [repeat Nat.sub startswith] in Hstart.
      by rewrite N.eqb_refl in Hstart.
  - f_equal. apply (IH O); [lia| |done].
    destruct s as [|a s]; [done|]. by apply contains_tail in Hno as [? _].
Qed.

Lemma sub_newlines_fixed s :
  contains [NL; NL; NL] s = false -> sub_newlines s = s.
Proof.
  intros Hno. apply sub_newlines_go_fixed; [lia| |done].
  destruct s as [|a s]; [done|]. by apply contains_tail in Hno as [? _].
Qed.

Lemma already_clean_parts s :
  already_clean s = true ->
  forallb isascii s = true
  /\ has_char BACKSLASH s = false
  /\ forallb trimmed (split [NL] s) = true
  /\ trimmed s = true
  /\ contains [NL; NL; NL] s = false.
Proof.
  unfold already_clean. intros Hclean.
  repeat match goal with
    | H : _ && _ = true |- _ => apply andb_prop in H as [? ?]
    | H : negb _ = true |- _ => apply negb_true_iff in H
    end.
  by repeat split.
Qed.

(** On an already-clean text only the trimming to 2000 characters and the
    last [strip] are left to do. *)
Lemma clean_description_body_clean s :
  already_clean s = true ->
  clean_description_body s = Ok (strip (truncated s)).
Proof.
  intros (Hascii & Hback & Hlines & Htrim & Hruns)%already_clean_parts.
  unfold clean_description_body, unicode_escape_decode.
  rewrite (utf8_encode_ascii _ Hascii), result_bind_ok.
  rewrite (unicode_escape_bytes_plain _ Hback).
  cbn [try_except]. rewrite result_bind_ok.
  change [92; 110] with (BACKSLASH :: [110]).
  change [92; 114] with (BACKSLASH :: [114]).
  change [92; 116] with (BACKSLASH :: [116]).
  change [92; 34] with (BACKSLASH :: [34]).
  change [92; 39] with (BACKSLASH :: [39]).
  change [92; 92] with (BACKSLASH :: [92]).
  rewrite !(replace_absent _ _ _ Hback).
  rewrite (ascii_not_garbled _ Hascii). cbn [try_except]. rewrite result_bind_ok.
  rewrite (strip_lines_trimmed _ Hlines), join_split.
  rewrite (sub_newlines_fixed _ Hruns).
  rewrite (utf8_encode_ascii _ Hascii), result_bind_ok.
  rewrite (utf8_decode_ascii _ Hascii). cbn [try_except]. rewrite result_bind_ok.
  reflexivity.
Qed.

End CleanFacts.

Section TruncationFacts.
Context {RT : PyRuntime}.
Implicit Types (s u cur : pystr).

Lemma trimmed_head u : trimmed u = true -> head_not_space u.
Proof.
  destruct u as [|c u]; [done|]. cbn.
  by intros [Hc%negb_true_iff _]%andb_prop.
Qed.

Lemma head_not_space_app u v : head_not_space (u ++ v) -> u <> [] -> head_not_space u.
Proof. by destruct u. Qed.

(** A text that ends with the ellipsis is trimmed when its head is. *)
Lemma trimmed_with_dots u : head_not_space u -> trimmed (u ++ py "...") = true.
Proof.
  destruct u as [|c u]; [done|]. intros Hc. cbn in Hc.
  change ((c :: u) ++ py "...") with (c :: (u ++ py "...")).
  unfold trimmed. rewrite Hc. cbn [negb andb].
  change (c :: u ++ py "...") with ((c :: u) ++ [46; 46] ++ [46]).
  rewrite app_assoc, List.last_last. reflexivity.
Qed.

Lemma split_go_dots cur :
  split_go [NL] (py "...") O cur = [rev cur ++ py "..."].
Proof.
  change (py "...") with [46; 46; 46]. cbn [split_go startswith].
  change (NL =? 46) with false. cbn [andb rev]. by rewrite <- !app_assoc.
Qed.

Lemma first_line_head s cur :
  forallb trimmed (split_go [NL] s O cur) = true -> head_not_space (rev cur).
Proof.
  rewrite split_go_spec by done. cbn [forallb].
  intros [Hfirst%trimmed_head _]%andb_prop.
  destruct (rev cur) as [|a l]; [done|]. exact Hfirst.
Qed.

(** The lines of a text cut short and closed with the ellipsis are
    trimmed when those of the text are. *)
Lemma lines_of_truncation s n cur :
  forallb trimmed (split_go [NL] s O cur) = true ->
  forallb trimmed (split_go [NL] (take n s ++ py "...") O cur) = true.
Proof.
  revert n cur; induction s as [|c s IH]; intros n cur Hlines.
  - rewrite take_nil. cbn [app]. rewrite split_go_dots. cbn [forallb].
    rewrite andb_true_r. apply trimmed_with_dots.
    by apply (first_line_head []).
  - destruct n as [|n].
    + cbn [take app]. rewrite split_go_dots. cbn [forallb].
      rewrite andb_true_r. apply trimmed_with_dots.
      by apply (first_line_head (c :: s)).
    + cbn [take app] in *. cbn [split_go startswith] in *.
      rewrite andb_true_r in *.
      destruct (NL =? c); cbn [length Nat.pred forallb] in *.
      * apply andb_prop in Hlines as [Hcur Hrest].
        rewrite Hcur. cbn [andb]. by apply IH.
      * by apply IH.
Qed.

Lemma startswith_truncation t u m :
  Forall (fun x => x <> 46) t ->
  startswith t (take m u ++ py "...") = true -> startswith t u = true.
Proof.
  intros Ht; revert u m; induction Ht as [|a t Ha Ht IH]; intros u m; [done|].
  destruct u as [|b u], m as [|m]; cbn [take app].
  1-3: change (py "...") with [46; 46; 46]; cbn [startswith];
       intros [Hab%N.eqb_eq _]%andb_prop; done.
  cbn [startswith]. intros [-> Hrest]%andb_prop. by rewrite (IH _ _ Hrest).
Qed.

Lemma contains_truncation t s n :
  t <> [] ->
  Forall (fun x => x <> 46) t ->
  contains t s = false -> contains t (take n s ++ py "...") = false.
Proof.
  intros Hne Ht. assert (forall d, contains t (take 0 d ++ py "...") = false)
    as Hdots.
  { intros d. replace (take 0 d) with (@nil N) by (by destruct d).
    destruct t as [|a t]; [done|].
    apply Forall_cons in Ht as [Ha _]. change (py "...") with [46; 46; 46].
    cbn [app contains startswith].
    rewrite (proj2 (N.eqb_neq a 46) Ha). reflexivity. }
  revert n; induction s as [|c s IH]; intros n Hno.
  - rewrite take_nil. apply (Hdots []).
  - destruct n as [|n]; [apply (Hdots (c :: s))|].
    apply contains_tail in Hno as [Hstart Hno].
    cbn [take app contains]. rewrite (IH _ Hno), orb_false_r.
    destruct (startswith t (c :: take n s ++ py "...")) eqn:Hs; [|done].
    apply (startswith_truncation t (c :: s) (S n) Ht) in Hs. congruence.
Qed.

Lemma take_with_dots s :
  (2000 < length s)%nat ->
  take 2000 (take 2000 s ++ py "...") = take 2000 s.
Proof.
  intros Hlen. apply take_app_length'. rewrite length_take. lia.
Qed.

Lemma truncated_long s :
  (2000 < length s)%nat -> truncated s = take 2000 s ++ py "...".
Proof.
  intros Hlen. unfold truncated. by rewrite (proj2 (Nat.ltb_lt _ _) Hlen).
Qed.

Lemma truncated_short s : (length s <= 2000)%nat -> truncated s = s.
Proof.
  intros Hlen. unfold truncated. by rewrite (proj2 (Nat.ltb_ge _ _) Hlen).
Qed.

Lemma truncated_twice s : truncated (truncated s) = truncated s.
Proof.
  destruct (Nat.lt_ge_cases 2000 (length s)) as [Hlong|Hshort].
  - rewrite (truncated_long s Hlong), truncated_long.
    + by rewrite take_with_dots.
    + rewrite length_app, length_take. change (length (py "...")) with 3%nat. lia.
  - by rewrite !(truncated_short s Hshort).
Qed.

(** The trimming of a long already-clean text leaves it already clean. *)
Lemma already_clean_truncated s :
  already_clean s = true -> already_clean (truncated s) = true.
Proof.
  intros Hs. destruct (Nat.lt_ge_cases 2000 (length s)) as [Hlong|Hshort];
    [|by rewrite truncated_short].
  rewrite truncated_long by done.
  apply already_clean_parts in Hs as (Hascii & Hback & Hlines & Htrim & Hruns).
  unfold already_clean.
  repeat (apply andb_true_intro; split).
  - rewrite forallb_app. apply andb_true_intro. split; [|done].
    apply forallb_forall. intros x Hx%list_elem_of_In%elem_of_take.
    destruct Hx as (i & Hx%list_elem_of_lookup_2%list_elem_of_In & _).
    by apply (proj1 (forallb_forall _ _) Hascii).
  - apply negb_true_iff. unfold has_char in *. rewrite existsb_app.
    apply orb_false_intro; [|done].
    apply not_true_is_false. intros (x & Hx%list_elem_of_In%elem_of_take & Heq)%existsb_exists.
    destruct Hx as (i & Hx%list_elem_of_lookup_2%list_elem_of_In & _).
    assert (existsb (N.eqb BACKSLASH) s = true) by (apply existsb_exists; eauto).
    congruence.
  - by apply lines_of_truncation.
  - apply trimmed_with_dots. apply trimmed_head in Htrim.
    destruct s as [|c s]; [cbn in Hlong; lia|]. exact Htrim.
  - apply negb_true_iff, contains_truncation; [done| |done].
    repeat constructor; unfold NL; lia.
Qed.

Lemma trimmed_truncated s :
  already_clean s = true -> trimmed (truncated s) = true.
Proof.
  intros Hs%already_clean_truncated.
  by apply already_clean_parts in Hs as (_ & _ & _ & Htrim & _).
Qed.

(** The normalizer on an already-clean text: the text, trimmed to 2000
    characters when it is longer. *)
Lemma clean_description_clean s :
  already_clean s = true -> clean_description s = truncated s.
Proof.
  intros Hs. unfold clean_description.
  rewrite (clean_description_body_clean _ Hs).
  by apply strip_trimmed, trimmed_truncated.
Qed.

End TruncationFacts.

(** C5. On already-clean ASCII text the normalizer is idempotent: cleaning
    the cleaned text gives the cleaned text again, also when the text is
    longer than 2000 characters and the first pass trims it. *)
Theorem C5_idempotent_on_clean_ascii {RT : PyRuntime} (s : pystr) :
  already_clean s = true ->
  clean_description (clean_description s) = clean_description s.
Proof.
  intros Hs. rewrite (clean_description_clean _ Hs).
  rewrite (clean_description_clean _ (already_clean_truncated _ Hs)).
  apply truncated_twice.
Qed.

Lemma C5_witness :
  clean_description (RT := example_runtime)
    (clean_description (RT := example_runtime) long_clean_text)
  = clean_description (RT := example_runtime) long_clean_text.
Proof.
  apply (C5_idempotent_on_clean_ascii (RT := example_runtime)).
  vm_compute. reflexivity.
Defined.

(** The cleaned form of that text is its first 2000 characters and the
    ellipsis: the normalizer is idempotent there without being the
    identity. *)
Remark clean_description_long_clean_text :
  clean_description (RT := example_runtime) long_clean_text
  = take 2000 long_clean_text ++ py "...".
Proof. vm_compute. reflexivity. Qed.

(** Without that condition the normalizer is not idempotent: a doubly
    escaped newline is unescaped once by each pass. *)
Remark clean_description_escapes_twice :
  let s := py "a\\\\nb" in
  clean_description (RT := example_runtime) s = py "a\" ++ [NL] ++ py "b"
  /\ clean_description (RT := example_runtime)
       (clean_description (RT := example_runtime) s) = py "ab".
Proof. split; vm_compute; reflexivity. Qed.

(** C6. For every string, the body of [clean_description] returns, so the
    handler of the outer [try] is not taken and the function does not
    raise, whichever of the inner recovery branches the input drives it
    into; the text returned has at most 2003 characters. *)
Theorem C6_normalizer_returns_bounded_text {RT : PyRuntime} (raw : pystr) :
  valid_str raw ->
  (exists d, clean_description_body raw = Ok d /\ clean_description raw = d)
  /\ (length (clean_description raw) <= 2003)%nat.
Proof.
  intros Hraw.
  destruct (clean_description_body_returns raw Hraw) as (d & Hd & Hlen).
  unfold clean_description. rewrite Hd. split; [by exists d|done].
Qed.

(** A text with the corrupted lead character and a truncated escape: the
    decoder of escapes and the repair both fail and are recovered from. *)
Lemma C6_witness :
  (length (clean_description (RT := example_runtime) garbled_text) <= 2003)%nat.
Proof.
  apply (C6_normalizer_returns_bounded_text (RT := example_runtime)).
  apply (bool_decide_unpack _). vm_compute. reflexivity.
Defined.

Section TagFacts.

Lemma unique_loop_invariant (P : pystr -> Prop) all_tags seen unique_tags :
  (forall tag, (0 < length (strip tag))%nat -> P (strip tag)) ->
  Forall P unique_tags ->
  Forall P (unique_loop all_tags seen unique_tags).
Proof.
  intros Hstrip; revert seen unique_tags.
  induction all_tags as [|tag all_tags IH]; intros seen unique_tags Hu;
    cbn [unique_loop]; [done|].
  destruct (bool_decide (tag ∉ seen)); cbn [andb]; [|by apply IH].
  destruct (0 <? length (strip tag))%nat eqn:Hlen; [|by apply IH].
  apply IH, Forall_app. split; [done|].
  constructor; [|constructor]. apply Hstrip. by apply Nat.ltb_lt.
Qed.


Lemma tags_of_page_not_blank page :
  Forall (fun tag => exists c t, tag = c :: t /\ isspace c = false)
    (tags_of_page page).
Proof.
  unfold tags_of_page. apply Forall_take, unique_loop_invariant; [|constructor].
  intros tag Hlen. destruct (strip tag) as [|c t] eqn:Hs; [cbn in Hlen; lia|].
  exists c, t. split; [done|]. by apply (strip_head tag c t).
Qed.

End TagFacts.

(** ** The extraction strategies *)

Section StrategyFacts.
Context {World : Type} {NET : Network World} {RT : PyRuntime}.

Lemma matched_in_further prepare dotall pattern patterns content v :
  matched_in prepare dotall patterns content v ->
  matched_in prepare dotall (pattern :: patterns) content v.
Proof.
  intros (p & group1 & Hin & Hsearch & Hv).
  exists p, group1. split; [by right|done].
Qed.

(** A field set by the loop over the patterns is its default or a
    cleaned match of one of the patterns in the content. *)
Lemma pattern_loop_result prepare dotall content patterns value :
  pattern_loop prepare dotall content patterns value = value
  \/ matched_in prepare dotall patterns content
       (pattern_loop prepare dotall content patterns value).
Proof.
  revert value; induction patterns as [|pattern patterns IH]; intros value;
    cbn [pattern_loop]; [by left|].
  destruct (re_search pattern dotall content) as [group1|] eqn:Hsearch.
  - assert (matched_in prepare dotall (pattern :: patterns) content
              (clean_description (prepare group1))) as Hhere.
    { exists pattern, group1. split; [by left|done]. }
    destruct (0 <? length (strip (clean_description (prepare group1))))%nat;
      [by right|].
    destruct (IH (clean_description (prepare group1))) as [-> | Hlater];
      right; [done|by apply matched_in_further].
  - destruct (IH value) as [-> | Hlater]; [by left|].
    right. by apply matched_in_further.
Qed.

(** What the normalizer returns is stripped, or is its diagnostic text. *)
Lemma clean_description_body_stripped raw d :
  clean_description_body raw = Ok d -> exists d', d = strip d'.
Proof.
  unfold clean_description_body.
  destruct (try_except (Codecs.unicode_escape_decode raw) _ _) as [d1|];
    [rewrite result_bind_ok|done].
  match goal with
  | |- context [try_except ?a ?b ?c ≫= _] =>
      destruct (try_except a b c) as [d3|]; [rewrite result_bind_ok|done]
  end.
  match goal with
  | |- context [try_except ?a ?b ?c ≫= _] =>
      destruct (try_except a b c) as [d6|]; [rewrite result_bind_ok|done]
  end.
  intros [= <-]. by eexists.
Qed.

Lemma clean_description_head raw c t :
  clean_description raw = c :: t -> isspace c = false.
Proof.
  unfold clean_description.
  destruct (clean_description_body raw) as [d|e] eqn:Hbody.
  - apply clean_description_body_stripped in Hbody as [d' ->].
    apply strip_head.
  - by intros [= <- _].
Qed.

Ltac io_unfold :=
  unfold mbind, io_mbind, io_bind, mret, io_mret, io_ret, io_raise, io_lift,
    io_try, sleep, raise_for_status.

Lemma method1_fields url (w w' : World) r :
  get_youtube_info_method1 url w = (Ok r, w') -> method1_outcome url w w' r.
Proof.
  unfold get_youtube_info_method1, method1_outcome. io_unfold.
  destruct (requests_get url method1_headers _) as [[response|e] w1]; [|done].
  destruct ((400 <=? status_code response) && (status_code response <? 600));
    [done|].
  match goal with |- context [if ?c then _ else _] => destruct c end; [done|].
  io_unfold. cbv beta iota. intros [= <- <-].
  exists response. split; [done|]. split.
  - exact (pattern_loop_result id true _ method1_title_patterns _).
  - exact (pattern_loop_result id true _ method1_desc_patterns _).
Qed.

Lemma method2_fields url (w w' : World) r :
  get_youtube_info_method2 url w = (Ok r, w') -> method2_outcome url w w' r.
Proof.
  unfold get_youtube_info_method2, method2_outcome. io_unfold.
  destruct (requests_get _ method2_headers _) as [[response|e] w1]; [|done].
  destruct ((400 <=? status_code response) && (status_code response <? 600));
    [done|].
  io_unfold. cbv beta iota. intros [= <- <-].
  exists response. split; [done|]. split.
  - exact (pattern_loop_result strip_youtube_suffix false _
             method2_title_patterns _).
  - exact (pattern_loop_result id false _ method2_desc_patterns _).
Qed.

Lemma search_result prepare pattern dotall content default_value :
  match re_search pattern dotall content with
  | Some group1 => clean_description (prepare group1)
  | None => default_value
  end = default_value
  \/ matched_in prepare dotall [pattern] content
       match re_search pattern dotall content with
       | Some group1 => clean_description (prepare group1)
       | None => default_value
       end.
Proof.
  destruct (re_search pattern dotall content) as [group1|] eqn:Hsearch;
    [right|by left].
  exists pattern, group1. split; [by left|done].
Qed.

Lemma method3_simple_fields url (w w' : World) r :
  method3_simple url w = (Ok r, w') ->
  exists response,
    requests_get url simple_headers w = (Ok response, w')
    /\ (title r = Title_not_found
        \/ matched_in strip_youtube_suffix false [title_tag_pattern]
             (text response) (title r))
    /\ (description r = Description_not_found
        \/ matched_in id false [og_pattern "og:description"]
             (text response) (description r)).
Proof.
  unfold method3_simple. io_unfold.
  destruct (requests_get url simple_headers w) as [[response|e] w1]; [|done].
  io_unfold. cbv beta iota. intros [= <- <-].
  exists response. split; [done|]. split.
  - exact (search_result strip_youtube_suffix _ _ _ _).
  - exact (search_result id _ _ _ _).
Qed.

Lemma method3_oembed_fields url (w w' : World) r :
  method3_oembed url (sleep_uniform 5 20 w) = (Ok (Some r), w') ->
  method3_primary url w w' r.
Proof.
  unfold method3_oembed, method3_primary. io_unfold.
  destruct (requests_get _ method3_headers _) as [[response|e] w1] eqn:Hget;
    [|done].
  destruct (status_code response =? 200) eqn:Hstatus; [|done].
  apply N.eqb_eq in Hstatus.
  destruct (json_title response) as [data_title|e] eqn:Hjson; [|done].
  destruct (requests_get url method3_headers w1) as [[main_response|e] w2]
    eqn:Hmain; [|done].
  io_unfold. cbv beta iota. intros [= <- <-].
  exists response, w1, data_title, main_response.
  repeat (split; [done|]).
  exact (search_result id _ _ _ _).
Qed.

Lemma method3_fields url (w w' : World) r :
  get_youtube_info_method3 url w = (Ok r, w') -> method3_outcome url w w' r.
Proof.
  unfold get_youtube_info_method3, method3_outcome. io_unfold.
  destruct (get_video_id_from_url url) as [[|c id]|].
  1, 3: cbn; intros [= <- _]; by left.
  destruct (method3_oembed url (sleep_uniform 5 20 w))
    as [[[result|]|e] w1] eqn:Hoembed; cbn [any_Exception].
  - intros [= <- <-]. right. left. by apply method3_oembed_fields.
  - destruct (method3_simple url w1) as [[result|e'] w2] eqn:Hsimple.
    + intros [= <- <-]. right. right. unfold method3_fallback.
      rewrite Hoembed. cbn [fst snd]. split; [done|].
      by apply method3_simple_fields.
    + cbn. intros [= <- _]. by left.
  - destruct (method3_simple url w1) as [[result|e'] w2] eqn:Hsimple.
    + intros [= <- <-]. right. right. unfold method3_fallback.
      rewrite Hoembed. cbn [fst snd]. split; [done|].
      by apply method3_simple_fields.
    + cbn. intros [= <- _]. by left.
Qed.

(** Method 3 absorbs every exception. *)
Lemma method3_returns url (w : World) :
  exists r w', get_youtube_info_method3 url w = (Ok r, w').
Proof.
  unfold get_youtube_info_method3, io_try.
  match goal with |- context [match ?body with _ => _ end] =>
    destruct body as [[r|e] w1] end; cbn; eauto.
Qed.

End StrategyFacts.

(** C4, as the code has it.  A title or description that a strategy
    takes by a pattern is the normalizer applied to the text that one of
    the patterns of that field matched in the page the strategy fetched
    (for the titles of method 2 and of the fallback of method 3, to the
    matched text without [" - YouTube"]); otherwise the field is its
    sentinel, or, for the title in the primary path of method 3, the
    title field of the answer of the oEmbed endpoint as the JSON parser
    gave it, not normalized. *)
Theorem C4_fields_of_the_strategies {World : Type} {NET : Network World}
    {RT : PyRuntime} (url : pystr) (w w' : World) (r : info) :
  (get_youtube_info_method1 url w = (Ok r, w') -> method1_outcome url w w' r)
  /\ (get_youtube_info_method2 url w = (Ok r, w') ->
      method2_outcome url w w' r)
  /\ (get_youtube_info_method3 url w = (Ok r, w') ->
      method3_outcome url w w' r).
Proof.
  split; [|split].
  - apply method1_fields.
  - apply method2_fields.
  - apply method3_fields.
Qed.

Lemma C4_witness :
  method3_outcome (NET := example_network spaced_title_pages)
    (RT := example_runtime) (py "https://youtu.be/abc123") []
    [py "https://www.youtube.com/oembed?url=https://youtu.be/abc123&format=json";
     py "https://youtu.be/abc123"]
    {| title := py " Spaced title"; description := Description_not_found |}.
Proof.
  apply (proj2 (proj2 (C4_fields_of_the_strategies
                         (NET := example_network spaced_title_pages)
                         (RT := example_runtime)
                         (py "https://youtu.be/abc123") []
                         [py "https://www.youtube.com/oembed?url=https://youtu.be/abc123&format=json";
                          py "https://youtu.be/abc123"]
                         {| title := py " Spaced title";
                            description := Description_not_found |}))).
  vm_compute. reflexivity.
Defined.

(** C4, as stated, fails in the primary path of method 3: the title of
    the oEmbed answer is returned as it came, here with its leading space,
    which no text is normalized to; normalized, it would lose the space. *)
Lemma C4_counterexample :
  exists r w',
    get_youtube_info_method3 (NET := example_network spaced_title_pages)
      (RT := example_runtime) (py "https://youtu.be/abc123") [] = (Ok r, w')
    /\ title r = py " Spaced title"
    /\ title r <> Title_not_found
    /\ title r <> Error
    /\ clean_description (RT := example_runtime) (py " Spaced title")
       = py "Spaced title"
    /\ forall raw, title r <> clean_description (RT := example_runtime) raw.
Proof.
  exists {| title := py " Spaced title"; description := Description_not_found |},
    [py "https://www.youtube.com/oembed?url=https://youtu.be/abc123&format=json";
     py "https://youtu.be/abc123"].
  split; [vm_compute; reflexivity|]. cbn [title].
  split; [reflexivity|].
  split; [vm_compute; discriminate|].
  split; [vm_compute; discriminate|].
  split; [vm_compute; reflexivity|].
  intros raw Heq. symmetry in Heq.
  apply clean_description_head in Heq. vm_compute in Heq. discriminate.
Qed.

(** * Further properties *)

(** ** The normalizer on decoded text *)

Section ScalarFacts.
Context {RT : PyRuntime}.
Import Codecs.

Lemma is_scalar_ranges c :
  is_scalar c -> c <= 0x10FFFF /\ (c < 0xD800 \/ 0xDFFF < c).
Proof.
  intros [Hc Hs]. unfold is_code_point, is_surrogate in *. split; [done|].
  destruct (0xD800 <=? c) eqn:Ha; destruct (c <=? 0xDFFF) eqn:Hb;
    try discriminate; bools; lia.
Qed.

Lemma utf8_encode_scalar s :
  Forall is_scalar s -> utf8_encode s = Ok (utf8_bytes s).
Proof.
  induction 1 as [|c s [_ Hc] Hs IH]; [done|].
  cbn [utf8_encode]. by rewrite Hc, IH.
Qed.

(** Text goes through UTF-8 and back. *)
Lemma utf8_decode_bytes s :
  Forall is_scalar s -> utf8_decode (utf8_bytes s) = Ok s.
Proof.
  induction 1 as [|c s [Hv Hc] Hs IH]; [done|].
  unfold utf8_bytes in *. cbn [fmap list_fmap concat].
  by rewrite utf8_decode_char, IH.
Qed.

Lemma reencode_scalar s :
  Forall is_scalar s ->
  try_except (b ← utf8_encode s; utf8_decode b) is_UnicodeError
    (fun _ => utf8_decode (utf8_encode_replace s)) = Ok s.
Proof.
  intros Hs. rewrite (utf8_encode_scalar _ Hs), result_bind_ok.
  by rewrite (utf8_decode_bytes _ Hs).
Qed.

Lemma scalar_lay_out s :
  Forall is_scalar s ->
  Forall is_scalar (sub_newlines (join [NL] (strip <$> split [NL] s))).
Proof.
  intros Hs. apply Forall_sub_newlines_go, Forall_join.
  - constructor; [|constructor].
    split; [unfold is_code_point, NL; lia|reflexivity].
  - apply Forall_fmap. eapply Forall_impl.
    + apply (Forall_split_go is_scalar); [done|constructor].
    + intros l Hl. by apply Forall_strip.
Qed.

(** The bytes of one character. *)
Lemma utf8_char_bytes c :
  is_scalar c ->
  Forall (fun b => b <= 255) (utf8_char c)
  /\ existsb (N.eqb BACKSLASH) (utf8_char c) = (BACKSLASH =? c)
  /\ existsb (N.eqb 240) (utf8_char c) = has_f0_lead c.
Proof.
  intros [Hc Hs]%is_scalar_ranges. unfold utf8_char, has_f0_lead, BACKSLASH.
  destruct (c <? 0x80) eqn:H1; bools.
  { repeat split.
    - repeat constructor. lia.
    - cbn [existsb]. by rewrite orb_false_r.
    - cbn [existsb]. rewrite orb_false_r.
      rewrite (proj2 (N.eqb_neq 240 c)) by lia.
      by rewrite (proj2 (N.leb_gt 65536 c)) by lia. }
  destruct (c <? 0x800) eqn:H2; bools.
  { divmod c 64. repeat split.
    - repeat constructor; lia.
    - cbn [existsb]. rewrite !(proj2 (N.eqb_neq 92 _)) by lia. done.
    - cbn [existsb]. rewrite !(proj2 (N.eqb_neq 240 _)) by lia.
      by rewrite (proj2 (N.leb_gt 65536 c)) by lia. }
  destruct (c <? 0x10000) eqn:H3; bools.
  { replace (c / 4096) with (c / 64 / 64)
      by (rewrite N.Div0.div_div; reflexivity).
    divmod c 64. divmod q 64. repeat split.
    - repeat constructor; lia.
    - cbn [existsb]. rewrite !(proj2 (N.eqb_neq 92 _)) by lia. done.
    - cbn [existsb]. rewrite !(proj2 (N.eqb_neq 240 _)) by lia.
      by rewrite (proj2 (N.leb_gt 65536 c)) by lia. }
  replace (c / 262144) with (c / 64 / 64 / 64)
    by (rewrite !N.Div0.div_div; reflexivity).
  replace (c / 4096) with (c / 64 / 64)
    by (rewrite N.Div0.div_div; reflexivity).
  rewrite (proj2 (N.leb_le 65536 c)) by lia. cbn [andb].
  divmod c 64. divmod q 64. divmod q0 64. repeat split.
  - repeat constructor; lia.
  - cbn [existsb]. rewrite !(proj2 (N.eqb_neq 92 _)) by lia. done.
  - cbn [existsb]. rewrite !(proj2 (N.eqb_neq 240 (128 + _))) by lia.
    rewrite !orb_false_r.
    destruct (c <? 262144) eqn:Hlt; bools.
    + apply N.eqb_eq. lia.
    + apply N.eqb_neq. lia.
Qed.

Lemma utf8_bytes_facts s :
  Forall is_scalar s ->
  Forall (fun b => b <= 255) (utf8_bytes s)
  /\ has_char BACKSLASH (utf8_bytes s) = has_char BACKSLASH s
  /\ has_char 240 (utf8_bytes s) = existsb has_f0_lead s.
Proof.
  unfold utf8_bytes, has_char.
  induction 1 as [|c s Hc Hs (IH1 & IH2 & IH3)]; [by repeat split|].
  destruct (utf8_char_bytes c Hc) as (H1 & H2 & H3).
  cbn [fmap list_fmap concat existsb]. repeat split.
  - by apply Forall_app.
  - by rewrite existsb_app, H2, IH2.
  - by rewrite existsb_app, H3, IH3.
Qed.

Lemma bytes_are_scalar (b : list N) :
  Forall (fun x => x <= 255) b -> Forall is_scalar b.
Proof.
  intros Hb. eapply Forall_impl; [exact Hb|]. intros x Hx. cbv beta in Hx.
  split.
  - unfold is_code_point. lia.
  - unfold is_surrogate. by rewrite (proj2 (N.leb_gt 0xD800 x)) by lia.
Qed.

Lemma bytes_not_above (b : list N) :
  Forall (fun x => x <= 255) b -> existsb (fun c => 255 <? c) b = false.
Proof.
  induction 1 as [|x b Hx Hb IH]; [done|]. cbn [existsb].
  by rewrite IH, (proj2 (N.ltb_ge 255 x)) by lia.
Qed.

Lemma latin1_encode_bytes (b : list N) :
  Forall (fun x => x <= 255) b -> latin1_encode b = Ok b.
Proof.
  induction 1 as [|x b Hx Hb IH]; [done|]. cbn [latin1_encode].
  by rewrite IH, (proj2 (N.leb_le x 255)) by lia.
Qed.

Lemma utf8_bytes_ascii s : forallb isascii s = true -> utf8_bytes s = s.
Proof.
  unfold utf8_bytes. induction s as [|c s IH]; [done|]. cbn [forallb].
  intros [Hc Hs]%andb_prop. cbn [fmap list_fmap concat].
  unfold utf8_char. unfold isascii in Hc. rewrite Hc. cbn [app].
  f_equal. by apply IH.
Qed.

Lemma ascii_is_scalar s : forallb isascii s = true -> Forall is_scalar s.
Proof.
  intros Hs. apply Forall_forall. intros c Hc%list_elem_of_In.
  apply (proj1 (forallb_forall _ _) Hs) in Hc. unfold isascii in Hc. bools.
  split; [unfold is_code_point; lia|].
  unfold is_surrogate. by rewrite (proj2 (N.leb_gt 0xD800 c)) by lia.
Qed.

Lemma ascii_no_f0_lead s :
  forallb isascii s = true -> existsb has_f0_lead s = false.
Proof.
  induction s as [|c s IH]; [done|]. cbn [forallb existsb].
  intros [Hc Hs]%andb_prop. unfold isascii in Hc. bools.
  rewrite (IH Hs), orb_false_r. unfold has_f0_lead.
  by rewrite (proj2 (N.leb_gt 0x10000 c)) by lia.
Qed.

(** The steps of the normalizer up to the repair, on a text without
    backslash: the text comes out as its UTF-8 bytes, unless a byte 0xF0
    among them sets off the repair, which gives the text back. *)
Lemma clean_description_body_decoded s :
  Forall is_scalar s ->
  has_char BACKSLASH s = false ->
  clean_description_body s
  = Ok (lay_out (if existsb has_f0_lead s then s else utf8_bytes s)).
Proof.
  intros Hs Hback.
  destruct (utf8_bytes_facts s Hs) as (Hbytes & Hb92 & Hb240).
  rewrite Hback in Hb92.
  unfold clean_description_body, unicode_escape_decode.
  rewrite (utf8_encode_scalar _ Hs), result_bind_ok.
  rewrite (unicode_escape_bytes_plain _ Hb92).
  cbn [try_except]. rewrite result_bind_ok.
  change [92; 110] with (BACKSLASH :: [110]).
  change [92; 114] with (BACKSLASH :: [114]).
  change [92; 116] with (BACKSLASH :: [116]).
  change [92; 34] with (BACKSLASH :: [34]).
  change [92; 39] with (BACKSLASH :: [39]).
  change [92; 92] with (BACKSLASH :: [92]).
  rewrite !(replace_absent _ _ _ Hb92).
  rewrite Hb240, (bytes_not_above _ Hbytes), orb_false_r.
  destruct (existsb has_f0_lead s).
  - rewrite (latin1_encode_bytes _ Hbytes), result_bind_ok.
    rewrite (utf8_decode_bytes _ Hs). cbn [try_except]. rewrite result_bind_ok.
    rewrite (reencode_scalar _ (scalar_lay_out _ Hs)), result_bind_ok.
    reflexivity.
  - cbn [try_except]. rewrite result_bind_ok.
    rewrite (reencode_scalar _ (scalar_lay_out _ (bytes_are_scalar _ Hbytes))).
    rewrite result_bind_ok. reflexivity.
Qed.

End ScalarFacts.

Section ShapeFacts.
Context {RT : PyRuntime}.
Import Codecs.
Implicit Types (s t u : pystr).

Lemma startswith_spec t s : startswith t s = true <-> exists b, s = t ++ b.
Proof.
  revert s; induction t as [|a t IH]; intros s; cbn.
  - split; [by exists s|done].
  - destruct s as [|c s]; [split; [done|by intros [b Hb]]|].
    rewrite andb_true_iff, N.eqb_eq, IH. split.
    + intros [-> [b ->]]. by exists b.
    + intros [b [= -> ->]]. split; [done|by exists b].
Qed.

(** [t in s]: [t] is a part of [s]. *)
Lemma contains_spec t s : contains t s = true <-> exists a b, s = a ++ t ++ b.
Proof.
  induction s as [|c s IH]; cbn [contains].
  - rewrite orb_false_r, startswith_spec. split.
    + intros [b Hb]. by exists [], b.
    + intros (a & b & Hab). destruct a; [by exists b|done].
  - rewrite orb_true_iff, startswith_spec, IH. split.
    + intros [[b Hb]|(a & b & ->)]; [by exists [], b|by exists (c :: a), b].
    + intros ([|x a] & b & Hab); [left; by exists b|].
      injection Hab as -> ->. right. by exists a, b.
Qed.

Lemma contains_part t a s b :
  contains t (a ++ s ++ b) = false -> contains t s = false.
Proof.
  intros Hno. apply not_true_is_false. intros (x & y & ->)%contains_spec.
  apply not_true_iff_false in Hno. apply Hno, contains_spec.
  exists (a ++ x), (y ++ b). by rewrite <- !app_assoc.
Qed.

Lemma lstrip_suffix s : exists a, s = a ++ lstrip s.
Proof.
  induction s as [|c s [a IH]]; [by exists []|]. cbn [lstrip].
  destruct (isspace c); [|by exists []]. exists (c :: a). by rewrite IH at 1.
Qed.

(** A stripped text is a part of the text. *)
Lemma strip_part s : exists a b, s = a ++ strip s ++ b.
Proof.
  unfold strip, rstrip.
  destruct (lstrip_suffix s) as [a Ha].
  destruct (lstrip_suffix (rev (lstrip s))) as [b Hb].
  exists a, (rev b). rewrite Ha at 1. f_equal.
  rewrite <- (rev_involutive (lstrip s)) at 1. rewrite Hb at 1.
  by rewrite rev_app_distr.
Qed.

Lemma contains_strip t s : contains t s = false -> contains t (strip s) = false.
Proof.
  destruct (strip_part s) as (a & b & Hs). rewrite Hs at 1.
  apply contains_part.
Qed.

(** The head and the last character of a stripped text are not white
    space. *)
Lemma trimmed_strip s : trimmed (strip s) = true.
Proof.
  destruct (strip s) as [|c t] eqn:Hs; [done|]. unfold trimmed.
  rewrite (strip_head _ _ _ Hs). cbn [negb andb].
  rewrite last_rev_head, <- Hs. unfold strip, rstrip. rewrite rev_involutive.
  pose proof (lstrip_head (rev (lstrip s))) as Hh.
  destruct (lstrip (rev (lstrip s))) as [|x l] eqn:Hl.
  - unfold strip, rstrip in Hs. by rewrite Hl in Hs.
  - cbn [hd]. by rewrite Hh.
Qed.

Lemma startswith_cons a t c s :
  startswith (a :: t) (c :: s) = (a =? c) && startswith t s.
Proof. reflexivity. Qed.

Lemma contains_unfold t c s :
  contains t (c :: s) = startswith t (c :: s) || contains t s.
Proof. reflexivity. Qed.

(** No three newlines in a row are left where runs were shortened; after
    [run] newlines the text goes on with fewer than three less [run]. *)
Lemma sub_newlines_go_runs s run :
  contains [NL; NL; NL] (sub_newlines_go s run) = false
  /\ startswith (repeat NL (match run with O => 3 | S O => 2 | _ => 1 end)%nat)
       (sub_newlines_go s run) = false.
Proof.
  revert run; induction s as [|c s IH]; intros run.
  - split; [reflexivity|]. by destruct run as [|[|run]].
  - cbn [sub_newlines_go]. destruct (c =? NL) eqn:Hc.
    + apply N.eqb_eq in Hc as ->.
      destruct (IH (S run)) as [IHc IHs].
      destruct run as [|[|run]]; cbn [Nat.ltb Nat.leb repeat] in *.
      * rewrite contains_unfold, !startswith_cons, N.eqb_refl, IHc, IHs.
        by split.
      * rewrite contains_unfold, !startswith_cons, N.eqb_refl, IHc.
        assert (startswith [NL; NL] (sub_newlines_go s 2) = false) as H2.
        { destruct (sub_newlines_go s 2) as [|x l]; [done|].
          rewrite startswith_cons in *. cbn [startswith] in IHs.
          rewrite andb_true_r in IHs. by rewrite IHs. }
        rewrite H2, IHs. by split.
      * by split.
    + destruct (IH O) as [IHc IHs].
      assert (forall t, startswith (NL :: t) (c :: sub_newlines_go s 0) = false)
        as Ht by (intros t; by rewrite startswith_cons, N.eqb_sym, Hc).
      rewrite contains_unfold, IHc, Ht.
      split; [done|]. destruct run as [|[|run]]; apply Ht.
Qed.

Lemma sub_newlines_runs s : contains [NL; NL; NL] (sub_newlines s) = false.
Proof. apply sub_newlines_go_runs. Qed.

End ShapeFacts.

Section NormalizerShape.
Context {RT : PyRuntime}.
Import Codecs.

Lemma utf8_encode_ok_scalar s b :
  valid_str s -> utf8_encode s = Ok b -> Forall is_scalar s.
Proof.
  intros Hs; revert b; induction Hs as [|c s Hc Hs IH]; intros b; [constructor|].
  cbn [utf8_encode]. destruct (is_surrogate c) eqn:Hsur; [done|].
  destruct (utf8_encode s) as [bs|] eqn:Hbs; [|done]. intros _.
  constructor; [by split|by eapply IH].
Qed.

(** The last pass through UTF-8 gives the text back, with a question mark
    for every surrogate. *)
Lemma reencode_step_shape s :
  valid_str s ->
  exists d,
    try_except (b ← utf8_encode s; utf8_decode b) is_UnicodeError
      (fun _ => utf8_decode (utf8_encode_replace s)) = Ok d
    /\ (d = s \/ d = replace_surrogate <$> s).
Proof.
  intros Hs. destruct (utf8_encode s) as [b|e] eqn:Hb.
  - pose proof (utf8_encode_ok_scalar _ _ Hs Hb) as Hsc.
    exists s. split; [|by left].
    rewrite <- Hb. by apply reencode_scalar.
  - apply utf8_encode_raises in Hb as ->. cbn.
    rewrite utf8_decode_encode_replace by done. eexists; split; [done|by right].
Qed.

Lemma startswith_newlines_fmap (t s : pystr) :
  Forall (fun c => c = NL) t ->
  startswith t (replace_surrogate <$> s) = startswith t s.
Proof.
  intros Ht; revert s; induction Ht as [|a t -> Ht IH]; intros s; [done|].
  destruct s as [|c s]; [done|]. cbn [fmap list_fmap]. rewrite !startswith_cons.
  change (list_fmap N N replace_surrogate s) with (replace_surrogate <$> s).
  rewrite IH. f_equal. unfold replace_surrogate, is_surrogate, NL.
  destruct ((55296 <=? c) && (c <=? 57343)) eqn:Hc; [|done].
  bools. rewrite (proj2 (N.eqb_neq 10 c)) by lia. done.
Qed.

Lemma contains_newlines_fmap (s : pystr) :
  contains [NL; NL; NL] (replace_surrogate <$> s) = contains [NL; NL; NL] s.
Proof.
  induction s as [|c s IH]; [done|].
  change (replace_surrogate <$> c :: s)
    with (replace_surrogate c :: (replace_surrogate <$> s)).
  rewrite !contains_unfold, IH. f_equal.
  apply (startswith_newlines_fmap _ (c :: s)). by repeat constructor.
Qed.

(** The body of the normalizer: a text without three newlines in a row,
    trimmed to 2000 characters and stripped. *)
Lemma clean_description_body_shape (raw : pystr) :
  valid_str raw ->
  exists d, clean_description_body raw = Ok (strip (truncated d))
            /\ contains [NL; NL; NL] d = false.
Proof.
  intros Hraw. unfold clean_description_body.
  destruct (decode_step raw Hraw) as (d1 & -> & Hd1). rewrite result_bind_ok.
  set (d2 := replace [92; 92] [92] _).
  assert (valid_str d2) as Hd2.
  { subst d2. repeat apply Forall_replace; try done;
      repeat constructor; unfold is_code_point; lia. }
  destruct (repair_step d2 Hd2) as (d3 & -> & Hd3). rewrite result_bind_ok.
  set (d5 := sub_newlines _).
  assert (valid_str d5) as Hd5.
  { subst d5. apply Forall_sub_newlines_go, Forall_join.
    - repeat constructor. unfold is_code_point, NL. lia.
    - apply Forall_fmap. eapply Forall_impl.
      + apply (Forall_split_go is_code_point); [done|constructor].
      + intros l Hl. by apply Forall_strip. }
  assert (contains [NL; NL; NL] d5 = false) as Hruns
    by apply sub_newlines_runs.
  destruct (reencode_step_shape d5 Hd5) as (d6 & -> & Hd6).
  rewrite result_bind_ok. exists d6. split; [reflexivity|].
  destruct Hd6 as [-> | ->]; [done|by rewrite contains_newlines_fmap].
Qed.

End NormalizerShape.

(** X1. What [clean_description] returns for a string neither begins nor
    ends with white space. *)
Theorem X1_cleaned_text_is_trimmed {RT : PyRuntime} (raw : pystr) :
  valid_str raw -> trimmed (clean_description raw) = true.
Proof.
  intros Hraw. unfold clean_description.
  destruct (clean_description_body_shape raw Hraw) as (d & -> & _).
  apply trimmed_strip.
Qed.

Lemma X1_witness : trimmed (clean_description (RT := example_runtime) untidy_text) = true.
Proof.
  apply (X1_cleaned_text_is_trimmed (RT := example_runtime)).
  apply (bool_decide_unpack _). vm_compute. reflexivity.
Defined.

(** X2. What [clean_description] returns for a string never holds three
    newlines in a row, whether they stood in the text or came from
    escapes. *)
Theorem X2_cleaned_text_has_no_newline_run {RT : PyRuntime} (raw : pystr) :
  valid_str raw -> contains [NL; NL; NL] (clean_description raw) = false.
Proof.
  intros Hraw. unfold clean_description.
  destruct (clean_description_body_shape raw Hraw) as (d & -> & Hd).
  apply contains_strip. unfold truncated.
  destruct (2000 <? length d)%nat; [|done].
  apply contains_truncation; [done| |done].
  repeat constructor; unfold NL; lia.
Qed.

Lemma X2_witness :
  contains [NL; NL; NL] (clean_description (RT := example_runtime) untidy_text)
  = false.
Proof.
  apply (X2_cleaned_text_has_no_newline_run (RT := example_runtime)).
  apply (bool_decide_unpack _). vm_compute. reflexivity.
Defined.

(** X3. A decoded text without backslash that holds a character of
    U+10000 to U+3FFFF (an emoji, say) comes through the escape decoding
    and the repair as it was: [clean_description] only lays it out. *)
Theorem X3_text_with_emoji_is_restored {RT : PyRuntime} (s : pystr) :
  Forall is_scalar s ->
  has_char BACKSLASH s = false ->
  existsb has_f0_lead s = true ->
  clean_description s = lay_out s.
Proof.
  intros Hs Hback Hlead. unfold clean_description.
  by rewrite (clean_description_body_decoded _ Hs Hback), Hlead.
Qed.

Lemma X3_witness :
  clean_description (RT := example_runtime) emoji_text = lay_out emoji_text.
Proof.
  apply (X3_text_with_emoji_is_restored (RT := example_runtime)).
  - apply (bool_decide_unpack _). vm_compute. reflexivity.
  - reflexivity.
  - reflexivity.
Defined.

(** X4. A decoded text without backslash and without such a character is
    not restored: what is returned is the layout of its UTF-8 bytes, each
    byte read as a Latin-1 character. *)
Theorem X4_text_without_emoji_comes_back_as_bytes {RT : PyRuntime} (s : pystr) :
  Forall is_scalar s ->
  has_char BACKSLASH s = false ->
  existsb has_f0_lead s = false ->
  clean_description s = lay_out (utf8_bytes s).
Proof.
  intros Hs Hback Hlead. unfold clean_description.
  by rewrite (clean_description_body_decoded _ Hs Hback), Hlead.
Qed.

Lemma X4_witness :
  clean_description (RT := example_runtime) accent_text
  = lay_out (utf8_bytes accent_text).
Proof.
  apply (X4_text_without_emoji_comes_back_as_bytes (RT := example_runtime)).
  - apply (bool_decide_unpack _). vm_compute. reflexivity.
  - reflexivity.
  - reflexivity.
Defined.

(** The accented letter of the example comes back as two characters. *)
Remark clean_description_accent_text :
  clean_description (RT := example_runtime) accent_text = py "caf" ++ [195; 169].
Proof. vm_compute. reflexivity. Qed.

Lemma clean_description_plain_ascii {RT : PyRuntime} (s : pystr) :
  forallb isascii s = true ->
  has_char BACKSLASH s = false ->
  clean_description s = lay_out s.
Proof.
  intros Hascii Hback. unfold clean_description.
  rewrite (clean_description_body_decoded _ (ascii_is_scalar _ Hascii) Hback).
  by rewrite (ascii_no_f0_lead _ Hascii), (utf8_bytes_ascii _ Hascii).
Qed.

(** X5. ASCII text without backslash is only laid out: its lines are
    stripped, runs of newlines shortened to two, the text trimmed to 2000
    characters and stripped; no other character changes. *)
Theorem X5_plain_ascii_is_laid_out {RT : PyRuntime} (s : pystr) :
  forallb isascii s = true ->
  has_char BACKSLASH s = false ->
  clean_description s = lay_out s.
Proof. apply clean_description_plain_ascii. Qed.

Lemma X5_witness :
  clean_description (RT := example_runtime) long_clean_text
  = lay_out long_clean_text.
Proof.
  apply (X5_plain_ascii_is_laid_out (RT := example_runtime));
    vm_compute; reflexivity.
Defined.

Section BlankFacts.
Implicit Types (s : pystr).

Lemma lstrip_all_space s : Forall (fun c => isspace c = true) s -> lstrip s = [].
Proof. induction 1 as [|c s Hc Hs IH]; [done|]. cbn. by rewrite Hc. Qed.

Lemma strip_all_space s : Forall (fun c => isspace c = true) s -> strip s = [].
Proof.
  intros Hs. unfold strip, rstrip. by rewrite (lstrip_all_space _ Hs).
Qed.

Lemma join_empty_lines (lines : list pystr) :
  Forall (fun l => l = []) lines -> Forall (fun c => c = NL) (join [NL] lines).
Proof.
  induction 1 as [|l lines -> Hl IH]; [constructor|]. cbn [join].
  destruct lines; [constructor|]. cbn [app]. by constructor.
Qed.

Lemma sub_newlines_go_short s run :
  Forall (fun c => c = NL) s ->
  (length (sub_newlines_go s run) <= 2 - run)%nat.
Proof.
  intros Hs; revert run; induction Hs as [|c s -> Hs IH]; intros run;
    [cbn; lia|].
  cbn [sub_newlines_go]. rewrite N.eqb_refl.
  specialize (IH (S run)).
  destruct (run <? 2)%nat eqn:Hrun.
  - apply Nat.ltb_lt in Hrun. cbn [length]. lia.
  - apply Nat.ltb_ge in Hrun. lia.
Qed.

(** A text of white space is laid out to nothing. *)
Lemma lay_out_space s : Forall (fun c => isspace c = true) s -> lay_out s = [].
Proof.
  intros Hs. unfold lay_out.
  set (d := sub_newlines _).
  assert (Forall (fun c => c = NL) d /\ (length d <= 2)%nat) as [Hd Hlen].
  { subst d. assert (Forall (fun c => c = NL)
                       (join [NL] (strip <$> split [NL] s))) as Hj.
    { apply join_empty_lines, Forall_fmap.
      eapply Forall_impl;
        [apply (Forall_split_go (fun c => isspace c = true)); [done|constructor]|].
      intros l Hl. by apply strip_all_space. }
    split; [by apply Forall_sub_newlines_go|].
    by apply (sub_newlines_go_short _ O). }
  rewrite truncated_short by lia. apply strip_all_space.
  eapply Forall_impl; [exact Hd|]. by intros c ->.
Qed.

End BlankFacts.

(** X6. A text of ASCII white space only, the empty text among them, is
    cleaned to the empty text. *)
Theorem X6_blank_text_cleans_to_empty {RT : PyRuntime} (s : pystr) :
  blank s -> clean_description s = [].
Proof.
  intros Hs.
  assert (forallb isascii s = true) as Hascii.
  { apply forallb_forall. intros c Hc%list_elem_of_In.
    by apply (proj1 (Forall_forall _ _) Hs). }
  assert (has_char BACKSLASH s = false) as Hback.
  { unfold has_char. apply not_true_is_false.
    intros (c & Hc%list_elem_of_In & Heq%N.eqb_eq)%existsb_exists. subst c.
    by destruct (proj1 (Forall_forall _ _) Hs _ Hc) as [Hsp _]. }
  rewrite (clean_description_plain_ascii _ Hascii Hback).
  apply lay_out_space. eapply Forall_impl; [exact Hs|]. by intros c [Hc _].
Qed.

Lemma X6_witness : clean_description (RT := example_runtime) blank_text = [].
Proof.
  apply (X6_blank_text_cleans_to_empty (RT := example_runtime)).
  apply (bool_decide_unpack _). vm_compute. reflexivity.
Defined.

(** ** The identifier parser on URLs built from an identifier *)

Ltac expand_py :=
  repeat match goal with
    | |- context [py ?s] =>
        let v := eval vm_compute in (py s) in change (py s) with v
    end.

Section IdFacts.
Context {RT : PyRuntime}.
Import Urllib.
Implicit Types (id s : pystr).

Lemma id_has_no c id :
  is_id_char c = false -> forallb is_id_char id = true -> has_char c id = false.
Proof.
  intros Hc Hid. unfold has_char. apply not_true_is_false.
  intros (x & Hx & Heq%N.eqb_eq)%existsb_exists. subst x.
  apply (proj1 (forallb_forall _ _) Hid) in Hx. congruence.
Qed.

Lemma partition_absent c s : has_char c s = false -> partition c s = (s, false, []).
Proof.
  unfold has_char. induction s as [|a s IH]; [done|]. cbn [existsb partition].
  intros [Ha Hs]%orb_false_elim. rewrite N.eqb_sym in Ha. by rewrite Ha, IH.
Qed.

Lemma remove_unsafe_id id : forallb is_id_char id = true -> remove_unsafe id = id.
Proof.
  unfold remove_unsafe. induction id as [|c id IH]; [done|]. cbn [forallb List.filter].
  intros [Hc Hid]%andb_prop. rewrite (IH Hid).
  destruct ((c =? 9) || (c =? 13) || (c =? 10)) eqn:Hbad; [|done].
  exfalso. unfold is_id_char, is_lower_ascii, is_upper_ascii, is_digit in Hc.
  repeat match goal with
    | H : _ || _ = true |- _ => apply orb_prop in H as [H|H]
    end; bools; lia.
Qed.

Lemma str_eqb_refl s : str_eqb s s = true.
Proof. unfold str_eqb. by apply bool_decide_eq_true_2. Qed.

Lemma existsb_id c id :
  is_id_char c = false -> forallb is_id_char id = true ->
  existsb (N.eqb c) id = false.
Proof. apply id_has_no. Qed.

Ltac close_tests :=
  repeat match goal with
    | |- context [uses_params ?s] =>
        let v := eval vm_compute in (uses_params s) in
        change (uses_params s) with v
    | |- context [str_eqb ?a ?b] =>
        let v := eval vm_compute in (str_eqb a b) in
        change (str_eqb a b) with v
    | |- context [checknetloc ?n] =>
        let v := eval vm_compute in (checknetloc n) in
        change (checknetloc n) with v
    end.

Ltac id_step Hid :=
  cbn;
  change (List.filter (fun c : N => negb ((c =? 9) || (c =? 13) || (c =? 10))))
    with remove_unsafe;
  rewrite ?(remove_unsafe_id _ Hid);
  rewrite ?(existsb_id 35 _ eq_refl Hid), ?(existsb_id 63 _ eq_refl Hid),
    ?(existsb_id 59 _ eq_refl Hid), ?(existsb_id 38 _ eq_refl Hid),
    ?(existsb_id 61 _ eq_refl Hid), ?(existsb_id 37 _ eq_refl Hid),
    ?(existsb_id 43 _ eq_refl Hid), ?(existsb_id 47 _ eq_refl Hid);
  close_tests.

Lemma urlparse_short_link id :
  forallb is_id_char id = true ->
  urlparse (py "https://youtu.be/" ++ id)
  = Ok {| netloc := py "youtu.be"; path := 47 :: id; query := [] |}.
Proof.
  intros Hid. unfold urlparse, urlsplit. expand_py. cbn [app].
  do 8 id_step Hid. reflexivity.
Qed.

Lemma urlparse_watch id :
  forallb is_id_char id = true ->
  urlparse (py "https://www.youtube.com/watch?v=" ++ id)
  = Ok {| netloc := py "www.youtube.com"; path := py "/watch";
          query := py "v=" ++ id |}.
Proof.
  intros Hid. unfold urlparse, urlsplit. expand_py. cbn [app].
  do 8 id_step Hid. reflexivity.
Qed.

Lemma urlparse_embed id :
  forallb is_id_char id = true ->
  urlparse (py "https://www.youtube.com/embed/" ++ id)
  = Ok {| netloc := py "www.youtube.com"; path := py "/embed/" ++ id;
          query := [] |}.
Proof.
  intros Hid. unfold urlparse, urlsplit. expand_py. cbn [app].
  do 8 id_step Hid. reflexivity.
Qed.

Lemma urlparse_v id :
  forallb is_id_char id = true ->
  urlparse (py "https://www.youtube.com/v/" ++ id)
  = Ok {| netloc := py "www.youtube.com"; path := py "/v/" ++ id;
          query := [] |}.
Proof.
  intros Hid. unfold urlparse, urlsplit. expand_py. cbn [app].
  do 8 id_step Hid. reflexivity.
Qed.

Lemma before_any_absent stop s :
  existsb stop s = false -> before_any stop s = s.
Proof.
  induction s as [|c s IH]; [done|]. cbn [existsb before_any].
  intros [Hc Hs]%orb_false_elim. by rewrite Hc, IH.
Qed.

Lemma strip_after_separators_id id :
  forallb is_id_char id = true -> strip_after_separators id = id.
Proof.
  intros Hid. apply before_any_absent. apply not_true_is_false.
  intros (x & Hx & Hsep)%existsb_exists.
  apply (proj1 (forallb_forall _ _) Hid) in Hx.
  unfold is_separator in Hsep.
  apply orb_prop in Hsep as [Hs|Hs]; apply N.eqb_eq in Hs; by subst x.
Qed.

Lemma contains_head_absent a t s :
  has_char a s = false -> contains (a :: t) s = false.
Proof.
  unfold has_char. induction s as [|c s IH]; [done|]. cbn [existsb].
  intros [Hc Hs]%orb_false_elim.
  by rewrite contains_unfold, startswith_cons, Hc, IH.
Qed.

Lemma split_go_absent c s cur :
  has_char c s = false -> split_go [c] s O cur = [rev cur ++ s].
Proof.
  unfold has_char. revert cur; induction s as [|a s IH]; intros cur.
  - intros _. cbn. by rewrite app_nil_r.
  - cbn [existsb split_go startswith]. intros [Ha Hs]%orb_false_elim.
    rewrite Ha. cbn [andb]. rewrite IH by done. cbn [rev].
    by rewrite <- app_assoc.
Qed.

Lemma split_absent c s : has_char c s = false -> split [c] s = [s].
Proof. apply split_go_absent. Qed.

Lemma replace_go_char_absent c new s :
  has_char c s = false -> replace_go [c] new s O = s.
Proof.
  unfold has_char. induction s as [|a s IH]; [done|].
  cbn [existsb replace_go startswith]. intros [Ha Hs]%orb_false_elim.
  rewrite Ha. cbn [andb]. by rewrite IH.
Qed.

(** The query [v=id] holds one field. *)
Lemma parse_qs_v id :
  is_video_id id -> parse_qs (py "v=" ++ id) !! py "v" = Some [id].
Proof.
  intros [Hne Hid]. unfold parse_qs, parse_qsl. expand_py. cbn [app].
  change (str_eqb (118 :: 61 :: id) []) with false. cbn match.
  assert (has_char 38 (118 :: 61 :: id) = false) as H38
    by (cbn; apply (id_has_no 38 _ eq_refl Hid)).
  rewrite (split_absent _ _ H38). cbn [omap list_omap].
  change (str_eqb (118 :: 61 :: id) []) with false. cbn [partition].
  change (118 =? 61) with false. change (61 =? 61) with true. cbn match.
  assert (str_eqb id [] = false) as -> by (by apply bool_decide_eq_false_2).
  cbn [negb andb]. unfold replace.
  rewrite (replace_go_char_absent 43 _ id) by apply (id_has_no 43 _ eq_refl Hid).
  unfold unquote at 2. rewrite (id_has_no 37 _ eq_refl Hid). cbn [negb].
  change (unquote (replace_go [43] [32] [118] 0)) with [118].
  cbn [foldl]. rewrite lookup_empty. apply lookup_insert_eq.
Qed.

End IdFacts.

(** X7. A short link and a watch URL built from an identifier (letters,
    digits, [-] and [_]) give the identifier back. *)
Theorem X7_short_link_and_watch_round_trip {RT : PyRuntime} (id : pystr) :
  is_video_id id ->
  get_video_id_from_url (py "https://youtu.be/" ++ id) = Some id
  /\ get_video_id_from_url (py "https://www.youtube.com/watch?v=" ++ id)
     = Some id.
Proof.
  intros Hv. pose proof Hv as [Hne Hid]. split.
  - rewrite get_video_id_from_url_unfold, (urlparse_short_link _ Hid).
    rewrite bool_decide_eq_true_2 by reflexivity.
    cbn [Urllib.path]. change (drop 1 (47 :: id)) with id.
    change (strip_after_separators <$> Some id)
      with (Some (strip_after_separators id)).
    by rewrite (strip_after_separators_id _ Hid).
  - rewrite get_video_id_from_url_unfold, (urlparse_watch _ Hid).
    rewrite bool_decide_eq_false_2 by (intros Hs; vm_compute in Hs; discriminate).
    rewrite bool_decide_eq_true_2 by (left; reflexivity).
    cbn [Urllib.path Urllib.query].
    change (contains (py "/watch") (py "/watch")) with true. cbn match.
    rewrite (parse_qs_v _ Hv).
    change (strip_after_separators <$> (Some [id] ≫= head))
      with (Some (strip_after_separators id)).
    by rewrite (strip_after_separators_id _ Hid).
Qed.

Lemma X7_witness :
  get_video_id_from_url (RT := example_runtime)
    (py "https://youtu.be/" ++ py "dQw4w9WgXcQ") = Some (py "dQw4w9WgXcQ")
  /\ get_video_id_from_url (RT := example_runtime)
       (py "https://www.youtube.com/watch?v=" ++ py "dQw4w9WgXcQ")
     = Some (py "dQw4w9WgXcQ").
Proof.
  apply (X7_short_link_and_watch_round_trip (RT := example_runtime)).
  split; [discriminate|reflexivity].
Defined.

Section MarkerFacts.
Context {RT : PyRuntime}.
Implicit Types (id s t : pystr).

Lemma before_first_absent a t s :
  has_char a s = false -> before_first (a :: t) s = s.
Proof.
  unfold has_char. induction s as [|c s IH]; [done|].
  cbn [existsb before_first]. intros [Hc Hs]%orb_false_elim.
  by rewrite startswith_cons, Hc, IH.
Qed.

Lemma startswith_absent c t s :
  has_char c t = true -> has_char c s = false -> startswith t s = false.
Proof.
  intros Ht Hs. apply not_true_is_false. intros [b ->]%startswith_spec.
  unfold has_char in *. rewrite existsb_app, Ht in Hs. done.
Qed.

Ltac scan_prefix :=
  expand_py; cbn [app];
  rewrite ?contains_unfold, ?startswith_cons;
  cbn [N.eqb Pos.eqb andb orb].

Lemma contains_watch_in_embed id :
  forallb is_id_char id = true ->
  contains (py "/watch") (py "/embed/" ++ id) = startswith (py "watch") id.
Proof.
  intros Hid. scan_prefix.
  rewrite (contains_head_absent 47 _ id) by apply (id_has_no 47 _ eq_refl Hid).
  by rewrite orb_false_r.
Qed.

Lemma contains_watch_in_v id :
  forallb is_id_char id = true ->
  contains (py "/watch") (py "/v/" ++ id) = startswith (py "watch") id.
Proof.
  intros Hid. scan_prefix.
  rewrite (contains_head_absent 47 _ id) by apply (id_has_no 47 _ eq_refl Hid).
  by rewrite orb_false_r.
Qed.

Lemma contains_embed_in_v id :
  forallb is_id_char id = true ->
  contains (py "/embed/") (py "/v/" ++ id) = false.
Proof.
  intros Hid. scan_prefix.
  rewrite (contains_head_absent 47 _ id) by apply (id_has_no 47 _ eq_refl Hid).
  rewrite orb_false_r.
  apply (startswith_absent 47); [reflexivity|].
  apply (id_has_no 47 _ eq_refl Hid).
Qed.

Lemma segment_after_marker marker id :
  marker <> [] ->
  hd 0 marker = 47 ->
  forallb is_id_char id = true ->
  segment_after marker (marker ++ id) = id.
Proof.
  intros Hne Hhd Hid. unfold segment_after.
  destruct marker as [|a t]; [done|]. cbn in Hhd. subst a.
  cbn [app after_first].
  assert (startswith (47 :: t) (47 :: t ++ id) = true) as ->
    by (apply startswith_spec; by exists id).
  change (47 :: t ++ id) with ((47 :: t) ++ id). rewrite drop_app_length.
  apply before_first_absent, (id_has_no 47 _ eq_refl Hid).
Qed.

Lemma contains_marker marker id : contains marker (marker ++ id) = true.
Proof. apply contains_spec. by exists [], id. Qed.

Lemma strip_query_id id : forallb is_id_char id = true -> strip_query id = id.
Proof.
  intros Hid. apply before_any_absent. apply not_true_is_false.
  intros (x & Hx & Heq%N.eqb_eq)%existsb_exists. subst x.
  by apply (proj1 (forallb_forall _ _) Hid) in Hx.
Qed.

End MarkerFacts.

(** X8. An embed URL and a [/v/] URL built from an identifier give the
    identifier back, when the identifier does not begin with [watch]. *)
Theorem X8_embed_and_v_round_trip {RT : PyRuntime} (id : pystr) :
  is_video_id id ->
  startswith (py "watch") id = false ->
  get_video_id_from_url (py "https://www.youtube.com/embed/" ++ id) = Some id
  /\ get_video_id_from_url (py "https://www.youtube.com/v/" ++ id) = Some id.
Proof.
  intros [Hne Hid] Hwatch. split.
  - rewrite get_video_id_from_url_unfold, (urlparse_embed _ Hid).
    rewrite bool_decide_eq_false_2 by (intros Hs; vm_compute in Hs; discriminate).
    rewrite bool_decide_eq_true_2 by (left; reflexivity).
    cbn [Urllib.path].
    rewrite (contains_watch_in_embed _ Hid), Hwatch, contains_marker.
    rewrite segment_after_marker, (strip_query_id _ Hid) by done.
    change (strip_after_separators <$> Some id)
      with (Some (strip_after_separators id)).
    by rewrite (strip_after_separators_id _ Hid).
  - rewrite get_video_id_from_url_unfold, (urlparse_v _ Hid).
    rewrite bool_decide_eq_false_2 by (intros Hs; vm_compute in Hs; discriminate).
    rewrite bool_decide_eq_true_2 by (left; reflexivity).
    cbn [Urllib.path].
    rewrite (contains_watch_in_v _ Hid), Hwatch, (contains_embed_in_v _ Hid).
    rewrite contains_marker.
    rewrite segment_after_marker, (strip_query_id _ Hid) by done.
    change (strip_after_separators <$> Some id)
      with (Some (strip_after_separators id)).
    by rewrite (strip_after_separators_id _ Hid).
Qed.

Lemma X8_witness :
  get_video_id_from_url (RT := example_runtime)
    (py "https://www.youtube.com/embed/" ++ py "dQw4w9WgXcQ")
  = Some (py "dQw4w9WgXcQ")
  /\ get_video_id_from_url (RT := example_runtime)
       (py "https://www.youtube.com/v/" ++ py "dQw4w9WgXcQ")
     = Some (py "dQw4w9WgXcQ").
Proof.
  apply (X8_embed_and_v_round_trip (RT := example_runtime)).
  - split; [discriminate|reflexivity].
  - reflexivity.
Defined.

(** X9. An embed URL or a [/v/] URL whose identifier begins with [watch]
    gives [None]: its path holds [/watch], the test for a watch URL comes
    first, and there is no query parameter [v]. *)
Theorem X9_identifier_beginning_with_watch_is_lost {RT : PyRuntime}
    (id : pystr) :
  is_video_id id ->
  startswith (py "watch") id = true ->
  get_video_id_from_url (py "https://www.youtube.com/embed/" ++ id) = None
  /\ get_video_id_from_url (py "https://www.youtube.com/v/" ++ id) = None.
Proof.
  intros [Hne Hid] Hwatch. split.
  - rewrite get_video_id_from_url_unfold, (urlparse_embed _ Hid).
    rewrite bool_decide_eq_false_2 by (intros Hs; vm_compute in Hs; discriminate).
    rewrite bool_decide_eq_true_2 by (left; reflexivity).
    cbn [Urllib.path Urllib.query].
    by rewrite (contains_watch_in_embed _ Hid), Hwatch.
  - rewrite get_video_id_from_url_unfold, (urlparse_v _ Hid).
    rewrite bool_decide_eq_false_2 by (intros Hs; vm_compute in Hs; discriminate).
    rewrite bool_decide_eq_true_2 by (left; reflexivity).
    cbn [Urllib.path Urllib.query].
    by rewrite (contains_watch_in_v _ Hid), Hwatch.
Qed.

Lemma X9_witness :
  get_video_id_from_url (RT := example_runtime)
    (py "https://www.youtube.com/embed/" ++ py "watchAB_9-z") = None
  /\ get_video_id_from_url (RT := example_runtime)
       (py "https://www.youtube.com/v/" ++ py "watchAB_9-z") = None.
Proof.
  apply (X9_identifier_beginning_with_watch_is_lost (RT := example_runtime)).
  - split; [discriminate|reflexivity].
  - reflexivity.
Defined.

(** ** The tag extractor *)

Section TagLoopFacts.
Implicit Types (tag : pystr) (all_tags unique_tags : list pystr)
  (seen : gset pystr).

Lemma unique_loop_from all_tags seen unique_tags (P : pystr -> Prop) :
  (forall tag, tag ∈ all_tags -> (0 < length (strip tag))%nat -> P (strip tag)) ->
  Forall P unique_tags ->
  Forall P (unique_loop all_tags seen unique_tags).
Proof.
  revert seen unique_tags.
  induction all_tags as [|tag all_tags IH]; intros seen unique_tags Hstrip Hu;
    cbn [unique_loop]; [done|].
  assert (forall t, t ∈ all_tags -> (0 < length (strip t))%nat -> P (strip t))
    as Hrest by (intros t Ht; apply Hstrip; by right).
  destruct (bool_decide (tag ∉ seen)); cbn [andb]; [|by apply IH].
  destruct (0 <? length (strip tag))%nat eqn:Hlen; [|by apply IH].
  apply IH; [done|]. apply Forall_app. split; [done|].
  constructor; [|constructor]. apply Hstrip; [by left|by apply Nat.ltb_lt].
Qed.

Lemma filter_comm {A} (f g : A -> bool) (l : list A) :
  List.filter f (List.filter g l) = List.filter g (List.filter f l).
Proof.
  induction l as [|x l IH]; [done|]. cbn [List.filter].
  destruct (f x) eqn:Hf, (g x) eqn:Hg; cbn [List.filter];
    rewrite ?Hf, ?Hg, ?IH; done.
Qed.

Lemma filter_not_x (f : pystr -> bool) x (l : list pystr) :
  f x = false ->
  List.filter f (List.filter (fun y => negb (str_eqb y x)) l) = List.filter f l.
Proof.
  intros Hx. induction l as [|y l IH]; [done|]. cbn [List.filter].
  unfold str_eqb at 1. destruct (bool_decide (y = x)) eqn:Hyx; cbn [negb].
  - apply bool_decide_eq_true in Hyx as ->. by rewrite Hx.
  - cbn [List.filter]. by rewrite IH.
Qed.

Lemma dedup_first_filter (f : pystr -> bool) (l : list pystr) :
  dedup_first (List.filter f l) = List.filter f (dedup_first l).
Proof.
  induction l as [|x l IH]; [done|]. cbn [List.filter dedup_first].
  destruct (f x) eqn:Hf.
  - cbn [dedup_first]. rewrite IH. f_equal. apply filter_comm.
  - by rewrite IH, (filter_not_x _ _ _ Hf).
Qed.

Lemma filter_keeps_seen x seen (l : list pystr) :
  List.filter (fun y => negb (str_eqb y x)) (List.filter (keeps seen) l)
  = List.filter (keeps ({[x]} ∪ seen)) l.
Proof.
  assert (forall y, keeps ({[x]} ∪ seen) y
                    = keeps seen y && negb (str_eqb y x)) as Hkeeps.
  { intros y. unfold keeps, str_eqb.
    destruct (0 <? length (strip y))%nat;
      rewrite ?andb_false_r, ?andb_true_r; [|done].
    destruct (decide (y = x)) as [->|Hne].
    - rewrite (bool_decide_eq_true_2 (x = x)) by done. cbn [negb].
      rewrite andb_false_r. apply bool_decide_eq_false_2. set_solver.
    - rewrite (bool_decide_eq_false_2 (y = x)) by done. cbn [negb].
      rewrite andb_true_r. apply bool_decide_ext.
      rewrite not_elem_of_union, not_elem_of_singleton. tauto. }
  induction l as [|y l IH]; [done|]. cbn [List.filter].
  rewrite Hkeeps. destruct (keeps seen y); cbn [andb List.filter].
  - destruct (negb (str_eqb y x)); by rewrite IH.
  - exact IH.
Qed.

(** The second loop in one equation: the tags that are kept are the
    first occurrences of the tags that are not blank, compared as they
    were matched, and each is stripped as it is stored. *)
Lemma unique_loop_spec all_tags seen unique_tags :
  unique_loop all_tags seen unique_tags
  = unique_tags
      ++ (strip <$> dedup_first (List.filter (keeps seen) all_tags)).
Proof.
  revert seen unique_tags.
  induction all_tags as [|tag all_tags IH]; intros seen unique_tags;
    cbn [unique_loop List.filter].
  - by rewrite app_nil_r.
  - fold (keeps seen tag). destruct (keeps seen tag) eqn:Hkeep.
    + rewrite IH. cbn [dedup_first fmap list_fmap]. rewrite <- app_assoc.
      cbn [app]. do 2 f_equal.
      change (list_fmap pystr pystr strip) with (fmap (M := list) strip).
      by rewrite <- dedup_first_filter, filter_keeps_seen.
    + apply IH.
Qed.

Lemma keeps_empty tag : keeps ∅ tag = (0 <? length (strip tag))%nat.
Proof.
  unfold keeps. rewrite bool_decide_eq_true_2; [done|]. set_solver.
Qed.

Lemma NoDup_dedup_first (l : list pystr) : NoDup (dedup_first l).
Proof.
  induction l as [|x l IH]; cbn [dedup_first]; [constructor|].
  apply NoDup_cons. split.
  - intros Hin%list_elem_of_In%filter_In. destruct Hin as [_ Hne].
    unfold str_eqb in Hne. by rewrite bool_decide_eq_true_2 in Hne.
  - apply NoDup_ListNoDup, List.NoDup_filter, NoDup_ListNoDup, IH.
Qed.

Lemma array_body_chars s b :
  array_body s = Some b -> Forall (fun c => c <> 93 /\ c <> NL) b.
Proof.
  revert b. induction s as [|c s IH]; intros b; cbn [array_body]; [done|].
  destruct (c =? 93) eqn:Hb; [by intros [= <-]|].
  destruct (c =? NL) eqn:Hn; [done|].
  destruct (array_body s) as [b'|]; [|done]. intros [= <-].
  constructor; [|by apply IH].
  apply N.eqb_neq in Hb, Hn. done.
Qed.

Lemma search_tag_array_chars key s b :
  search_tag_array key s = Some b -> Forall (fun c => c <> 93 /\ c <> NL) b.
Proof.
  induction s as [|c s IH]; cbn [search_tag_array];
    destruct (match_tag_array _ _) as [g|] eqn:Hm; try done;
    intros [= <-]; unfold match_tag_array in Hm;
    destruct (startswith _ _); try done;
    destruct (lstrip _) as [|[|p] body]; try done;
    do 7 (try (destruct p as [p|p|]; try done));
    by apply array_body_chars in Hm.
Qed.

Lemma findall_quoted_chars (P : N -> Prop) s cur :
  Forall P s ->
  (forall acc, cur = Some acc -> Forall (fun c => P c /\ c <> DQUOTE) acc) ->
  Forall (Forall (fun c => P c /\ c <> DQUOTE)) (findall_quoted s cur).
Proof.
  intros Hs; revert cur. induction Hs as [|c s Hc Hs IH]; intros cur Hcur;
    cbn [findall_quoted]; [done|].
  destruct cur as [acc|]; destruct (c =? DQUOTE) eqn:Hq.
  - constructor; [by apply Forall_rev, Hcur|]. by apply IH.
  - apply IH. intros ? [= <-]. apply N.eqb_neq in Hq.
    constructor; [done|]. by apply Hcur.
  - apply IH. by intros ? [= <-].
  - by apply IH.
Qed.

Lemma collect_tags_chars patterns page :
  Forall (Forall tag_char) (collect_tags patterns page).
Proof.
  induction patterns as [|pattern patterns IH]; cbn [collect_tags]; [done|].
  destruct (search_tag_array pattern page) as [keywords_str|] eqn:Hsearch;
    [|done].
  apply Forall_app. split; [|done].
  apply search_tag_array_chars in Hsearch.
  eapply Forall_impl;
    [apply (findall_quoted_chars _ _ None Hsearch); by intros|].
  intros tag Htag. eapply Forall_impl; [exact Htag|].
  intros c [[? ?] ?]. by repeat split.
Qed.

Lemma filter_keeps_empty all_tags :
  List.filter (keeps ∅) all_tags = List.filter not_blank all_tags.
Proof. apply filter_ext. intros tag. apply keeps_empty. Qed.

Lemma fmap_strip_trimmed (l : list pystr) :
  Forall (fun tag => trimmed tag = true) l -> strip <$> l = l.
Proof.
  induction 1 as [|tag l Htag _ IH]; [done|].
  cbn [fmap list_fmap]. f_equal; [by apply strip_trimmed|exact IH].
Qed.

Lemma Forall_dedup_first (P : pystr -> Prop) (l : list pystr) :
  Forall P l -> Forall P (dedup_first l).
Proof.
  induction 1 as [|x l Hx _ IH]; cbn [dedup_first]; constructor; [done|].
  apply Forall_forall. intros y Hin%list_elem_of_In%filter_In.
  rewrite Forall_forall in IH. apply IH, list_elem_of_In, Hin.
Qed.

Lemma Forall_list_filter (P : pystr -> Prop) f (l : list pystr) :
  Forall P l -> Forall P (List.filter f l).
Proof.
  intros Hl. apply Forall_forall. intros y Hin%list_elem_of_In%filter_In.
  rewrite Forall_forall in Hl. apply Hl, list_elem_of_In, Hin.
Qed.

End TagLoopFacts.

(** X10. The tags of a page are the quoted strings of the arrays found,
    without the blank ones, each at its first occurrence as it was
    written, then stripped, and the first twenty of those. *)
Theorem X10_tags_are_stripped_first_occurrences page :
  tags_of_page page
  = take 20 (strip <$> dedup_first
               (List.filter not_blank (collect_tags tag_patterns page))).
Proof.
  unfold tags_of_page.
  by rewrite unique_loop_spec, app_nil_l, filter_keeps_empty.
Qed.

(** X11. When no quoted string of the arrays begins or ends with white
    space, no tag is returned twice. *)
Theorem X11_trimmed_tags_are_distinct page :
  Forall (fun tag => trimmed tag = true) (collect_tags tag_patterns page) ->
  NoDup (tags_of_page page).
Proof.
  intros Htrimmed. unfold tags_of_page.
  rewrite unique_loop_spec, app_nil_l, fmap_strip_trimmed.
  - eapply sublist_NoDup; [apply NoDup_dedup_first|apply sublist_take].
  - by apply Forall_dedup_first, Forall_list_filter.
Qed.

Lemma X11_witness :
  Forall (fun tag => trimmed tag = true)
    (collect_tags tag_patterns page_with_plain_tags)
  /\ NoDup (tags_of_page page_with_plain_tags).
Proof.
  assert (Forall (fun tag => trimmed tag = true)
            (collect_tags tag_patterns page_with_plain_tags)) as Htrimmed
    by (apply (bool_decide_unpack _); vm_compute; reflexivity).
  split; [exact Htrimmed|].
  exact (X11_trimmed_tags_are_distinct page_with_plain_tags Htrimmed).
Defined.

(** X12. No tag that is returned holds a double quote, a closing bracket
    or a newline: the array ends at the first closing bracket of its
    line, and a tag at the next double quote. *)
Theorem X12_tags_hold_no_quote_bracket_newline page :
  Forall (Forall tag_char) (tags_of_page page).
Proof.
  unfold tags_of_page. apply Forall_take, unique_loop_from; [|constructor].
  intros tag Hin _. apply Forall_strip.
  pose proof (collect_tags_chars tag_patterns page) as Hall.
  rewrite Forall_forall in Hall. by apply Hall.
Qed.

Section TagRequestFacts.
Context {World : Type} {NET : Network World}.

(** X13. When the request for the page raises, or is answered with a
    status from 400 to 599, the tag extractor returns the empty list,
    whatever the body holds. *)
Theorem X13_failed_request_gives_no_tags video_url (w : World) :
  match requests_get video_url tags_headers (sleep_uniform 5 15 w) with
  | (Ok response, _) =>
      400 <= status_code response /\ status_code response < 600
  | (Raise _, _) => True
  end ->
  (get_youtube_tags video_url w).1 = [].
Proof.
  unfold get_youtube_tags, get_youtube_tags_body, mbind, io_mbind, io_bind,
    sleep, raise_for_status.
  destruct (requests_get _ _ _) as [[response|e] w']; [|done].
  intros [Hlo Hhi].
  apply N.leb_le in Hlo. apply N.ltb_lt in Hhi. by rewrite Hlo, Hhi.
Qed.

End TagRequestFacts.

Lemma X13_witness :
  (get_youtube_tags (NET := example_network missing_pages)
     (py "https://youtu.be/abc") []).1 = [].
Proof.
  apply (X13_failed_request_gives_no_tags (NET := example_network missing_pages)).
  vm_compute. split; [discriminate|reflexivity].
Defined.

(** ** More on the strategies and on the orchestrator *)

Section InvocationLog.
Context {World : Type}.
Implicit Types (w : World) (r : info) (ms : list (io World info))
  (log : list nat).

Lemma seq_snoc_le k j n :
  (j <= n)%nat -> exists j', (j' <= S n)%nat /\ k :: seq (S k) j = seq k j'.
Proof. intros Hj. exists (S j). split; [lia|done]. Qed.

Lemma keep_trying_log r ms k w log :
  exists j, (j <= length ms)%nat
    /\ (keep_trying r (log_calls k ms) (w, log)).2.2 = log ++ seq k j.
Proof.
  revert k w log; induction ms as [|m ms IH]; intros k w log.
  - exists 0%nat. split; [done|]. cbn. by rewrite app_nil_r.
  - cbn [log_calls]. rewrite keep_trying_cons. unfold logged at 1.
    destruct (m w) as [[r2|e] w1].
    + destruct (description_found r2).
      * exists 1%nat. split; [cbn; lia|done].
      * destruct (IH (S k) w1 (log ++ [k])) as (j & Hj & ->).
        exists (S j). split; [cbn; lia|]. by rewrite <- app_assoc.
    + destruct (IH (S k) w1 (log ++ [k])) as (j & Hj & ->).
      exists (S j). split; [cbn; lia|]. by rewrite <- app_assoc.
Qed.

Lemma try_methods_log ms k w log :
  exists j, (j <= length ms)%nat
    /\ (try_methods (log_calls k ms) (w, log)).2.2 = log ++ seq k j.
Proof.
  revert k w log; induction ms as [|m ms IH]; intros k w log.
  - exists 0%nat. split; [done|]. cbn. by rewrite app_nil_r.
  - cbn [log_calls]. rewrite try_methods_cons. unfold logged at 1.
    assert (forall w1, exists j, (j <= length (m :: ms))%nat
              /\ (try_methods (log_calls (S k) ms) (w1, log ++ [k])).2.2
                 = log ++ seq k j) as Hnext.
    { intros w1. destruct (IH (S k) w1 (log ++ [k])) as (j & Hj & ->).
      exists (S j). split; [cbn; lia|]. by rewrite <- app_assoc. }
    destruct (m w) as [[r|e] w1]; [|apply Hnext].
    destruct (title_found r); cbn [andb]; [|apply Hnext].
    destruct (description_found r).
    + exists 1%nat. split; [cbn; lia|done].
    + destruct (keep_trying_log r ms (S k) w1 (log ++ [k])) as (j & Hj & ->).
      exists (S j). split; [cbn; lia|]. by rewrite <- app_assoc.
Qed.

End InvocationLog.

(** X14. Whatever the methods do, the orchestrator invokes them in their
    order, each at most once: the log of the invocations is a run of
    indices from the first one on, without a gap or a repetition. *)
Theorem X14_methods_are_invoked_once_in_order {RT : PyRuntime} {World : Type}
    (methods : list (io World info)) (w : World) :
  exists k, (k <= length methods)%nat
    /\ (get_youtube_info_of (log_calls 0 methods) (w, [])).2.2 = seq 0 k.
Proof.
  destruct (try_methods_log methods 0 w []) as (k & Hk & Hlog).
  exists k. split; [done|]. unfold get_youtube_info_of.
  destruct (try_methods_returns (log_calls 0 methods) (w, []))
    as (r & w' & Hrun).
  rewrite Hrun in Hlog |- *. exact Hlog.
Qed.

Ltac run_io :=
  unfold mbind, io_mbind, io_bind, mret, io_mret, io_ret, io_raise, io_lift,
    io_try, sleep, raise_for_status.

Section PatternLoopFacts.
Context {World : Type} {NET : Network World} {RT : PyRuntime}.

Lemma last_cons_default (v : pystr) (l : list pystr) d :
  List.last (v :: l) d = List.last l v.
Proof.
  revert v d; induction l as [|x l IH]; intros v d; [done|].
  change (List.last (v :: x :: l) d) with (List.last (x :: l) d).
  by rewrite !IH.
Qed.

Lemma pattern_loop_first_usable prepare dotall content patterns value :
  pattern_loop prepare dotall content patterns value
  = first_usable (cleaned_matches prepare dotall content patterns) value.
Proof.
  revert value; induction patterns as [|pattern patterns IH]; intros value;
    [done|].
  cbn [pattern_loop]. unfold cleaned_matches. cbn [omap list_omap].
  fold (cleaned_matches prepare dotall content patterns).
  destruct (re_search pattern dotall content) as [group1|];
    cbn [fmap option_fmap option_map]; [|apply IH].
  unfold first_usable at 1. cbn [List.find]. unfold not_blank at 1.
  destruct (0 <? length (strip (clean_description (prepare group1))))%nat;
    [done|].
  rewrite IH. unfold first_usable. by rewrite last_cons_default.
Qed.

Lemma last_in (l : list pystr) d : l <> [] -> List.last l d ∈ l.
Proof.
  induction l as [|x l IH]; [done|]. intros _.
  destruct l as [|y l]; [by left|].
  change (List.last (x :: y :: l) d) with (List.last (y :: l) d).
  right. by apply IH.
Qed.

Lemma find_none_blank (l : list pystr) :
  Forall (fun v => not_blank v = false) l -> List.find not_blank l = None.
Proof.
  induction 1 as [|v l Hv _ IH]; [done|]. cbn [List.find]. by rewrite Hv.
Qed.

Lemma method1_raises url (w : World) :
  match requests_get url method1_headers (sleep_uniform 5 20 w) with
  | (Ok response, _) => refused response
  | (Raise _, _) => True
  end ->
  exists e,
    get_youtube_info_method1 url w
    = (Raise e, (requests_get url method1_headers (sleep_uniform 5 20 w)).2).
Proof.
  unfold get_youtube_info_method1. run_io.
  destruct (requests_get _ _ _) as [[response|e] w1]; [|by eexists].
  cbn [snd]. intros Hrefused.
  destruct ((400 <=? status_code response) && (status_code response <? 600))
    eqn:Hstatus; [by eexists|].
  destruct (contains _ _ || _) eqn:Hblocked; [by eexists|].
  exfalso. apply orb_false_elim in Hblocked as [Hwords Hshort].
  destruct Hrefused as [[Hlo Hhi]|[Hw|Hlen]].
  - apply N.leb_le in Hlo. apply N.ltb_lt in Hhi.
    by rewrite Hlo, Hhi in Hstatus.
  - by rewrite Hw in Hwords.
  - apply Nat.ltb_ge in Hshort. lia.
Qed.

End PatternLoopFacts.

(** X15. The loop over the patterns of a field returns the first cleaned
    match that is not blank; when every cleaned match is blank it returns
    the last of them, and the default only when no pattern matches. *)
Theorem X15_field_is_first_usable_match {RT : PyRuntime}
    prepare dotall content patterns value :
  pattern_loop prepare dotall content patterns value
  = first_usable (cleaned_matches prepare dotall content patterns) value.
Proof. apply pattern_loop_first_usable. Qed.

(** X16. When some pattern matches and every match cleans to a blank
    text, the field is that blank text and not its default, and the
    orchestrator takes it for a title, or a description, that was
    found. *)
Theorem X16_blank_match_counts_as_found {RT : PyRuntime}
    prepare dotall content patterns value other :
  cleaned_matches prepare dotall content patterns <> [] ->
  Forall (fun v => not_blank v = false)
    (cleaned_matches prepare dotall content patterns) ->
  let field := pattern_loop prepare dotall content patterns value in
  not_blank field = false
  /\ title_found {| title := field; description := other |} = true
  /\ description_found {| title := other; description := field |} = true.
Proof.
  intros Hsome Hblank field.
  assert (not_blank field = false) as Hfield.
  { unfold field. rewrite pattern_loop_first_usable. unfold first_usable.
    rewrite (find_none_blank _ Hblank).
    rewrite Forall_forall in Hblank. by apply Hblank, last_in. }
  split; [done|].
  assert (forall sentinel, not_blank sentinel = true -> field <> sentinel)
    as Hne by (intros sentinel Hs ->; by rewrite Hs in Hfield).
  split; apply bool_decide_eq_true_2; cbn [title description];
    intros Hin; repeat (apply elem_of_cons in Hin as [Hin|Hin]);
    try (by apply elem_of_nil in Hin);
    revert Hin; apply Hne; vm_compute; reflexivity.
Qed.

Lemma X16_witness :
  let field :=
    pattern_loop (RT := whole_text_runtime) id false (py "  ")
      [title_tag_pattern] Title_not_found in
  not_blank field = false
  /\ title_found {| title := field; description := [] |} = true
  /\ description_found {| title := []; description := field |} = true.
Proof.
  apply (X16_blank_match_counts_as_found (RT := whole_text_runtime)).
  - vm_compute. discriminate.
  - apply (bool_decide_unpack _). vm_compute. reflexivity.
Defined.

(** X17. When the request of method 1 raises, or its page is refused (an
    error status, the blocking notice, or fewer than 1000 characters),
    the result is that of methods 2 and 3 alone, run after that
    request. *)
Theorem X17_refused_page_leaves_it_to_the_others {World : Type}
    {NET : Network World} {RT : PyRuntime} url (w : World) :
  match requests_get url method1_headers (sleep_uniform 5 20 w) with
  | (Ok response, _) => refused response
  | (Raise _, _) => True
  end ->
  get_youtube_info url w
  = get_youtube_info_of
      [get_youtube_info_method2 url; get_youtube_info_method3 url]
      (requests_get url method1_headers (sleep_uniform 5 20 w)).2.
Proof.
  intros Hrefused. destruct (method1_raises url w Hrefused) as [e Hraise].
  unfold get_youtube_info, get_youtube_info_of.
  by rewrite try_methods_cons, Hraise.
Qed.

Lemma X17_witness :
  get_youtube_info (NET := example_network missing_pages)
    (RT := example_runtime) other_site_url []
  = get_youtube_info_of (RT := example_runtime)
      [get_youtube_info_method2 (NET := example_network missing_pages)
         (RT := example_runtime) other_site_url;
       get_youtube_info_method3 (NET := example_network missing_pages)
         (RT := example_runtime) other_site_url]
      [other_site_url].
Proof.
  apply (X17_refused_page_leaves_it_to_the_others
           (NET := example_network missing_pages) (RT := example_runtime)
           other_site_url []).
  vm_compute. left. split; [discriminate|reflexivity].
Defined.

(** X18. For a URL in which no video identifier is found, or an empty
    one, method 3 returns its pair of defaults without a request and
    without a pause. *)
Theorem X18_no_identifier_no_request {World : Type} {NET : Network World}
    {RT : PyRuntime} url (w : World) :
  get_video_id_from_url url = None \/ get_video_id_from_url url = Some [] ->
  get_youtube_info_method3 url w = (Ok nothing_found, w).
Proof.
  unfold get_youtube_info_method3, io_try, io_raise.
  by intros [-> | ->].
Qed.

Lemma X18_witness :
  get_youtube_info_method3 (NET := example_network missing_pages)
    (RT := example_runtime) other_site_url []
  = (Ok nothing_found, []).
Proof.
  apply (X18_no_identifier_no_request
           (NET := example_network missing_pages) (RT := example_runtime)).
  left. vm_compute. reflexivity.
Defined.

(** X19. Method 3 never raises, whatever the network does and whatever
    the pages hold: every exception ends in a pair that is returned. *)
Theorem X19_method3_never_raises {World : Type} {NET : Network World}
    {RT : PyRuntime} url (w : World) :
  exists r w', get_youtube_info_method3 url w = (Ok r, w').
Proof. apply method3_returns. Qed.

(** ** The endpoints *)

Section EndpointFacts.
Context {World : Type} {NET : Network World} {RT : PyRuntime}
  {SRV : Server World}.
Implicit Types (w : World) (urls pre post : list pystr).

(** One turn of the loop over the thumbnails. *)
Lemma find_thumbnail_cons url urls w :
  find_thumbnail (url :: urls) w =
  match requests_head url w with
  | (Ok status, w') =>
      if status =? 200 then (Ok (Some url), w') else find_thumbnail urls w'
  | (Raise _, w') => find_thumbnail urls w'
  end.
Proof.
  cbn [find_thumbnail]. run_io.
  destruct (requests_head url w) as [[status|e] w']; [|reflexivity].
  by destruct (status =? 200).
Qed.


Lemma find_thumbnail_skip pre urls w w1 :
  heads_refused pre w = Some w1 ->
  find_thumbnail (pre ++ urls) w = find_thumbnail urls w1.
Proof.
  revert w; induction pre as [|url pre IH]; intros w;
    cbn [heads_refused app].
  - by intros [= ->].
  - rewrite find_thumbnail_cons.
    destruct (requests_head url w) as [[status|e] w']; [|apply IH].
    destruct (status =? 200); [done|apply IH].
Qed.


(** One turn of the loop of the download. *)
Lemma download_loop_cons video_id url urls w :
  download_loop video_id (url :: urls) w =
  match requests_get url [] w with
  | (Ok response, w1) =>
      if status_code response =? 200 then
        match save_and_send response (video_id ++ py "_thumbnail.jpg") w1 with
        | (Ok _, w2) =>
            (Ok (Some (Attachment response
                         (video_id ++ py "_thumbnail.jpg"))), w2)
        | (Raise e, w2) =>
            match print_line (py "Error downloading thumbnail from "
                                ++ url ++ py ": " ++ exn_text e) w2 with
            | (Ok _, w3) => download_loop video_id urls w3
            | (Raise e', w3) => (Raise e', w3)
            end
        end
      else download_loop video_id urls w1
  | (Raise e, w1) =>
      match print_line (py "Error downloading thumbnail from "
                          ++ url ++ py ": " ++ exn_text e) w1 with
      | (Ok _, w2) => download_loop video_id urls w2
      | (Raise e', w2) => (Raise e', w2)
      end
  end.
Proof.
  cbn [download_loop]. run_io.
  destruct (requests_get url [] w) as [[response|e] w1].
  - destruct (status_code response =? 200); [|reflexivity].
    destruct (save_and_send _ _ w1) as [[[]|e] w2]; [reflexivity|].
    by destruct (print_line _ w2) as [[[]|e'] w3].
  - by destruct (print_line _ w1) as [[[]|e'] w2].
Qed.

(** What the loop of the download returns is an attachment under the
    name of the identifier, made of a response with the status 200. *)
Lemma download_loop_sent video_id urls w sent w' :
  download_loop video_id urls w = (Ok (Some sent), w') ->
  exists response,
    sent = Attachment response (video_id ++ py "_thumbnail.jpg")
    /\ status_code response = 200.
Proof.
  revert w; induction urls as [|url urls IH]; intros w; [done|].
  rewrite download_loop_cons.
  destruct (requests_get url [] w) as [[response|e] w1].
  - destruct (status_code response =? 200) eqn:Hstatus; [|apply IH].
    destruct (save_and_send _ _ w1) as [[[]|e] w2].
    + intros [= <- _]. exists response. split; [done|].
      by apply N.eqb_eq in Hstatus.
    + destruct (print_line _ w2) as [[[]|e'] w3]; [apply IH|done].
  - destruct (print_line _ w1) as [[[]|e'] w2]; [apply IH|done].
Qed.

Lemma download_loop_skip video_id pre urls w w1 :
  gets_refused pre w = Some w1 ->
  download_loop video_id (pre ++ urls) w = download_loop video_id urls w1.
Proof.
  revert w; induction pre as [|url pre IH]; intros w;
    cbn [gets_refused app].
  - by intros [= ->].
  - rewrite download_loop_cons.
    destruct (requests_get url [] w) as [[response|e] w']; [|done].
    destruct (status_code response =? 200); [done|apply IH].
Qed.

End EndpointFacts.

(** X20. A posted URL that is missing, empty, or holds neither
    [youtube.com] nor [youtu.be] is answered with the status 400, and
    nothing is requested or printed for it. *)
Theorem X20_rejected_url_changes_nothing {World : Type}
    {NET : Network World} {RT : PyRuntime} {SRV : Server World}
    video_url (w : World) :
  accepted video_url = false ->
  exists error,
    extract_video_info (Ok video_url) w = (Ok (JsonError error 400), w).
Proof.
  unfold accepted, extract_video_info. run_io.
  destruct video_url as [[|c s]|]; [by eexists| |by eexists].
  intros ->. by eexists.
Qed.

Lemma X20_witness :
  exists error,
    extract_video_info (NET := example_network missing_pages)
      (RT := example_runtime) (SRV := example_server)
      (Ok (Some other_site_url)) []
    = (Ok (JsonError error 400), []).
Proof.
  apply (X20_rejected_url_changes_nothing
           (NET := example_network missing_pages) (RT := example_runtime)
           (SRV := example_server)).
  vm_compute. reflexivity.
Defined.



(** X22. The thumbnail is the first of the addresses whose [HEAD]
    request is answered with the status 200: the addresses before it
    were requested and refused or raised, and none is requested after
    it. *)
Theorem X22_first_working_thumbnail {World : Type} {SRV : Server World}
    pre url post (w w1 w2 : World) :
  heads_refused pre w = Some w1 ->
  requests_head url w1 = (Ok 200, w2) ->
  find_thumbnail (pre ++ url :: post) w = (Ok (Some url), w2).
Proof.
  intros Hpre Hhead.
  by rewrite (find_thumbnail_skip _ _ _ _ Hpre), find_thumbnail_cons, Hhead.
Qed.

Lemma X22_witness :
  find_thumbnail (SRV := example_server)
    ([py "https://img.youtube.com/vi/abc/maxresdefault.jpg"]
       ++ py "https://img.youtube.com/vi/abc/hqdefault.jpg"
       :: [py "https://img.youtube.com/vi/abc/mqdefault.jpg"]) []
  = (Ok (Some (py "https://img.youtube.com/vi/abc/hqdefault.jpg")),
     [py "https://img.youtube.com/vi/abc/maxresdefault.jpg";
      py "https://img.youtube.com/vi/abc/hqdefault.jpg"]).
Proof.
  apply (X22_first_working_thumbnail (SRV := example_server)
           [py "https://img.youtube.com/vi/abc/maxresdefault.jpg"]
           (py "https://img.youtube.com/vi/abc/hqdefault.jpg")
           [py "https://img.youtube.com/vi/abc/mqdefault.jpg"]
           [] [py "https://img.youtube.com/vi/abc/maxresdefault.jpg"]
           [py "https://img.youtube.com/vi/abc/maxresdefault.jpg";
            py "https://img.youtube.com/vi/abc/hqdefault.jpg"]).
  - vm_compute. reflexivity.
  - vm_compute. reflexivity.
Defined.

(** X23. The download never raises, and what it returns is the error
    [Thumbnail not found] with the status 404, an error with the status
    500, or an attachment named after the identifier whose content was
    answered with the status 200. *)
Theorem X23_download_reply {World : Type} {NET : Network World}
    {RT : PyRuntime} {SRV : Server World} video_id (w : World) :
  exists sent w',
    download_thumbnail video_id w = (Ok sent, w')
    /\ match sent with
       | JsonError error status =>
           (error = py "Thumbnail not found" /\ status = 404)
           \/ status = 500
       | JsonResult _ => False
       | Attachment response download_name =>
           status_code response = 200
           /\ download_name = video_id ++ py "_thumbnail.jpg"
       end.
Proof.
  unfold download_thumbnail. run_io.
  destruct (download_loop video_id (thumbnail_urls_of video_id) w)
    as [[[sent|]|e] w'] eqn:Hloop.
  - apply download_loop_sent in Hloop as (response & -> & Hstatus).
    by eexists _, _.
  - eexists _, _. split; [reflexivity|]. by left.
  - eexists _, _. split; [reflexivity|]. by right.
Qed.

(** X24. When every address is answered with a status other than 200,
    the download is answered with the status 404, after one request for
    each address. *)
Theorem X24_no_thumbnail_is_404 {World : Type} {NET : Network World}
    {RT : PyRuntime} {SRV : Server World} video_id (w w1 : World) :
  gets_refused (thumbnail_urls_of video_id) w = Some w1 ->
  download_thumbnail video_id w
  = (Ok (JsonError (py "Thumbnail not found") 404), w1).
Proof.
  intros Hrefused. unfold download_thumbnail. run_io.
  rewrite <- (app_nil_r (thumbnail_urls_of video_id)).
  by rewrite (download_loop_skip _ _ _ _ _ Hrefused).
Qed.

Lemma X24_witness :
  download_thumbnail (NET := example_network missing_pages)
    (RT := example_runtime) (SRV := example_server) (py "abc") []
  = (Ok (JsonError (py "Thumbnail not found") 404),
     thumbnail_urls_of (py "abc")).
Proof.
  apply (X24_no_thumbnail_is_404 (NET := example_network missing_pages)
           (RT := example_runtime) (SRV := example_server)).
  vm_compute. reflexivity.
Defined.

(** X25. The download sends the first address that is answered with the
    status 200 and whose content can be stored, when the addresses
    before it were answered with another status; nothing is requested
    after it. *)
Theorem X25_first_answer_is_sent {World : Type} {NET : Network World}
    {RT : PyRuntime} {SRV : Server World}
    video_id pre url post response (w w1 w2 w3 : World) :
  thumbnail_urls_of video_id = pre ++ url :: post ->
  gets_refused pre w = Some w1 ->
  requests_get url [] w1 = (Ok response, w2) ->
  status_code response = 200 ->
  save_and_send response (video_id ++ py "_thumbnail.jpg") w2
  = (Ok tt, w3) ->
  download_thumbnail video_id w
  = (Ok (Attachment response (video_id ++ py "_thumbnail.jpg")), w3).
Proof.
  intros Hurls Hpre Hget Hstatus Hsend. unfold download_thumbnail. run_io.
  rewrite Hurls, (download_loop_skip _ _ _ _ _ Hpre), download_loop_cons.
  by rewrite Hget, Hstatus, Hsend.
Qed.

Lemma X25_witness :
  download_thumbnail (NET := example_network thumbnail_pages)
    (RT := example_runtime) (SRV := example_server) (py "abc") []
  = (Ok (Attachment
           {| status_code := 200; text := [];
              json_title := Raise JSONDecodeError |}
           (py "abc" ++ py "_thumbnail.jpg")),
     [py "https://img.youtube.com/vi/abc/maxresdefault.jpg";
      py "https://img.youtube.com/vi/abc/hqdefault.jpg"]).
Proof.
  apply (X25_first_answer_is_sent (NET := example_network thumbnail_pages)
           (RT := example_runtime) (SRV := example_server)
           (py "abc")
           [py "https://img.youtube.com/vi/abc/maxresdefault.jpg"]
           (py "https://img.youtube.com/vi/abc/hqdefault.jpg")
           [py "https://img.youtube.com/vi/abc/mqdefault.jpg";
            py "https://img.youtube.com/vi/abc/default.jpg"]
           _ [] [py "https://img.youtube.com/vi/abc/maxresdefault.jpg"]
           [py "https://img.youtube.com/vi/abc/maxresdefault.jpg";
            py "https://img.youtube.com/vi/abc/hqdefault.jpg"]).
  - vm_compute. reflexivity.
  - vm_compute. reflexivity.
  - vm_compute. reflexivity.
  - reflexivity.
  - vm_compute. reflexivity.
Defined.
